(** * Procurement analytics dashboard: reconciliation and risk scoring

    A shallow embedding of the field normalizers, the cross-field
    resolvers and the issue ledger of [etl.py], and of the risk model of
    [risk_score.py], together with the properties stated about them.

    Python values are an inductive type; text is modelled as ASCII
    strings; floats are IEEE binary64 values ([spec_float] at precision 53);
    the ternary outcome flag [None] / [True] / [False] of the source is
    [option bool].  Library functions the source calls but does not define
    (the [repr] of a float, the fuzzy scorer, [pandas.to_datetime]) are
    parameters of the definitions that use them. *)

From Stdlib Require Import ZArith String Ascii List Bool Lia.
From Stdlib Require Import DecimalString SpecFloat.
From stdpp Require Import gmap strings.

Import ListNotations.
Local Open Scope string_scope.
Local Open Scope Z_scope.

(* ===================================================================== *)
(** ** Python values *)
(* ===================================================================== *)

Module Py.

(** binary64 *)
Definition float := spec_float.
Definition prec : Z := 53.
Definition emax : Z := 1024.

Inductive pyval :=
| PNone
| PBool (b : bool)
| PInt (z : Z)
| PFloat (f : float)
| PStr (s : string).

(** The exceptions the modelled code can meet. *)
Inductive pyerr := TypeError | ValueError | OverflowError | AttributeError.

Definition is_nan (f : float) : bool :=
  match f with S754_nan => true | _ => false end.

Definition nan : float := S754_nan.

(** [isinstance(x, str)] *)
Definition is_str (x : pyval) : bool :=
  match x with PStr _ => true | _ => false end.

(** [pandas.isna] on a scalar: [None] and the float NaN. *)
Definition isna (x : pyval) : bool :=
  match x with
  | PNone => true
  | PFloat f => is_nan f
  | _ => false
  end.

Definition notna (x : pyval) : bool := negb (isna x).

(** Truthiness ([bool(x)]). *)
Definition truthy (x : pyval) : bool :=
  match x with
  | PNone => false
  | PBool b => b
  | PInt z => negb (z =? 0)
  | PFloat (S754_zero _) => false
  | PFloat _ => true
  | PStr s => negb (String.eqb s "")
  end.

(* --------------------------------------------------------------------- *)
(** *** Characters and strings *)

Definition code (c : ascii) : nat := nat_of_ascii c.

Definition is_digit (c : ascii) : bool :=
  (48 <=? code c)%nat && (code c <=? 57)%nat.

Definition is_upper (c : ascii) : bool :=
  (65 <=? code c)%nat && (code c <=? 90)%nat.

Definition is_lower (c : ascii) : bool :=
  (97 <=? code c)%nat && (code c <=? 122)%nat.

(** [str.isspace] on one ASCII character: TAB..CR, FS..US and the space. *)
Definition is_space (c : ascii) : bool :=
  ((9 <=? code c)%nat && (code c <=? 13)%nat)
  || ((28 <=? code c)%nat && (code c <=? 32)%nat).

Definition lower_char (c : ascii) : ascii :=
  if is_upper c then ascii_of_nat (code c + 32) else c.

Definition upper_char (c : ascii) : ascii :=
  if is_lower c then ascii_of_nat (code c - 32) else c.

Definition digit_val (c : ascii) : Z := Z.of_nat (code c) - 48.

Fixpoint smap (f : ascii -> ascii) (s : string) : string :=
  match s with
  | EmptyString => EmptyString
  | String c r => String (f c) (smap f r)
  end.

Fixpoint sfilter (p : ascii -> bool) (s : string) : string :=
  match s with
  | EmptyString => EmptyString
  | String c r => if p c then String c (sfilter p r) else sfilter p r
  end.

Fixpoint sforall (p : ascii -> bool) (s : string) : bool :=
  match s with
  | EmptyString => true
  | String c r => p c && sforall p r
  end.

Fixpoint sexists (p : ascii -> bool) (s : string) : bool :=
  match s with
  | EmptyString => false
  | String c r => p c || sexists p r
  end.

Fixpoint scount (p : ascii -> bool) (s : string) : nat :=
  match s with
  | EmptyString => 0%nat
  | String c r => ((if p c then 1 else 0) + scount p r)%nat
  end.

(** [s.lower()] *)
Definition lower (s : string) : string := smap lower_char s.

(** [s.capitalize()]: first character upper-cased, the rest lower-cased. *)
Definition capitalize (s : string) : string :=
  match s with
  | EmptyString => EmptyString
  | String c r => String (upper_char c) (lower r)
  end.

Fixpoint lstrip (s : string) : string :=
  match s with
  | EmptyString => EmptyString
  | String c r => if is_space c then lstrip r else s
  end.

Fixpoint rstrip (s : string) : string :=
  match s with
  | EmptyString => EmptyString
  | String c r =>
      match rstrip r with
      | EmptyString => if is_space c then EmptyString else String c EmptyString
      | r' => String c r'
      end
  end.

(** [s.strip()] *)
Definition strip (s : string) : string := rstrip (lstrip s).

(** [c in s] for a one-character needle. *)
Definition contains_char (c : ascii) (s : string) : bool :=
  sexists (Ascii.eqb c) s.

(** [s.startswith(p)] *)
Fixpoint starts_with (p s : string) : bool :=
  match p, s with
  | EmptyString, _ => true
  | String a p', String b s' => Ascii.eqb a b && starts_with p' s'
  | String _ _, EmptyString => false
  end.

(** [s.endswith(p)] *)
Definition ends_with (p s : string) : bool :=
  (String.length p <=? String.length s)%nat
  && String.eqb (substring (String.length s - String.length p) (String.length p) s) p.

(** The first alternative of [alts] that matches at the head of [s],
    as the regex engine tries the branches of [a|b|c] from the left. *)
Fixpoint first_alt (alts : list string) (s : string) : option string :=
  match alts with
  | [] => None
  | a :: rest => if starts_with a s then Some a else first_alt rest s
  end.

(** [re.sub("a|b|c", "", s)] for literal, non-empty alternatives: scan from
    the left; where an alternative matches, drop it and resume after it.
    [skip] counts the characters of the current match still to drop. *)
Fixpoint re_delete_go (alts : list string) (skip : nat) (s : string) : string :=
  match s with
  | EmptyString => EmptyString
  | String c r =>
      match skip with
      | S k => re_delete_go alts k r
      | O =>
          match first_alt alts s with
          | Some a =>
              match String.length a with
              | S k => re_delete_go alts k r
              | O => String c (re_delete_go alts O r)
              end
          | None => String c (re_delete_go alts O r)
          end
      end
  end.

Definition re_delete (alts : list string) (s : string) : string :=
  re_delete_go alts O s.

(** [s.replace(old, "")] is the same left-to-right scan with one literal. *)
Definition remove_all (old s : string) : string := re_delete [old] s.

(** [s.replace(a, b)] for a one-character [a]. *)
Fixpoint replace_char (a : ascii) (b : string) (s : string) : string :=
  match s with
  | EmptyString => EmptyString
  | String c r =>
      if Ascii.eqb c a then b ++ replace_char a b r
      else String c (replace_char a b r)
  end.

(** [s.split(sep)] for a one-character separator. *)
Fixpoint split_char (sep : ascii) (s : string) : list string :=
  match s with
  | EmptyString => [EmptyString]
  | String c r =>
      if Ascii.eqb c sep then EmptyString :: split_char sep r
      else match split_char sep r with
           | [] => [String c EmptyString]
           | h :: t => String c h :: t
           end
  end.

(** ["".join(l)] *)
Definition join (l : list string) : string :=
  fold_right String.append EmptyString l.

(** [str(z)] for an int. *)
Definition str_of_Z (z : Z) : string := NilZero.string_of_int (Z.to_int z).

(* --------------------------------------------------------------------- *)
(** *** Exceptions *)

Definition exc (A : Type) : Type := pyerr + A.
Definition ret {A} (a : A) : exc A := inr a.
Definition raise {A} (e : pyerr) : exc A := inl e.
Definition bind {A B} (m : exc A) (k : A -> exc B) : exc B :=
  match m with
  | inl e => inl e
  | inr a => k a
  end.

(* --------------------------------------------------------------------- *)
(** *** Floats *)

(** The float nearest to an integer (ties to even). *)
Definition float_of_Z (z : Z) : float := binary_normalize prec emax z 0 false.

(** The float nearest to [(-1)^neg * n / d], for positive [n] and [d]. *)
Definition float_of_ratio (neg : bool) (n d : Z) : float :=
  let '(m, e, l) := SFdiv_core_binary prec emax n 0 d 0 in
  binary_round_aux prec emax neg m e l.

(** The float nearest to [(-1)^neg * m * 10^x], for [0 <= m]. *)
Definition float_of_decimal (neg : bool) (m x : Z) : float :=
  if m =? 0 then S754_zero neg
  else if 0 <=? x then binary_round prec emax neg (Z.to_pos (m * 10 ^ x)) 0
  else float_of_ratio neg m (10 ^ (- x)).

Definition fmul (x y : float) : float := SFmul prec emax x y.
Definition flt (x y : float) : bool := SFltb x y.
Definition feq (x y : float) : bool := SFeqb x y.

Definition is_inf (f : float) : bool :=
  match f with S754_infinity _ => true | _ => false end.

(** [digit (["_"] digit)*], after its first digit: the digits read so far
    are in [acc], their number in [n]. *)
Fixpoint digits_more (acc : Z) (n : nat) (s : string) : Z * nat * string :=
  match s with
  | EmptyString => (acc, n, s)
  | String c r =>
      if is_digit c then digits_more (acc * 10 + digit_val c) (S n) r
      else if Ascii.eqb c "_" then
        match r with
        | String c2 r2 =>
            if is_digit c2 then digits_more (acc * 10 + digit_val c2) (S n) r2
            else (acc, n, s)
        | EmptyString => (acc, n, s)
        end
      else (acc, n, s)
  end.

Definition digitpart (acc : Z) (s : string) : option (Z * nat * string) :=
  match s with
  | String c r =>
      if is_digit c then Some (digits_more (acc * 10 + digit_val c) 1 r) else None
  | EmptyString => None
  end.

(** [number ::= [digitpart] "." digitpart | digitpart ["."]]: the digits as
    one integer, the number of digits after the point, and the rest. *)
Definition parse_number (s : string) : option (Z * nat * string) :=
  match digitpart 0 s with
  | Some (m, _, rest) =>
      match rest with
      | String "." r =>
          match digitpart m r with
          | Some res => Some res
          | None => Some (m, O, r)
          end
      | _ => Some (m, O, rest)
      end
  | None =>
      match s with
      | String "." r => digitpart 0 r
      | _ => None
      end
  end.

Definition parse_sign (s : string) : bool * string :=
  match s with
  | String "-" r => (true, r)
  | String "+" r => (false, r)
  | _ => (false, s)
  end.

(** [exponent ::= ("e" | "E") [sign] digitpart], or nothing, up to the end. *)
Definition parse_exponent (s : string) : option Z :=
  match s with
  | EmptyString => Some 0
  | String c r =>
      if Ascii.eqb c "e" || Ascii.eqb c "E" then
        let '(neg, r') := parse_sign r in
        match digitpart 0 r' with
        | Some (e, _, EmptyString) => Some (if neg then - e else e)
        | _ => None
        end
      else None
  end.

(** The whitespace [float] skips around a number: TAB..CR and the space
    (the separators FS..US, which [str.strip] removes, are not part of it). *)
Definition is_c_space (c : ascii) : bool :=
  ((9 <=? code c)%nat && (code c <=? 13)%nat) || (code c =? 32)%nat.

Fixpoint float_lstrip (s : string) : string :=
  match s with
  | EmptyString => EmptyString
  | String c r => if is_c_space c then float_lstrip r else s
  end.

Fixpoint float_rstrip (s : string) : string :=
  match s with
  | EmptyString => EmptyString
  | String c r =>
      match float_rstrip r with
      | EmptyString => if is_c_space c then EmptyString else String c EmptyString
      | r' => String c r'
      end
  end.

(** [float(s)] on a string; [None] is [ValueError]. *)
Definition float_of_string (s : string) : option float :=
  let '(neg, u) := parse_sign (float_rstrip (float_lstrip s)) in
  let l := lower u in
  if String.eqb l "inf" || String.eqb l "infinity" then Some (S754_infinity neg)
  else if String.eqb l "nan" then Some S754_nan
  else
    match parse_number u with
    | Some (m, k, rest) =>
        match parse_exponent rest with
        | Some e => Some (float_of_decimal neg m (e - Z.of_nat k))
        | None => None
        end
    | None => None
    end.

(** [float(x)] *)
Definition py_float (x : pyval) : exc float :=
  match x with
  | PNone => raise TypeError
  | PBool b => ret (float_of_Z (if b then 1 else 0))
  | PInt z =>
      let f := float_of_Z z in
      if is_inf f then raise OverflowError else ret f
  | PFloat f => ret f
  | PStr s =>
      match float_of_string s with
      | Some f => ret f
      | None => raise ValueError
      end
  end.

(** [str(x)]; [float_repr] is Python's [repr] of a float. *)
Definition py_str (float_repr : float -> string) (x : pyval) : string :=
  match x with
  | PNone => "None"
  | PBool true => "True"
  | PBool false => "False"
  | PInt z => str_of_Z z
  | PFloat f => float_repr f
  | PStr s => s
  end.

(** Exact comparison of a finite float with an integer. *)
Definition float_eq_Z (f : float) (z : Z) : bool :=
  match f with
  | S754_zero _ => z =? 0
  | S754_finite s m e =>
      let v := if s then Z.neg m else Z.pos m in
      if 0 <=? e then z =? v * 2 ^ e else v =? z * 2 ^ (- e)
  | _ => false
  end.

(** [x == y], as set and dict membership use it (a NaN equals nothing). *)
Definition py_eqb (x y : pyval) : bool :=
  match x, y with
  | PNone, PNone => true
  | PStr a, PStr b => String.eqb a b
  | PBool a, PBool b => Bool.eqb a b
  | PBool a, PInt z | PInt z, PBool a => z =? (if a then 1 else 0)
  | PBool a, PFloat f | PFloat f, PBool a => float_eq_Z f (if a then 1 else 0)
  | PInt a, PInt b => a =? b
  | PInt z, PFloat f | PFloat f, PInt z => float_eq_Z f z
  | PFloat a, PFloat b => feq a b
  | _, _ => false
  end.

(** [x in xs] *)
Definition py_in (x : pyval) (xs : list pyval) : bool := existsb (py_eqb x) xs.

End Py.

(* ===================================================================== *)
(** ** [datetime.strptime] and [strftime], for the formats of [clean_date] *)
(* ===================================================================== *)

Module DateTime.
Import Py.

Inductive directive := DirY | Dir_m | Dir_d | Dir_b | DirB | Dir_y.

Inductive token :=
| Dir (d : directive)
| Lit (c : ascii).

(** A format string as its directives and literal characters; [None] is
    the [ValueError] of an unknown directive. *)
Fixpoint parse_format (fmt : string) : option (list token) :=
  match fmt with
  | EmptyString => Some []
  | String "%" (String c r) =>
      let d :=
        if Ascii.eqb c "Y" then Some DirY
        else if Ascii.eqb c "m" then Some Dir_m
        else if Ascii.eqb c "d" then Some Dir_d
        else if Ascii.eqb c "b" then Some Dir_b
        else if Ascii.eqb c "B" then Some DirB
        else if Ascii.eqb c "y" then Some Dir_y
        else None in
      match d, parse_format r with
      | Some d, Some ts => Some (Dir d :: ts)
      | _, _ => None
      end
  | String c r =>
      match parse_format r with
      | Some ts => Some (Lit c :: ts)
      | None => None
      end
  end.

(** A branch of a directive's regular expression: one character class per
    character. *)
Definition branch := list (ascii -> bool).

Definition chr (a : ascii) : ascii -> bool := Ascii.eqb a.
Definition rng (a b : ascii) (c : ascii) : bool :=
  (code a <=? code c)%nat && (code c <=? code b)%nat.

(** Matching one branch at the head of [s]: the text it takes and the rest. *)
Fixpoint match_branch (b : branch) (s : string) : option (string * string) :=
  match b with
  | [] => Some (EmptyString, s)
  | p :: b' =>
      match s with
      | String c r =>
          if p c then
            match match_branch b' r with
            | Some (t, rest) => Some (String c t, rest)
            | None => None
            end
          else None
      | EmptyString => None
      end
  end.

(** All the ways the alternation [b1|b2|...] matches, in the order the
    engine tries them on backtracking. *)
Fixpoint match_alts (bs : list branch) (s : string) : list (string * string) :=
  match bs with
  | [] => []
  | b :: bs' =>
      match match_branch b s with
      | Some m => m :: match_alts bs' s
      | None => match_alts bs' s
      end
  end.

(** [3[0-1]|[1-2]\d|0[1-9]|[1-9]| [1-9]] *)
Definition re_d : list branch :=
  [ [chr "3"; rng "0" "1"]; [rng "1" "2"; is_digit]; [chr "0"; rng "1" "9"];
    [rng "1" "9"]; [chr " "; rng "1" "9"] ].

(** [1[0-2]|0[1-9]|[1-9]] *)
Definition re_m : list branch :=
  [ [chr "1"; rng "0" "2"]; [chr "0"; rng "1" "9"]; [rng "1" "9"] ].

(** [\d\d\d\d] *)
Definition re_Y : list branch := [ [is_digit; is_digit; is_digit; is_digit] ].

(** [\d\d] *)
Definition re_y : list branch := [ [is_digit; is_digit] ].

(** [int(text)] for the text a numeric directive takes (digits, after an
    optional leading space). *)
Definition int_of_text (t : string) : Z :=
  fst (fst (digits_more 0 O (lstrip t))).

(** Month names of the C locale with their numbers, in the order of the
    alternation built from them (longest first). *)
Definition month_abbr : list (string * Z) :=
  [ ("jan", 1); ("feb", 2); ("mar", 3); ("apr", 4); ("may", 5); ("jun", 6);
    ("jul", 7); ("aug", 8); ("sep", 9); ("oct", 10); ("nov", 11); ("dec", 12) ].

Definition month_name : list (string * Z) :=
  [ ("september", 9); ("february", 2); ("november", 11); ("december", 12);
    ("january", 1); ("october", 10); ("august", 8); ("march", 3); ("april", 4);
    ("june", 6); ("july", 7); ("may", 5) ].

(** The names that match at the head of [s], ignoring case. *)
Fixpoint match_names (names : list (string * Z)) (s : string) : list (Z * string) :=
  match names with
  | [] => []
  | (n, k) :: rest =>
      let len := String.length n in
      if String.eqb (lower (substring 0 len s)) n
      then (k, substring len (String.length s - len) s) :: match_names rest s
      else match_names rest s
  end.

Record date := { year : Z; month : Z; day : Z }.

(** The fields [strptime] starts from. *)
Definition date0 : date := {| year := 1900; month := 1; day := 1 |}.

Definition set_year (y : Z) (p : date) := {| year := y; month := month p; day := day p |}.
Definition set_month (m : Z) (p : date) := {| year := year p; month := m; day := day p |}.
Definition set_day (d : Z) (p : date) := {| year := year p; month := month p; day := d |}.

(** A two-digit year: 0..68 is 2000.., 69..99 is 1969... *)
Definition century (y : Z) : Z := if y <=? 68 then y + 2000 else y + 1900.

Definition match_token (t : token) (s : string) (p : date) : list (date * string) :=
  match t with
  | Lit c =>
      match s with
      | String c' r => if Ascii.eqb (lower_char c') (lower_char c) then [(p, r)] else []
      | EmptyString => []
      end
  | Dir DirY => map (fun '(t, r) => (set_year (int_of_text t) p, r)) (match_alts re_Y s)
  | Dir Dir_y => map (fun '(t, r) => (set_year (century (int_of_text t)) p, r)) (match_alts re_y s)
  | Dir Dir_m => map (fun '(t, r) => (set_month (int_of_text t) p, r)) (match_alts re_m s)
  | Dir Dir_d => map (fun '(t, r) => (set_day (int_of_text t) p, r)) (match_alts re_d s)
  | Dir Dir_b => map (fun '(k, r) => (set_month k p, r)) (match_names month_abbr s)
  | Dir DirB => map (fun '(k, r) => (set_month k p, r)) (match_names month_name s)
  end.

(** All matches of the whole pattern at the head of [s], first match first. *)
Fixpoint match_tokens (ts : list token) (s : string) (p : date) : list (date * string) :=
  match ts with
  | [] => [(p, s)]
  | t :: ts' =>
      flat_map (fun '(p', s') => match_tokens ts' s' p') (match_token t s p)
  end.

Definition is_leap (y : Z) : bool :=
  (y mod 4 =? 0) && (negb (y mod 100 =? 0) || (y mod 400 =? 0)).

Definition days_in_month (y m : Z) : Z :=
  if m =? 2 then (if is_leap y then 29 else 28)
  else if (m =? 4) || (m =? 6) || (m =? 9) || (m =? 11) then 30
  else 31.

(** The dates [datetime] accepts. *)
Definition valid_date (p : date) : bool :=
  (1 <=? year p) && (year p <=? 9999)
  && (1 <=? month p) && (month p <=? 12)
  && (1 <=? day p) && (day p <=? days_in_month (year p) (month p)).

(** [datetime.strptime(data, fmt)]; [None] is [ValueError]: the pattern does
    not match, text is left over after the first match, or the fields are
    not a date. *)
Definition strptime (data fmt : string) : option date :=
  match parse_format fmt with
  | None => None
  | Some ts =>
      match match_tokens ts data date0 with
      | [] => None
      | (p, rest) :: _ =>
          if String.eqb rest "" then (if valid_date p then Some p else None)
          else None
      end
  end.

Definition digit_char (k : Z) : ascii := ascii_of_nat (Z.to_nat k + 48).

Definition pad2 (n : Z) : string :=
  String (digit_char (n / 10 mod 10)) (String (digit_char (n mod 10)) EmptyString).

Definition pad4 (n : Z) : string :=
  String (digit_char (n / 1000 mod 10)) (String (digit_char (n / 100 mod 10)) (pad2 n)).

(** [d.strftime("%Y-%m-%d")]: the month and the day on two digits; the
    year as the C library of the platform writes it, a decimal number that
    is not filled with zeros (year 999 is written [999]). *)
Definition strftime_iso (p : date) : string :=
  str_of_Z (year p) ++ "-" ++ pad2 (month p) ++ "-" ++ pad2 (day p).

End DateTime.

(* ===================================================================== *)
(** ** [constants.py] *)
(* ===================================================================== *)

Definition DEFAULT_UNIT : Z := 1000000.

(* ===================================================================== *)
(** ** [etl.py] *)
(* ===================================================================== *)

Module Etl.
Import Py DateTime.

(** The outcome flag and the cleaned value a cleaner returns. *)
Definition cleaned : Type := option bool * pyval.

Section Normalizers.

(** [repr] of a float, through [str]. *)
Variable float_repr : float -> string.

(** The score [process.extractOne] gives a choice for a query under
    [fuzz.token_set_ratio]. *)
Variable token_set_ratio : string -> string -> Z.

Local Abbreviation str := (py_str float_repr).

(** [process.extractOne(query, choices, scorer=fuzz.token_set_ratio)]: of
    the choices scoring at least the cutoff 0, the first of the highest
    score, with that score; [None] if there is none. *)
Fixpoint extractOne (query : string) (choices : list string) : option (string * Z) :=
  match choices with
  | [] => None
  | c :: rest =>
      let sc := token_set_ratio query c in
      match extractOne query rest with
      | Some (c', sc') =>
          if 0 <=? sc then (if sc <? sc' then Some (c', sc') else Some (c, sc))
          else Some (c', sc')
      | None => if 0 <=? sc then Some (c, sc) else None
      end
  end.

(** [re.sub(r'(?<=[a-z])([A-Z])', r' \1', s)]; [prev] tells whether the
    character before the head of [s] is a lowercase letter. *)
Fixpoint camel_split_go (prev : bool) (s : string) : string :=
  match s with
  | EmptyString => EmptyString
  | String c r =>
      if prev && is_upper c then String " " (String c (camel_split_go (is_lower c) r))
      else String c (camel_split_go (is_lower c) r)
  end.

Definition camel_split (s : string) : string := camel_split_go false s.

(** The preliminary cleaning of the second pass. *)
Definition normalize_provider (original : string) : string :=
  let cleaned := strip (camel_split original) in
  strip (re_delete ["(AU)"; "AUS"] cleaned).

(** The first, strict pass: its result if the best match reaches the high
    threshold. *)
Definition strict_pass (original : string) (correct_providers : list string)
    (high_threshold : Z) : option cleaned :=
  match extractOne original correct_providers with
  | Some (m, sc) =>
      if high_threshold <=? sc then
        if negb (String.eqb m original) then Some (Some true, PStr m)
        else Some (Some false, PStr original)
      else None
  | None => None
  end.

(** The second, lenient pass. *)
Definition lenient_pass (original : string) (correct_providers : list string)
    (low_threshold : Z) : cleaned :=
  match extractOne (normalize_provider original) correct_providers with
  | Some (m, sc) =>
      if low_threshold <? sc then
        if negb (String.eqb m original) then (Some true, PStr m)
        else (Some false, PStr original)
      else (None, PStr original)
  | None => (None, PStr original)
  end.

Definition clean_provider_with (provider : pyval) (correct_providers : list string)
    (high_threshold low_threshold : Z) : cleaned :=
  if negb (truthy provider) || negb (is_str provider) then (None, provider)
  else
    match provider with
    | PStr p =>
        let original := strip p in
        match strict_pass original correct_providers high_threshold with
        | Some r => r
        | None => lenient_pass original correct_providers low_threshold
        end
    | _ => (None, provider)
    end.

(** [clean_provider] with its default thresholds. *)
Definition clean_provider (provider : pyval) (correct_providers : list string) : cleaned :=
  clean_provider_with provider correct_providers 80 60.

(** [re.sub(r"[^\d.]", "", s)] *)
Definition digits_and_dots (s : string) : string :=
  sfilter (fun c => is_digit c || Ascii.eqb c ".") s.

(** [''.join(parts[:-1]) + '.' + parts[-1]] for [parts = s.split('.')] *)
Definition collapse_dots (s : string) : string :=
  let parts := split_char "." s in
  join (removelast parts) ++ "." ++ List.last parts EmptyString.

Definition clean_invoice_amount (amount : pyval) : cleaned :=
  let missing :=
    match amount with
    | PNone => true
    | PFloat f => is_nan f
    | _ => false
    end in
  if missing then (None, amount)
  else
    let amount := if is_str amount then amount else PStr (str amount) in
    let original := strip (str amount) in
    let amount_str := strip (lower original) in
    if contains_char "m" amount_str then
      let amount_str := strip (re_delete ["m"; "mil"; "million"] amount_str) in
      let cleaned_amount_str := digits_and_dots amount_str in
      match float_of_string cleaned_amount_str with
      | Some f => (Some true, PFloat (fmul f (float_of_Z DEFAULT_UNIT)))
      | None => (None, PStr original)
      end
    else
      let cleaned_amount_str := digits_and_dots amount_str in
      let cleaned_amount_str :=
        if (1 <? scount (Ascii.eqb ".") cleaned_amount_str)%nat
        then collapse_dots cleaned_amount_str
        else cleaned_amount_str in
      match float_of_string cleaned_amount_str with
      | Some value =>
          let was_modified := negb (String.eqb cleaned_amount_str original) in
          (Some was_modified, PFloat value)
      | None => (None, PStr original)
      end.

Definition formats : list string :=
  [ "%Y-%m-%d"; "%d-%m-%Y"; "%m-%d-%Y"; "%d-%b-%Y"; "%d-%B-%Y"; "%B-%d-%Y";
    "%y-%m-%d" ].

(** The loop over the formats: the first that parses decides. *)
Fixpoint try_formats (fmts : list string) (date_str_clean original : string) : cleaned :=
  match fmts with
  | [] => (None, PStr original)
  | fmt :: rest =>
      match strptime date_str_clean fmt with
      | Some d =>
          let cleaned := strftime_iso d in
          if negb (String.eqb cleaned original) then (Some true, PStr cleaned)
          else (Some false, PStr original)
      | None => try_formats rest date_str_clean original
      end
  end.

Definition clean_date (date_str : pyval) : cleaned :=
  match date_str with
  | PStr s =>
      if String.eqb (strip s) "" then (None, date_str)
      else
        let original := strip s in
        let date_str_clean :=
          replace_char " " "-" (replace_char "/" "-" (replace_char "," "" (strip s))) in
        try_formats formats date_str_clean original
  | _ => (None, date_str)
  end.

(* --------------------------------------------------------------------- *)
(** *** Cross-field resolvers *)

(** A registry record: [{'contract_title': .., 'contract_number': ..}]. *)
Record contract := { contract_title : pyval; contract_number : pyval }.

(** [provider in d], for a dict keyed by provider names. *)
Definition dict_has (d : gmap string (list contract)) (k : pyval) : bool :=
  match k with
  | PStr p => bool_decide (is_Some (d !! p))
  | _ => false
  end.

(** [d.get(provider)] *)
Definition dict_get (d : gmap string (list contract)) (k : pyval) : option (list contract) :=
  match k with
  | PStr p => d !! p
  | _ => None
  end.

(** [pd.isna(x) or str(x).strip() == ""] *)
Definition blank (x : pyval) : bool :=
  isna x || String.eqb (strip (str x)) "".

(** [x.strip()]: only a string has the method. *)
Definition py_strip (x : pyval) : exc string :=
  match x with
  | PStr s => ret (strip s)
  | _ => raise AttributeError
  end.

(** The scan of [clean_title] over several contracts, by contract number. *)
Fixpoint title_by_number (contracts : list contract) (contract_num contract_title_raw : pyval)
    : exc cleaned :=
  match contracts with
  | [] => ret (None, contract_title_raw)
  | c :: rest =>
      bind (py_strip contract_num) (fun n =>
        if String.eqb (str (contract_number c)) n
        then ret (Some true, contract_title c)
        else title_by_number rest contract_num contract_title_raw)
  end.

Definition clean_title (provider_clean contract_title_raw contract_num : pyval)
    (provider_to_contracts_dict : gmap string (list contract)) : exc cleaned :=
  if blank contract_title_raw && negb (dict_has provider_to_contracts_dict provider_clean)
  then ret (None, contract_title_raw)
  else
    match dict_get provider_to_contracts_dict provider_clean with
    | None | Some [] => ret (None, contract_title_raw)
    | Some contracts =>
        let valid_titles := map contract_title contracts in
        if negb (py_in contract_title_raw valid_titles) then
          if blank contract_num then ret (None, contract_title_raw)
          else
            match contracts with
            | [c] => ret (Some true, contract_title c)
            | _ => title_by_number contracts contract_num contract_title_raw
            end
        else ret (Some false, contract_title_raw)
    end.

(** The scan of [clean_number] over several contracts, by cleaned title. *)
Fixpoint number_by_title (contracts : list contract) (title_clean contract_number_raw : pyval)
    : cleaned :=
  match contracts with
  | [] => (None, contract_number_raw)
  | c :: rest =>
      if py_eqb (PStr (str (contract_title c))) title_clean
      then (Some true, contract_number c)
      else number_by_title rest title_clean contract_number_raw
  end.

Definition clean_number (provider_clean contract_number_raw title_clean : pyval)
    (provider_to_contracts_dict : gmap string (list contract)) : cleaned :=
  if blank contract_number_raw && negb (dict_has provider_to_contracts_dict provider_clean)
  then (None, contract_number_raw)
  else
    match dict_get provider_to_contracts_dict (PStr "") with
    | None | Some [] => (None, contract_number_raw)
    | Some contracts =>
        let valid_nums := map contract_number contracts in
        if negb (py_in contract_number_raw valid_nums) then
          if blank title_clean then (None, contract_number_raw)
          else
            match contracts with
            | [c] => (Some true, contract_number c)
            | _ => number_by_title contracts title_clean contract_number_raw
            end
        else (Some false, contract_number_raw)
    end.

End Normalizers.

(* --------------------------------------------------------------------- *)
(** *** The issue ledger *)

(** A cell of a data frame: a scalar, or a list of field names. *)
Inductive cell :=
| CVal (v : pyval)
| CList (l : list string).

(** A row maps column names to cells. *)
Abbreviation row := (gmap string cell).

(** A data frame: its column names in order, and its rows. *)
Record frame := { columns : list string; rows : list row }.

(** The cell of a row under a column. *)
Definition cell_at (col : string) (r : row) : cell :=
  default (CVal (PFloat nan)) (r !! col).

(** [x if isinstance(x, list) else []] *)
Definition as_list (c : cell) : cell :=
  match c with
  | CList l => CList l
  | CVal _ => CList []
  end.

(** The initialisation of a ledger column: created with empty lists where
    the frame does not have it, else every value that is not a list is
    replaced by an empty list. *)
Definition init_list_col (col : string) (df : frame) : frame :=
  if bool_decide (col ∈ columns df)
  then {| columns := columns df;
          rows := map (fun r => <[col := as_list (cell_at col r)]> r) (rows df) |}
  else {| columns := columns df ++ [col];
          rows := map (fun r => <[col := CList []]> r) (rows df) |}.

(** [issue_list + [field_name]] (the ledger cells are lists by then). *)
Definition append_name (field_name : string) (c : cell) : cell :=
  match c with
  | CList l => CList (l ++ [field_name])
  | CVal v => CVal v
  end.

(** [df[col].isna()] on one row *)
Definition cell_isna (c : cell) : bool :=
  match c with
  | CVal v => isna v
  | CList _ => false
  end.

(** [df[col] == True] on one row *)
Definition cell_is_true (c : cell) : bool :=
  match c with
  | CVal v => py_eqb v (PBool true)
  | CList _ => false
  end.

(** [df.loc[mask, col] = df.loc[mask, col].apply(f)], with the mask taken
    from the cells of [mask_col]. *)
Definition update_where (mask_col : string) (mask : cell -> bool) (col : string)
    (f : cell -> cell) (df : frame) : frame :=
  {| columns := columns df;
     rows := map (fun r => if mask (cell_at mask_col r)
                           then <[col := f (cell_at col r)]> r else r) (rows df) |}.

(** The field a flag column stands for. *)
Definition field_name (col : string) : string := remove_all "_Flag" col.

(** The body of the loop over the flag columns. *)
Definition record_flag (failed_col modified_col : string) (df : frame) (col : string) : frame :=
  let df := update_where col cell_isna failed_col (append_name (field_name col)) df in
  update_where col cell_is_true modified_col (append_name (field_name col)) df.

Definition record_issue_with (df : frame) (failed_col modified_col : string) : frame :=
  let df := init_list_col failed_col df in
  let df := init_list_col modified_col df in
  let flag_cols := List.filter (ends_with "_Flag") (columns df) in
  fold_left (record_flag failed_col modified_col) flag_cols df.

(** [record_issue] with its default column names. *)
Definition record_issue (df : frame) : frame :=
  record_issue_with df "FailedFields" "ModifiedFields".

End Etl.

(* ===================================================================== *)
(** ** [risk_score.py] *)
(* ===================================================================== *)

Module RiskScore.
Import Py Etl.

Definition FAILED_WEIGHTS : gmap string Z :=
  <["Provider" := 5]> (<["InvoiceAmount" := 8]> (<["InvoiceDate" := 3]>
    (<["Title" := 5]> (<["Number" := 5]> ∅)))).

Definition MODIFIED_WEIGHTS : gmap string Z :=
  <["Provider" := 2]> (<["InvoiceAmount" := 4]> (<["InvoiceDate" := 1]>
    (<["Title" := 2]> (<["Number" := 2]> ∅)))).

Definition CONTRACT_WEIGHTS : gmap string Z :=
  <["Expired" := 15]> (<["ExpiringSoon" := 5]> (<["ContractMismatch" := 10]> ∅)).

Definition FINANCIAL_WEIGHTS : gmap string Z :=
  <["HighAmount" := 10]> (<["LowAmount" := 7]> ∅).

Definition HIGH_AMOUNT_THRESHOLD : Z := 1000000.
Definition LOW_AMOUNT_THRESHOLD : Z := 100.

(** [safe_float]: [TypeError] and [ValueError] give NaN (a list is no
    number: [TypeError]); another exception of [float] goes through. *)
Definition safe_float (c : cell) : exc float :=
  match c with
  | CList _ => ret nan
  | CVal x =>
      match py_float x with
      | inl TypeError | inl ValueError => ret nan
      | r => r
      end
  end.

(** The name a ledger entry is weighed under. *)
Definition base_name (field : string) : string :=
  capitalize (remove_all "_Flag" (remove_all "_Clean" field)).

Definition failed_weight (field : string) : Z :=
  default 5 (FAILED_WEIGHTS !! base_name field).

Definition modified_weight (field : string) : Z :=
  default 2 (MODIFIED_WEIGHTS !! base_name field).

(** The four scores attached to a record. *)
Record scores := {
  RiskScore : Z;
  DataQualityRisk : Z;
  ContractRisk : Z;
  FinancialRisk : Z
}.

(** A registry entry as loaded from JSON. *)
Abbreviation contract_dict := (gmap string pyval).

(** The key of the contract map: provider, title, number. *)
Definition key : Type := pyval * pyval * pyval.

Definition key_eqb (a b : key) : bool :=
  let '(a1, a2, a3) := a in
  let '(b1, b2, b3) := b in
  py_eqb a1 b1 && py_eqb a2 b2 && py_eqb a3 b3.

(** [contract_map.get(key)] on the entries of the map. *)
Fixpoint map_get (contract_map : list (key * contract_dict)) (k : key) : option contract_dict :=
  match contract_map with
  | [] => None
  | (k', c) :: rest => if key_eqb k' k then Some c else map_get rest k
  end.

(** [row.get(col)]: the cell of the row, [None] for a missing column. *)
Definition row_get (r : row) (col : string) : cell :=
  default (CVal PNone) (r !! col).

(** The tuple [(provider, title, number)] as a key: a list in it cannot be
    hashed, and the lookup raises [TypeError]. *)
Definition key_of (provider title number : cell) : exc key :=
  match provider, title, number with
  | CVal p, CVal t, CVal n => ret (p, t, n)
  | _, _, _ => raise TypeError
  end.

Fixpoint chars (s : string) : list string :=
  match s with
  | EmptyString => []
  | String c r => String c EmptyString :: chars r
  end.

(** What [for field in (row.get(col, []) or [])] iterates over: the names
    of a list, the characters of a text, nothing for a missing or falsy
    value; any other value is not iterable. *)
Definition fields_of (r : row) (col : string) : exc (list string) :=
  match r !! col with
  | None => ret []
  | Some (CList l) => ret l
  | Some (CVal (PStr s)) => ret (chars s)
  | Some (CVal v) => if truthy v then raise TypeError else ret []
  end.

Section Scoring.

(** [pd.to_datetime(x, errors="coerce")]: a time in nanoseconds, [None]
    for [NaT].  The times are instants on one clock, without time zones:
    the comparison of a time that has a zone with one that has none, and
    the index of times that a list is converted to, are not modelled, so
    the statements below say what the scores are when scores are
    returned, or that an earlier step raises. *)
Variable to_datetime : cell -> exc (option Z).

(** [safe_date]: any exception gives [NaT]. *)
Definition safe_date (x : cell) : option Z :=
  match to_datetime x with
  | inr t => t
  | inl _ => None
  end.

(** [(t - u).days] *)
Definition days_between (t u : Z) : Z := (t - u) / (86400 * 1000000000).

Definition compute_risk_score (r : row) (contract_map : list (key * contract_dict))
    : exc scores :=
  bind (fields_of r "FailedFields") (fun failed_fields =>
  bind (fields_of r "ModifiedFields") (fun modified_fields =>
  let data_quality_risk :=
    fold_left (fun acc f => acc + modified_weight f) modified_fields
      (fold_left (fun acc f => acc + failed_weight f) failed_fields 0) in
  let provider := row_get r "Provider_Clean" in
  let title := row_get r "ContractTitle_Clean" in
  let number := row_get r "ContractNumber_Clean" in
  bind (safe_float (row_get r "InvoiceAmount_Clean")) (fun amount =>
  let inv_date := safe_date (row_get r "InvoiceDate_Clean") in
  bind (key_of provider title number) (fun key =>
  let contract_risk :=
    match map_get contract_map key with
    | Some contract =>
        if bool_decide (contract = ∅) then CONTRACT_WEIGHTS !!! "ContractMismatch"
        else
          let expiry := safe_date (CVal (default PNone (contract !! "expiry_date"))) in
          match expiry, inv_date with
          | Some expiry, Some inv_date =>
              if expiry <? inv_date then CONTRACT_WEIGHTS !!! "Expired"
              else if (0 <=? days_between expiry inv_date)
                      && (days_between expiry inv_date <=? 90)
                   then CONTRACT_WEIGHTS !!! "ExpiringSoon"
                   else 0
          | _, _ => 0
          end
    | None => CONTRACT_WEIGHTS !!! "ContractMismatch"
    end in
  let financial_risk :=
    if negb (is_nan amount) then
      if flt (float_of_Z HIGH_AMOUNT_THRESHOLD) amount then FINANCIAL_WEIGHTS !!! "HighAmount"
      else if flt amount (float_of_Z LOW_AMOUNT_THRESHOLD) then FINANCIAL_WEIGHTS !!! "LowAmount"
      else 0
    else 0 in
  let total_score := data_quality_risk + contract_risk + financial_risk in
  ret {| RiskScore := total_score;
         DataQualityRisk := data_quality_risk;
         ContractRisk := contract_risk;
         FinancialRisk := financial_risk |})))).

End Scoring.
End RiskScore.

(* ===================================================================== *)
(** ** Notions the statements use *)
(* ===================================================================== *)

Import Py DateTime Etl RiskScore.

(** A scorer for examples: 100 on equal texts, 0 otherwise. *)
Definition exact_ratio (a b : string) : Z := if String.eqb a b then 100 else 0.


(** A float [repr] for examples. *)
Definition const_repr (s : string) (f : float) : string := s.

(** An index with one provider holding one contract. *)
Definition one_contract_index : gmap string (list contract) :=
  <["Citywide" := [ {| contract_title := PStr "Civil works"; contract_number := PInt 3665 |} ]]> ∅.

(** A record with the amount as its one unresolved field, an amount of
    2,000,000 and nothing else. *)
Definition amount_only_row : row :=
  <["FailedFields" := CList ["InvoiceAmount"]]>
    (<["ModifiedFields" := CList []]>
       (<["InvoiceAmount_Clean" := CVal (PFloat (float_of_Z 2000000))]> ∅)).

(** The characters [re.sub(r"[^\d.]", "", s)] keeps. *)
Definition digit_or_dot (c : ascii) : bool := is_digit c || Ascii.eqb c ".".

(** A plain float amount, as text: digits with at most one decimal point,
    and at least one digit. *)
Definition plain_decimal (s : string) : bool :=
  sforall digit_or_dot s && (scount (Ascii.eqb ".") s <=? 1)%nat && sexists is_digit s.

(** The characters of an ISO date. *)
Definition digit_or_dash (c : ascii) : bool := is_digit c || Ascii.eqb c "-".

(** The date a text of the form [YYYY-MM-DD] writes, if it is one: four
    digits, two digits and two digits around two dashes, that make a date. *)
Definition iso_date_text (s : string) : option date :=
  match s with
  | String y1 (String y2 (String y3 (String y4 (String s1 (String m1 (String m2
      (String s2 (String d1 (String d2 EmptyString))))))))) =>
      if forallb is_digit [y1; y2; y3; y4; m1; m2; d1; d2]
         && Ascii.eqb s1 "-" && Ascii.eqb s2 "-"
      then
        let d := {| year := 1000 * digit_val y1 + 100 * digit_val y2
                            + 10 * digit_val y3 + digit_val y4;
                    month := 10 * digit_val m1 + digit_val m2;
                    day := 10 * digit_val d1 + digit_val d2 |} in
        if valid_date d then Some d else None
      else None
  | _ => None
  end.

(** The text [YYYY-MM-DD] of a date, the year on four digits. *)
Definition iso_text (d : date) : string :=
  pad4 (year d) ++ "-" ++ pad2 (month d) ++ "-" ++ pad2 (day d).

(** A valid ISO calendar date of the form [YYYY-MM-DD]. *)
Definition is_iso_date (s : string) : bool :=
  match iso_date_text s with Some _ => true | None => false end.

(** The float 1234.5. *)
Definition f1234_5 : float := float_of_ratio false 12345 10.

(** The inputs each normalizer takes as absent: for the amount, [None]
    and NaN. *)
Definition amount_absent (x : pyval) : bool := isna x.

(** For the date, anything but a text that is not blank. *)
Definition date_absent (x : pyval) : bool :=
  match x with
  | PStr s => String.eqb (strip s) ""
  | _ => true
  end.

(** For the provider, anything but a text that is not empty. *)
Definition provider_absent (x : pyval) : bool :=
  negb (truthy x) || negb (is_str x).

(** What a normalizer does when it cannot resolve its input: an absent
    input goes through with the unresolved flag; whenever the flag is
    unresolved, the value is the input itself if it is absent, and else its
    text with the surrounding whitespace trimmed; such a value is null only
    if the input is. *)
Definition unresolved_law (float_repr : float -> string)
    (absent : pyval -> bool) (clean : pyval -> cleaned) : Prop :=
  forall x,
    (absent x = true -> clean x = (None, x))
    /\ (fst (clean x) = None ->
        snd (clean x) = if absent x then x else PStr (strip (py_str float_repr x)))
    /\ (fst (clean x) = None -> isna (snd (clean x)) = true -> isna x = true).

(** The text [clean_invoice_amount] hands to [float]. *)
Definition amount_digits (s : string) : string :=
  let t := digits_and_dots s in
  if contains_char "m" (lower s) then t
  else if (1 <? scount (Ascii.eqb ".") t)%nat then collapse_dots t else t.

(** The text [clean_date] hands to [strptime]. *)
Definition date_text (s : string) : string :=
  replace_char " " "-" (replace_char "/" "-" (replace_char "," "" (strip s))).

(** The flag columns of a frame. *)
Definition flag_columns (df : frame) : list string :=
  List.filter (ends_with "_Flag") (columns df).

(** The names a ledger column holds for a row when [record_issue] starts:
    those of a list already there, none otherwise. *)
Definition ledger_on_entry (df : frame) (col : string) (r : row) : list string :=
  if bool_decide (col ∈ columns df)
  then match cell_at col r with CList l => l | CVal _ => [] end
  else [].

(** The fields of the flag columns of a row whose flag passes [mask]. *)
Definition flagged (mask : cell -> bool) (cols : list string) (r : row) : list string :=
  map field_name (List.filter (fun c => mask (cell_at c r)) cols).

(** One pass of the loop of [record_issue], on one row. *)
Definition flag_row (failed_col modified_col : string) (r : row) (col : string) : row :=
  let r1 := if cell_isna (cell_at col r)
            then <[failed_col := append_name (field_name col) (cell_at failed_col r)]> r
            else r in
  if cell_is_true (cell_at col r1)
  then <[modified_col := append_name (field_name col) (cell_at modified_col r1)]> r1
  else r1.

(** A batch as [etl_pipeline] hands it to [record_issue]: one record whose
    provider could not be resolved and whose date was rewritten. *)
Definition flagged_batch : frame :=
  {| columns := ["InvoiceID"; "Provider_Flag"; "Provider_Clean"; "InvoiceDate_Flag"];
     rows := [ <["InvoiceID" := CVal (PStr "INV10001")]>
                 (<["Provider_Flag" := CVal PNone]>
                    (<["Provider_Clean" := CVal (PStr "Acme")]>
                       (<["InvoiceDate_Flag" := CVal (PBool true)]> ∅))) ] |}.

(** A frame that already carries a ledger: the provider was unresolved
    before and is now flagged as changed. *)
Definition carried_ledger : frame :=
  {| columns := ["Provider_Flag"; "FailedFields"];
     rows := [ <["Provider_Flag" := CVal (PBool true)]>
                 (<["FailedFields" := CList ["Provider"]]> ∅) ] |}.

(* ===================================================================== *)
(** ** [risk_score.py]: the contract map of [add_risk_scores] *)
(* ===================================================================== *)

Module RiskBatch.
Import Py Etl RiskScore.

(** [m[k] = v] on the entries of a dict: the value under an equal key is
    replaced where it stands, a new key goes to the end. *)
Fixpoint dict_set (m : list (key * contract_dict)) (k : key) (v : contract_dict)
    : list (key * contract_dict) :=
  match m with
  | [] => [(k, v)]
  | (k', v') :: rest =>
      if key_eqb k' k then (k', v) :: rest else (k', v') :: dict_set rest k v
  end.

(** [c.get(name)] *)
Definition get (c : contract_dict) (name : string) : pyval :=
  default PNone (c !! name).

(** [(c.get("service_provider"), c.get("contract_title"), c.get("contract_number"))] *)
Definition contract_key (c : contract_dict) : key :=
  (get c "service_provider", get c "contract_title", get c "contract_number").

(** The guard of the comprehension. *)
Definition named (c : contract_dict) : bool :=
  truthy (get c "service_provider") && truthy (get c "contract_title").

(** The dict comprehension that builds [contract_map]. *)
Definition contract_map (contracts : list contract_dict) : list (key * contract_dict) :=
  fold_left (fun m c => if named c then dict_set m (contract_key c) c else m) contracts [].

End RiskBatch.

(* ===================================================================== *)
(** ** Notions of the further statements *)
(* ===================================================================== *)

Import Py DateTime Etl RiskScore RiskBatch.

(** A name that is missing: [None], NaN or the empty text. *)
Definition no_name (v : pyval) : bool := isna v || py_eqb v (PStr "").

(** An entry of the contract map that, if its key equals the key of [c],
    is the entry of [c] itself. *)
Definition holds_contract (c : contract_dict) (e : key * contract_dict) : Prop :=
  key_eqb (fst e) (contract_key c) = true -> e = (contract_key c, c).

(** Ninety-one days, in nanoseconds. *)
Definition ns_91_days : Z := 91 * 86400 * 1000000000.

(** A registry of one contract. *)
Definition works_contract : contract_dict :=
  <["service_provider" := PStr "Citywide"]>
    (<["contract_title" := PStr "Civil works"]>
       (<["contract_number" := PInt 3665]>
          (<["expiry_date" := PStr "2026-06-30"]> ∅))).

(** A record of that contract, as the ETL leaves it and as it is read
    back from the CSV: the ledger cells are the texts of two empty lists. *)
Definition works_invoice : row :=
  <["Provider_Clean" := CVal (PStr "Citywide")]>
    (<["ContractTitle_Clean" := CVal (PStr "Civil works")]>
       (<["ContractNumber_Clean" := CVal (PInt 3665)]>
          (<["InvoiceAmount_Clean" := CVal (PFloat (float_of_Z 5000))]>
             (<["InvoiceDate_Clean" := CVal (PStr "2026-06-01")]>
                (<["FailedFields" := CVal (PStr "[]")]>
                   (<["ModifiedFields" := CVal (PStr "[]")]> ∅)))))).

(** A stand-in for [pandas.to_datetime] on two dates: midnight of
    2026-06-01 and of 2026-06-30, in nanoseconds since 1970. *)
Definition two_dates (c : cell) : exc (option Z) :=
  match c with
  | CVal (PStr s) =>
      if String.eqb s "2026-06-01" then inr (Some (20605 * 86400 * 1000000000))
      else if String.eqb s "2026-06-30" then inr (Some (20634 * 86400 * 1000000000))
      else inr None
  | _ => inr None
  end.

(** An index with one provider holding two contracts. *)
Definition two_contract_index : gmap string (list contract) :=
  <["Citywide" := [ {| contract_title := PStr "Civil works"; contract_number := PInt 3665 |};
                    {| contract_title := PStr "Open spaces"; contract_number := PInt 3676 |} ]]> ∅.

(** Any character but the decimal point. *)
Definition not_dot (c : ascii) : bool := negb (Ascii.eqb c ".").

(** The text [DD/MM/YYYY] of a date. *)
Definition day_first_text (d : date) : string :=
  pad2 (day d) ++ "/" ++ pad2 (month d) ++ "/" ++ pad4 (year d).

(** The text [MM/DD/YYYY] of a date. *)
Definition month_first_text (d : date) : string :=
  pad2 (month d) ++ "/" ++ pad2 (day d) ++ "/" ++ pad4 (year d).

(** The date with day and month exchanged. *)
Definition swap_day_month (d : date) : date :=
  {| year := year d; month := day d; day := month d |}.

(** The characters of a date written with slashes. *)
Definition digit_or_slash (c : ascii) : bool := is_digit c || Ascii.eqb c "/".

(* ===================================================================== *)
(** ** Notions of the statements on scoring *)
(* ===================================================================== *)

(** A ledger cell the loops of [compute_risk_score] can run over: a
    missing column, a list, a text, or a scalar that counts as false. *)
Definition iterable (c : option cell) : bool :=
  match c with
  | None | Some (CList _) | Some (CVal (PStr _)) => true
  | Some (CVal v) => negb (truthy v)
  end.

(** A cell that can be part of a dict key: anything but a list. *)
Definition hashable (c : cell) : bool :=
  match c with
  | CVal _ => true
  | CList _ => false
  end.

(** A cell [float] does not overflow on: anything but an integer beyond
    the range of a float. *)
Definition float_fits (c : cell) : bool :=
  match c with
  | CVal (PInt z) => negb (is_inf (float_of_Z z))
  | _ => true
  end.

(** What [compute_risk_score] needs of a record to get past its loops
    over the ledger, its conversion of the amount and its lookup of the
    contract. *)
Definition readable_record (r : row) : bool :=
  iterable (r !! "FailedFields") && iterable (r !! "ModifiedFields")
  && float_fits (row_get r "InvoiceAmount_Clean")
  && hashable (row_get r "Provider_Clean")
  && hashable (row_get r "ContractTitle_Clean")
  && hashable (row_get r "ContractNumber_Clean").

(** A record that holds a number where the list of failed fields should
    be. *)
Definition broken_ledger_row : row := <["FailedFields" := CVal (PInt 3)]> ∅.

(* ===================================================================== *)
(** ** Properties *)
(* ===================================================================== *)


(* --------------------------------------------------------------------- *)
(** *** The number resolver *)

Section NumberResolver.
Variable float_repr : float -> string.

(** C1. [clean_number] looks the registry up under the empty string, not
    under the cleaned provider: on an index with no entry for the empty
    string it returns the unresolved flag and the contract number it was
    given, whatever the cleaned provider, the raw number and the cleaned
    title are. *)
Theorem clean_number_needs_empty_key
    (d : gmap string (list contract)) (provider_clean contract_number_raw title_clean : pyval) :
  d !! "" = None ->
  clean_number float_repr provider_clean contract_number_raw title_clean d
  = (None, contract_number_raw).
Proof.
  intros Hd. unfold clean_number.
  destruct (blank float_repr contract_number_raw && negb (dict_has d provider_clean));
    [reflexivity|].
  simpl. rewrite Hd. reflexivity.
Qed.

End NumberResolver.

Lemma clean_number_needs_empty_key_witness :
  one_contract_index !! "" = None /\
  clean_number (const_repr "3665.0") (PStr "Citywide") (PStr " ") (PStr "Civil works")
    one_contract_index = (None, PStr " ").
Proof.
  split; [reflexivity|].
  apply (clean_number_needs_empty_key (const_repr "3665.0") one_contract_index).
  reflexivity.
Defined.

(* --------------------------------------------------------------------- *)
(** *** The title resolver *)

Section TitleResolver.
Variable float_repr : float -> string.

(** An absent title (None or NaN) is none of the titles of a contract
    that has one. *)
Lemma absent_title_not_among (t : pyval) (c : contract) :
  isna t = true -> isna (contract_title c) = false ->
  py_in t (map contract_title [c]) = false.
Proof.
  intros Ht Hc. cbn [map py_in existsb]. rewrite orb_false_r.
  destruct t as [| | |f|]; try discriminate Ht.
  - destruct (contract_title c); try reflexivity; discriminate Hc.
  - destruct f; try discriminate Ht.
    destruct (contract_title c); reflexivity.
Qed.

(** C8. When the cleaned provider holds exactly one contract in the index,
    the raw title is absent (the contract having a title) or is not one of
    the provider's titles, and the raw contract number is not blank,
    [clean_title] returns that contract's title, flagged as changed; the
    number supplied plays no part. *)
Theorem clean_title_single_contract
    (d : gmap string (list contract)) (p : string) (c : contract)
    (contract_title_raw contract_num : pyval) :
  d !! p = Some [c] ->
  (isna contract_title_raw = true /\ isna (contract_title c) = false)
  \/ py_in contract_title_raw (map contract_title [c]) = false ->
  blank float_repr contract_num = false ->
  clean_title float_repr (PStr p) contract_title_raw contract_num d
  = inr (Some true, contract_title c).
Proof.
  intros Hd Htitle Hnum. unfold clean_title.
  assert (Hhas : dict_has d (PStr p) = true).
  { unfold dict_has. apply bool_decide_eq_true. rewrite Hd. eauto. }
  assert (Hnot : py_in contract_title_raw (map contract_title [c]) = false).
  { destruct Htitle as [[Ht Hc]|H]; [apply absent_title_not_among; assumption|exact H]. }
  rewrite Hhas, andb_false_r. cbn [dict_get]. rewrite Hd.
  rewrite Hnot, Hnum. reflexivity.
Qed.

End TitleResolver.

Lemma clean_title_single_contract_witness :
  clean_title (const_repr "1.0") (PStr "Citywide") PNone (PStr "9999") one_contract_index
  = inr (Some true, PStr "Civil works").
Proof.
  apply (clean_title_single_contract (const_repr "1.0") one_contract_index "Citywide"
           {| contract_title := PStr "Civil works"; contract_number := PInt 3665 |}).
  - reflexivity.
  - left. split; reflexivity.
  - reflexivity.
Defined.

(* --------------------------------------------------------------------- *)
(** *** The risk model *)

(** C4. Whatever the field name, an unresolved field adds strictly more to
    the data-quality score than a changed one: the two tables have the same
    keys with a larger weight in the first, and the default of the first
    (5) is above the default of the second (2). *)
Theorem failed_weight_above_modified (field : string) :
  modified_weight field < failed_weight field.
Proof.
  unfold failed_weight, modified_weight, FAILED_WEIGHTS, MODIFIED_WEIGHTS.
  generalize (base_name field). intros b.
  rewrite !lookup_insert, !lookup_empty.
  repeat case_decide; simpl; lia.
Qed.

(** The names [record_issue] writes, as [compute_risk_score] weighs them:
    [capitalize] lower-cases all but the first letter, so of the keys of
    the two tables only [Provider] is ever found. *)
Lemma ledger_names_weighed :
  base_name "InvoiceAmount" = "Invoiceamount"
  /\ FAILED_WEIGHTS !! "InvoiceAmount" = Some 8
  /\ map failed_weight
       ["Provider"; "InvoiceAmount"; "InvoiceDate"; "ContractTitle"; "ContractNumber"]
     = [5; 5; 5; 5; 5]
  /\ map modified_weight
       ["Provider"; "InvoiceAmount"; "InvoiceDate"; "ContractTitle"; "ContractNumber"]
     = [2; 2; 2; 2; 2].
Proof. repeat split; reflexivity. Qed.

Section RiskExample.
Variable to_datetime : cell -> exc (option Z).

(** C2. A record whose ledger holds [InvoiceAmount] as its one unresolved
    field and no changed field, with no registry entry under its key and a
    cleaned amount of 2,000,000: [capitalize] turns the field name into
    [Invoiceamount], which is no key of [FAILED_WEIGHTS], so the field
    weighs the default 5 and not 8; the record scores 5 + 10 + 10 = 25. *)
Theorem risk_of_unresolved_amount
    (r : row) (contract_map : list (key * contract_dict)) (provider title number : pyval) :
  r !! "FailedFields" = Some (CList ["InvoiceAmount"]) ->
  r !! "ModifiedFields" = Some (CList []) ->
  r !! "InvoiceAmount_Clean" = Some (CVal (PFloat (float_of_Z 2000000))) ->
  row_get r "Provider_Clean" = CVal provider ->
  row_get r "ContractTitle_Clean" = CVal title ->
  row_get r "ContractNumber_Clean" = CVal number ->
  map_get contract_map (provider, title, number) = None ->
  compute_risk_score to_datetime r contract_map
  = inr {| RiskScore := 25; DataQualityRisk := 5; ContractRisk := 10; FinancialRisk := 10 |}.
Proof.
  intros Hf Hm Ha Hp Ht Hn Hk. unfold compute_risk_score, fields_of.
  rewrite Hf, Hm, Hp, Ht, Hn. cbn [bind ret key_of]. rewrite Hk.
  unfold row_get. rewrite Ha. reflexivity.
Qed.

End RiskExample.

Lemma risk_of_unresolved_amount_witness :
  compute_risk_score (fun _ => inr None) amount_only_row []
  = inr {| RiskScore := 25; DataQualityRisk := 5; ContractRisk := 10; FinancialRisk := 10 |}.
Proof.
  apply (risk_of_unresolved_amount (fun _ => inr None) amount_only_row [] PNone PNone PNone);
    reflexivity.
Defined.

(* --------------------------------------------------------------------- *)
(** *** The provider normalizer *)

Section Provider.
Variable token_set_ratio : string -> string -> Z.

Local Abbreviation extract := (extractOne token_set_ratio).

(** What [extractOne] returns is a choice, with its score, above the cutoff. *)
Lemma extractOne_sound (q : string) (choices : list string) (m : string) (sc : Z) :
  extract q choices = Some (m, sc) ->
  In m choices /\ sc = token_set_ratio q m /\ 0 <= sc.
Proof.
  revert m sc. induction choices as [|c rest IH]; intros m sc; simpl; [discriminate|].
  destruct (extract q rest) as [[c' sc']|].
  - specialize (IH c' sc' eq_refl). destruct IH as (Hin & Hsc & Hpos).
    destruct (0 <=? token_set_ratio q c) eqn:Hc.
    + destruct (token_set_ratio q c <? sc') eqn:Hlt; intros [= <- <-].
      * auto.
      * repeat split; auto. lia.
    + intros [= <- <-]. auto.
  - destruct (0 <=? token_set_ratio q c) eqn:Hc; [|discriminate].
    intros [= <- <-]. repeat split; auto. lia.
Qed.

(** No choice above the cutoff scores more than the one returned. *)
Lemma extractOne_best (q : string) (choices : list string) (c : string) :
  In c choices -> 0 <= token_set_ratio q c ->
  exists m sc, extract q choices = Some (m, sc) /\ token_set_ratio q c <= sc.
Proof.
  induction choices as [|c0 rest IH]; simpl; [tauto|].
  intros [->|Hin] Hpos.
  - destruct (extract q rest) as [[c' sc']|].
    + replace (0 <=? token_set_ratio q c) with true by lia.
      destruct (token_set_ratio q c <? sc') eqn:Hlt; eexists _, _; split; eauto; lia.
    + replace (0 <=? token_set_ratio q c) with true by lia.
      eexists _, _; split; eauto; lia.
  - destruct (IH Hin Hpos) as (m & sc & -> & Hle).
    destruct (0 <=? token_set_ratio q c0) eqn:Hc0.
    + destruct (token_set_ratio q c0 <? sc) eqn:Hlt; eexists _, _; split; eauto; lia.
    + eexists _, _; split; eauto.
Qed.

(** C10. If every text scores 100 against itself, the second pass never
    flags a provider as unchanged: when the first pass fails at threshold
    80, the flag of the second pass is not [False]; and when the second
    pass accepts a match scoring above 60, that match is not the trimmed
    input, and it is returned flagged as changed. *)
Theorem lenient_pass_never_unchanged
    (original : string) (correct_providers : list string) :
  (forall s, token_set_ratio s s = 100) ->
  strict_pass token_set_ratio original correct_providers 80 = None ->
  fst (lenient_pass token_set_ratio original correct_providers 60) <> Some false
  /\ forall (m : string) (sc : Z),
       extract (normalize_provider original) correct_providers = Some (m, sc) ->
       60 < sc ->
       m <> original
       /\ lenient_pass token_set_ratio original correct_providers 60 = (Some true, PStr m).
Proof.
  intros Hself Hstrict.
  assert (Hne : forall m sc,
             extract (normalize_provider original) correct_providers = Some (m, sc) ->
             m <> original).
  { intros m sc Hbest ->.
    destruct (extractOne_sound _ _ _ _ Hbest) as (Hin & _ & _).
    destruct (extractOne_best original correct_providers original Hin) as (m' & sc' & He & Hle).
    { rewrite Hself. lia. }
    unfold strict_pass in Hstrict. rewrite He in Hstrict. rewrite Hself in Hle.
    replace (80 <=? sc') with true in Hstrict by lia.
    destruct (negb (String.eqb m' original)); discriminate. }
  split.
  - unfold lenient_pass.
    destruct (extract (normalize_provider original) correct_providers) as [[m sc]|] eqn:Hbest;
      [|discriminate].
    destruct (60 <? sc); [|discriminate].
    pose proof (Hne m sc eq_refl) as Hm. apply String.eqb_neq in Hm.
    rewrite Hm. discriminate.
  - intros m sc Hbest Hsc. split; [exact (Hne m sc Hbest)|].
    unfold lenient_pass. rewrite Hbest.
    replace (60 <? sc) with true by lia.
    pose proof (Hne m sc Hbest) as Hm. apply String.eqb_neq in Hm.
    rewrite Hm. reflexivity.
Qed.



End Provider.

Lemma exact_ratio_self (s : string) : exact_ratio s s = 100.
Proof. unfold exact_ratio. rewrite String.eqb_refl. reflexivity. Qed.

Lemma lenient_pass_never_unchanged_witness :
  fst (lenient_pass exact_ratio "VictorianYMCA" ["Citywide"; "Victorian YMCA"] 60)
  <> Some false
  /\ "Victorian YMCA" <> "VictorianYMCA"
  /\ lenient_pass exact_ratio "VictorianYMCA" ["Citywide"; "Victorian YMCA"] 60
     = (Some true, PStr "Victorian YMCA").
Proof.
  destruct (lenient_pass_never_unchanged exact_ratio "VictorianYMCA"
              ["Citywide"; "Victorian YMCA"] exact_ratio_self eq_refl) as [H1 H2].
  split; [exact H1|].
  apply (H2 "Victorian YMCA" 100); [reflexivity|lia].
Defined.



(* --------------------------------------------------------------------- *)
(** *** Facts about characters and strings *)

Ltac each_ascii c := destruct c as [[] [] [] [] [] [] [] []].

Lemma digit_or_dot_not_space c : digit_or_dot c = true -> is_space c = false.
Proof. each_ascii c; vm_compute; congruence. Qed.

Lemma digit_or_dot_lower c : digit_or_dot (lower_char c) = digit_or_dot c.
Proof. each_ascii c; reflexivity. Qed.

Lemma digit_or_dot_lower_id c : digit_or_dot c = true -> lower_char c = c.
Proof. each_ascii c; vm_compute; congruence. Qed.

Lemma digit_or_dot_not_m c : digit_or_dot c = true -> Ascii.eqb "m" c = false.
Proof. each_ascii c; vm_compute; congruence. Qed.

Lemma space_not_m c : is_space c = true -> Ascii.eqb "m" (lower_char c) = false.
Proof. each_ascii c; vm_compute; congruence. Qed.

Lemma space_lower c : is_space (lower_char c) = is_space c.
Proof. each_ascii c; reflexivity. Qed.

Section StringFacts.
Variable p : ascii -> bool.

Lemma sfilter_lstrip s :
  (forall c, is_space c = true -> p c = false) -> sfilter p (lstrip s) = sfilter p s.
Proof.
  intros Hp. induction s as [|c r IH]; simpl; [reflexivity|].
  destruct (is_space c) eqn:Hc; [|reflexivity].
  rewrite (Hp c Hc). exact IH.
Qed.

Lemma sfilter_rstrip s :
  (forall c, is_space c = true -> p c = false) -> sfilter p (rstrip s) = sfilter p s.
Proof.
  intros Hp. induction s as [|c r IH]; simpl; [reflexivity|].
  destruct (rstrip r) as [|c' r'] eqn:Hr.
  - simpl in IH. rewrite <- IH.
    destruct (is_space c) eqn:Hc; simpl; [rewrite (Hp c Hc)|]; reflexivity.
  - change (sfilter p (String c (String c' r')))
      with (if p c then String c (sfilter p (String c' r')) else sfilter p (String c' r')).
    rewrite IH. reflexivity.
Qed.

Lemma sfilter_strip s :
  (forall c, is_space c = true -> p c = false) -> sfilter p (strip s) = sfilter p s.
Proof.
  intros Hp. unfold strip. rewrite sfilter_rstrip, sfilter_lstrip; auto.
Qed.

Lemma sexists_lstrip s :
  (forall c, is_space c = true -> p c = false) -> sexists p (lstrip s) = sexists p s.
Proof.
  intros Hp. induction s as [|c r IH]; simpl; [reflexivity|].
  destruct (is_space c) eqn:Hc; [|reflexivity].
  rewrite (Hp c Hc). exact IH.
Qed.

Lemma sexists_rstrip s :
  (forall c, is_space c = true -> p c = false) -> sexists p (rstrip s) = sexists p s.
Proof.
  intros Hp. induction s as [|c r IH]; simpl; [reflexivity|].
  destruct (rstrip r) as [|c' r'] eqn:Hr.
  - simpl in IH. rewrite <- IH.
    destruct (is_space c) eqn:Hc; simpl; [rewrite (Hp c Hc)|rewrite orb_false_r]; reflexivity.
  - change (sexists p (String c (String c' r')))
      with (p c || sexists p (String c' r')).
    rewrite IH. reflexivity.
Qed.

Lemma sexists_strip s :
  (forall c, is_space c = true -> p c = false) -> sexists p (strip s) = sexists p s.
Proof.
  intros Hp. unfold strip. rewrite sexists_rstrip, sexists_lstrip; auto.
Qed.

Lemma sfilter_sfilter (q : ascii -> bool) s :
  (forall c, p c = true -> q c = true) -> sfilter p (sfilter q s) = sfilter p s.
Proof.
  intros Hpq. induction s as [|c r IH]; simpl; [reflexivity|].
  destruct (q c) eqn:Hq; simpl.
  - rewrite IH. reflexivity.
  - destruct (p c) eqn:Hpc; [|exact IH].
    rewrite (Hpq c Hpc) in Hq. discriminate.
Qed.

Lemma sfilter_smap (f : ascii -> ascii) s :
  (forall c, p (f c) = p c) -> (forall c, p c = true -> f c = c) ->
  sfilter p (smap f s) = sfilter p s.
Proof.
  intros H1 H2. induction s as [|c r IH]; simpl; [reflexivity|].
  rewrite H1. destruct (p c) eqn:Hpc; rewrite IH; [rewrite (H2 c Hpc)|]; reflexivity.
Qed.

Lemma sexists_smap (f : ascii -> ascii) s :
  sexists p (smap f s) = sexists (fun c => p (f c)) s.
Proof. induction s as [|c r IH]; simpl; [reflexivity|]. rewrite IH. reflexivity. Qed.

Lemma sfilter_id s : sforall p s = true -> sfilter p s = s.
Proof.
  induction s as [|c r IH]; simpl; [reflexivity|].
  intros [Hc Hr]%andb_true_iff. rewrite Hc, IH; auto.
Qed.

Lemma sexists_none (q : ascii -> bool) s :
  (forall c, p c = true -> q c = false) -> sforall p s = true -> sexists q s = false.
Proof.
  intros Hpq. induction s as [|c r IH]; simpl; [reflexivity|].
  intros [Hc Hr]%andb_true_iff. rewrite (Hpq c Hc), IH; auto.
Qed.

Lemma smap_id (f : ascii -> ascii) s :
  (forall c, p c = true -> f c = c) -> sforall p s = true -> smap f s = s.
Proof.
  intros Hf. induction s as [|c r IH]; simpl; [reflexivity|].
  intros [Hc Hr]%andb_true_iff. rewrite (Hf c Hc), IH; auto.
Qed.

Lemma lstrip_id s :
  (forall c, p c = true -> is_space c = false) -> sforall p s = true -> lstrip s = s.
Proof.
  intros Hp. destruct s as [|c r]; simpl; [reflexivity|].
  intros [Hc Hr]%andb_true_iff. rewrite (Hp c Hc). reflexivity.
Qed.

Lemma rstrip_id s :
  (forall c, p c = true -> is_space c = false) -> sforall p s = true -> rstrip s = s.
Proof.
  intros Hp. induction s as [|c r IH]; simpl; [reflexivity|].
  intros [Hc Hr]%andb_true_iff. rewrite (IH Hr), (Hp c Hc).
  destruct r; reflexivity.
Qed.

Lemma strip_id s :
  (forall c, p c = true -> is_space c = false) -> sforall p s = true -> strip s = s.
Proof.
  intros Hp Hs. unfold strip. rewrite (lstrip_id s Hp Hs). apply rstrip_id; auto.
Qed.

End StringFacts.

(** Deleting the alternatives [m|mil|million] deletes the letters [m]: the
    first branch matches wherever one of the others would. *)
Lemma re_delete_millions s :
  re_delete ["m"; "mil"; "million"] s = sfilter (fun c => negb (Ascii.eqb "m" c)) s.
Proof.
  unfold re_delete. induction s as [|c r IH]; [reflexivity|].
  cbn [re_delete_go first_alt starts_with sfilter].
  destruct (Ascii.eqb "m" c) eqn:Hc; cbn [andb negb].
  - destruct r; exact IH.
  - rewrite IH. reflexivity.
Qed.

(** What [clean_invoice_amount] hands to [float] on the millions branch is
    the digits and dots of the input. *)
Lemma millions_remainder s :
  digits_and_dots (strip (re_delete ["m"; "mil"; "million"] (strip (lower (strip s)))))
  = digits_and_dots s.
Proof.
  unfold digits_and_dots. fold digit_or_dot.
  change (fun c => is_digit c || Ascii.eqb c ".") with digit_or_dot.
  assert (Hsp : forall c, is_space c = true -> digit_or_dot c = false).
  { intros c Hc. destruct (digit_or_dot c) eqn:Hd; [|reflexivity].
    rewrite (digit_or_dot_not_space c Hd) in Hc. discriminate. }
  rewrite sfilter_strip by exact Hsp.
  rewrite re_delete_millions.
  rewrite (sfilter_sfilter digit_or_dot).
  2:{ intros c Hd. rewrite (digit_or_dot_not_m c Hd). reflexivity. }
  rewrite sfilter_strip by exact Hsp.
  unfold lower. rewrite sfilter_smap.
  - apply sfilter_strip, Hsp.
  - exact digit_or_dot_lower.
  - exact digit_or_dot_lower_id.
Qed.

(** The test for a millions marker sees the letter [m] in either case,
    anywhere in the input. *)
Lemma millions_marker s :
  contains_char "m" (strip (lower (strip s))) = contains_char "m" (lower s).
Proof.
  unfold contains_char.
  rewrite sexists_strip.
  2:{ intros c Hc. rewrite <- (space_not_m c Hc).
      each_ascii c; try discriminate Hc; reflexivity. }
  unfold lower. rewrite !sexists_smap.
  apply sexists_strip. exact space_not_m.
Qed.

(* --------------------------------------------------------------------- *)
(** *** The amount normalizer *)

Section Amount.
Variable float_repr : float -> string.

Local Abbreviation str := (py_str float_repr).

Lemma str_of_text (amount : pyval) :
  py_str float_repr (if is_str amount then amount else PStr (py_str float_repr amount))
  = py_str float_repr amount.
Proof. destruct amount; reflexivity. Qed.

(** C6. The amount ["1.2m"] is cleaned to the float 1200000.0, flagged as
    changed.  In general, for an amount that is present and whose text
    holds the letter [m] (in either case) -- as the markers [m], [mil] and
    [million] do -- if the digits and dots of the text read as a decimal
    [d], the cleaned value is the float product of [d] and the unit
    1,000,000, flagged as changed. *)
Theorem clean_invoice_amount_millions :
  clean_invoice_amount float_repr (PStr "1.2m") = (Some true, PFloat (float_of_Z 1200000))
  /\ forall (amount : pyval) (d : float),
       isna amount = false ->
       contains_char "m" (lower (str amount)) = true ->
       float_of_string (digits_and_dots (str amount)) = Some d ->
       clean_invoice_amount float_repr amount
       = (Some true, PFloat (fmul d (float_of_Z DEFAULT_UNIT))).
Proof.
  split; [reflexivity|].
  intros amount d Hna Hm Hd. unfold clean_invoice_amount.
  change (match amount with PNone => true | PFloat f => is_nan f | _ => false end)
    with (isna amount).
  rewrite Hna, str_of_text.
  rewrite millions_marker, Hm, millions_remainder, Hd. reflexivity.
Qed.

End Amount.

Lemma clean_invoice_amount_millions_witness :
  clean_invoice_amount (const_repr "0.0") (PStr " 2.5 Million AUD")
  = (Some true, PFloat (float_of_Z 2500000)).
Proof.
  apply (proj2 (clean_invoice_amount_millions (const_repr "0.0"))
           (PStr " 2.5 Million AUD") (S754_finite false 5629499534213120 (-51)));
    reflexivity.
Defined.

Lemma digit_or_dot_cases c : digit_or_dot c = true -> c = "."%char \/ is_digit c = true.
Proof.
  unfold digit_or_dot. destruct (is_digit c); [auto|].
  simpl. intros H%Ascii.eqb_eq. auto.
Qed.

Lemma is_digit_not_dot c : is_digit c = true -> Ascii.eqb "." c = false.
Proof. each_ascii c; vm_compute; congruence. Qed.

Lemma is_digit_not_underscore c : is_digit c = true -> Ascii.eqb c "_" = false.
Proof. each_ascii c; vm_compute; congruence. Qed.

(** On digits and dots, [digits_more] reads up to the end or to a dot. *)
Lemma digits_more_plain s : forall acc n,
  sforall digit_or_dot s = true ->
  exists acc' n' rest,
    digits_more acc n s = (acc', n', rest)
    /\ (rest = EmptyString \/ exists r, rest = String "." r)
    /\ sforall digit_or_dot rest = true
    /\ scount (Ascii.eqb ".") rest = scount (Ascii.eqb ".") s.
Proof.
  induction s as [|c r IH]; intros acc n Hs.
  - exists acc, n, EmptyString. simpl. auto.
  - simpl in Hs. apply andb_true_iff in Hs as [Hc Hr].
    destruct (digit_or_dot_cases c Hc) as [->|Hd].
    + exists acc, n, (String "." r). simpl. rewrite Hr. eauto 6.
    + destruct (IH (acc * 10 + digit_val c) (S n) Hr) as (acc' & n' & rest & He & Hshape & Hall & Hcount).
      exists acc', n', rest. cbn [digits_more]. rewrite Hd.
      cbn [scount]. rewrite (is_digit_not_dot c Hd). auto.
Qed.

Lemma no_dot_rest (rest : string) :
  (rest = EmptyString \/ exists r, rest = String "." r) ->
  scount (Ascii.eqb ".") rest = 0%nat -> rest = EmptyString.
Proof. intros [->|[r ->]]; [reflexivity|discriminate]. Qed.

Lemma parse_number_plain s :
  plain_decimal s = true ->
  exists m k, parse_number s = Some (m, k, EmptyString).
Proof.
  unfold plain_decimal. intros [[Hall Hdots%Nat.leb_le]%andb_true_iff Hdig]%andb_true_iff.
  destruct s as [|c r]; [discriminate|].
  simpl in Hall. apply andb_true_iff in Hall as [Hc Hr].
  destruct (digit_or_dot_cases c Hc) as [->|Hd].
  - (* ".ddd" *)
    simpl in Hdots, Hdig. unfold parse_number. cbn [digitpart is_digit].
    change (is_digit ".") with false. cbv iota.
    destruct r as [|c2 r2]; [discriminate|].
    simpl in Hr. apply andb_true_iff in Hr as [Hc2 Hr2].
    destruct (digit_or_dot_cases c2 Hc2) as [->|Hd2]; [simpl in Hdots; lia|].
    cbn [digitpart]. rewrite Hd2.
    destruct (digits_more_plain r2 (0 * 10 + digit_val c2) 1 Hr2)
      as (acc' & n' & rest & -> & Hshape & _ & Hcount).
    cbn [scount] in Hdots. rewrite (is_digit_not_dot c2 Hd2) in Hdots.
    rewrite (no_dot_rest rest Hshape) by lia. eauto.
  - (* "ddd" or "ddd." or "ddd.ddd" *)
    unfold parse_number. cbn [digitpart]. rewrite Hd.
    destruct (digits_more_plain r (0 * 10 + digit_val c) 1 Hr)
      as (acc' & n' & rest & -> & Hshape & Hall & Hcount).
    cbn [scount] in Hdots. rewrite (is_digit_not_dot c Hd) in Hdots.
    destruct Hshape as [->|[r' ->]]; [eauto|].
    cbn [scount] in Hcount. simpl in Hall.
    destruct r' as [|c2 r2]; [cbn [digitpart]; eauto|].
    simpl in Hall. apply andb_true_iff in Hall as [Hc2 Hr2].
    destruct (digit_or_dot_cases c2 Hc2) as [->|Hd2]; [simpl in Hcount; simpl in Hdots; lia|].
    cbn [digitpart]. rewrite Hd2.
    destruct (digits_more_plain r2 (acc' * 10 + digit_val c2) 1 Hr2)
      as (acc2 & n2 & rest2 & -> & Hshape2 & _ & Hcount2).
    cbn [scount] in Hcount. rewrite (is_digit_not_dot c2 Hd2) in Hcount.
    simpl in Hcount, Hdots.
    rewrite (no_dot_rest rest2 Hshape2) by lia. eauto.
Qed.

Lemma plain_head c r :
  digit_or_dot c = true ->
  parse_sign (String c r) = (false, String c r)
  /\ String.eqb (lower (String c r)) "inf" = false
  /\ String.eqb (lower (String c r)) "infinity" = false
  /\ String.eqb (lower (String c r)) "nan" = false.
Proof.
  intros Hc. each_ascii c; try discriminate Hc; repeat split; reflexivity.
Qed.

(** [float] reads every plain decimal. *)
Lemma digit_or_dot_not_c_space c : digit_or_dot c = true -> is_c_space c = false.
Proof. each_ascii c; vm_compute; congruence. Qed.

(** [float] has nothing to skip around digits and points. *)
Lemma float_strip_id s :
  sforall digit_or_dot s = true -> float_rstrip (float_lstrip s) = s.
Proof.
  intros Hs.
  assert (Hl : float_lstrip s = s).
  { destruct s as [|c r]; [reflexivity|]. cbn [sforall] in Hs.
    apply andb_true_iff in Hs as [Hc _]. cbn [float_lstrip].
    rewrite (digit_or_dot_not_c_space c Hc). reflexivity. }
  rewrite Hl. induction s as [|c r IH]; [reflexivity|].
  cbn [sforall] in Hs. apply andb_true_iff in Hs as [Hc Hr].
  cbn [float_rstrip]. rewrite IH; [|exact Hr|].
  - destruct r; [rewrite (digit_or_dot_not_c_space c Hc)|]; reflexivity.
  - destruct r as [|c' r']; [reflexivity|]. cbn [sforall] in Hr.
    apply andb_true_iff in Hr as [Hc' _]. cbn [float_lstrip].
    rewrite (digit_or_dot_not_c_space c' Hc'). reflexivity.
Qed.

Lemma float_of_string_plain s :
  plain_decimal s = true -> exists v, float_of_string s = Some v.
Proof.
  intros Hs. destruct (parse_number_plain s Hs) as (m & k & Hp).
  unfold plain_decimal in Hs.
  apply andb_true_iff in Hs as [[Hall _]%andb_true_iff Hdig].
  unfold float_of_string.
  rewrite (float_strip_id s Hall).
  destruct s as [|c r]; [discriminate|].
  simpl in Hall. apply andb_true_iff in Hall as [Hc _].
  destruct (plain_head c r Hc) as (-> & -> & -> & ->).
  cbn [orb]. rewrite Hp. cbn [parse_exponent]. eauto.
Qed.

Section AmountIdempotence.
Variable float_repr : float -> string.

(** The amount half of the idempotence: an amount that is present and whose text is a
    plain decimal is read by [float] and returned flagged as unchanged,
    with the float its text denotes as the value. *)
Lemma clean_invoice_amount_plain (amount : pyval) :
  isna amount = false ->
  plain_decimal (py_str float_repr amount) = true ->
  exists v, float_of_string (py_str float_repr amount) = Some v
            /\ clean_invoice_amount float_repr amount = (Some false, PFloat v).
Proof.
  intros Hna Hs. destruct (float_of_string_plain _ Hs) as [v Hv].
  exists v. split; [exact Hv|].
  unfold clean_invoice_amount.
  change (match amount with PNone => true | PFloat f => is_nan f | _ => false end)
    with (isna amount).
  rewrite Hna, str_of_text.
  set (s := py_str float_repr amount) in *.
  unfold plain_decimal in Hs.
  apply andb_true_iff in Hs as [[Hall Hdots]%andb_true_iff Hdig].
  rewrite (strip_id digit_or_dot s digit_or_dot_not_space Hall).
  assert (Hlow : lower s = s)
    by (apply (smap_id digit_or_dot); [exact digit_or_dot_lower_id|exact Hall]).
  rewrite Hlow, (strip_id digit_or_dot s digit_or_dot_not_space Hall).
  unfold contains_char.
  rewrite (sexists_none digit_or_dot (Ascii.eqb "m") s digit_or_dot_not_m Hall).
  unfold digits_and_dots. change (fun c => is_digit c || Ascii.eqb c ".") with digit_or_dot.
  rewrite (sfilter_id digit_or_dot s Hall).
  replace (1 <? scount (Ascii.eqb ".") s)%nat with false.
  2:{ symmetry. apply Nat.ltb_ge. apply Nat.leb_le. exact Hdots. }
  rewrite Hv, String.eqb_refl. reflexivity.
Qed.

End AmountIdempotence.

(* --------------------------------------------------------------------- *)
(** *** The date normalizer *)

Lemma digit_char_spec k :
  0 <= k <= 9 ->
  is_digit (digit_char k) = true /\ digit_val (digit_char k) = k
  /\ is_space (digit_char k) = false.
Proof.
  intros Hk.
  assert (H : k = 0 \/ k = 1 \/ k = 2 \/ k = 3 \/ k = 4 \/ k = 5 \/ k = 6 \/ k = 7
              \/ k = 8 \/ k = 9) by lia.
  repeat (destruct H as [->|H]; [repeat split; reflexivity|]).
  subst k. repeat split; reflexivity.
Qed.

Lemma append_cons c (s r : string) : String c s ++ r = String c (s ++ r).
Proof. reflexivity. Qed.

Lemma append_nil (r : string) : "" ++ r = r.
Proof. reflexivity. Qed.

Lemma mod10_range z : 0 <= z mod 10 <= 9.
Proof. pose proof (Z.mod_pos_bound z 10 ltac:(lia)). lia. Qed.

Lemma pad4_value y :
  0 <= y <= 9999 ->
  (((0 * 10 + y / 1000 mod 10) * 10 + y / 100 mod 10) * 10 + y / 10 mod 10) * 10 + y mod 10 = y.
Proof. intros Hy. Z.to_euclidean_division_equations. lia. Qed.

(** The year directive reads the four digits [strftime] writes. *)
Lemma match_year (y : Z) (ts : list token) (rest : string) (p : date) :
  0 <= y <= 9999 ->
  match_tokens (Dir DirY :: ts) (pad4 y ++ rest) p = match_tokens ts rest (set_year y p).
Proof.
  intros Hy.
  destruct (digit_char_spec (y / 1000 mod 10) (mod10_range _)) as (D1 & V1 & S1).
  destruct (digit_char_spec (y / 100 mod 10) (mod10_range _)) as (D2 & V2 & _).
  destruct (digit_char_spec (y / 10 mod 10) (mod10_range _)) as (D3 & V3 & _).
  destruct (digit_char_spec (y mod 10) (mod10_range _)) as (D4 & V4 & _).
  unfold pad4, pad2. rewrite !append_cons, append_nil.
  cbn [match_tokens match_token re_Y match_alts match_branch].
  rewrite D1, D2, D3, D4. cbn [map flat_map].
  unfold int_of_text. cbn [lstrip]. rewrite S1. cbn [digits_more].
  rewrite D1, D2, D3, D4, V1, V2, V3, V4. cbn [fst].
  rewrite (pad4_value y Hy). apply app_nil_r.
Qed.

(** After the year, the month and day that [strftime] writes are the first
    match of the rest of the ISO pattern. *)
Lemma match_month_day (m d : Z) (p : date) :
  1 <= m <= 12 -> 1 <= d <= 31 ->
  hd_error (match_tokens [Lit "-"; Dir Dir_m; Lit "-"; Dir Dir_d]
              ("-" ++ pad2 m ++ "-" ++ pad2 d) p)
  = Some (set_day d (set_month m p), EmptyString).
Proof.
  intros Hm Hd.
  assert (Em : m = 1 \/ m = 2 \/ m = 3 \/ m = 4 \/ m = 5 \/ m = 6 \/ m = 7 \/ m = 8
               \/ m = 9 \/ m = 10 \/ m = 11 \/ m = 12) by lia.
  assert (Ed : d = 1 \/ d = 2 \/ d = 3 \/ d = 4 \/ d = 5 \/ d = 6 \/ d = 7 \/ d = 8
               \/ d = 9 \/ d = 10 \/ d = 11 \/ d = 12 \/ d = 13 \/ d = 14 \/ d = 15
               \/ d = 16 \/ d = 17 \/ d = 18 \/ d = 19 \/ d = 20 \/ d = 21 \/ d = 22
               \/ d = 23 \/ d = 24 \/ d = 25 \/ d = 26 \/ d = 27 \/ d = 28 \/ d = 29
               \/ d = 30 \/ d = 31) by lia.
  clear Hm Hd.
  repeat (destruct Em as [->|Em]);
    try subst m; repeat (destruct Ed as [->|Ed]); try subst d; reflexivity.
Qed.

Lemma days_in_month_le y m : days_in_month y m <= 31.
Proof.
  unfold days_in_month.
  destruct (m =? 2); [destruct (is_leap y); lia|].
  destruct ((m =? 4) || (m =? 6) || (m =? 9) || (m =? 11)); lia.
Qed.

Lemma valid_date_bounds (d : date) :
  valid_date d = true ->
  1 <= year d <= 9999 /\ 1 <= month d <= 12 /\ 1 <= day d <= 31.
Proof.
  unfold valid_date. intros H.
  repeat (apply andb_true_iff in H as [H ?]).
  pose proof (days_in_month_le (year d) (month d)). lia.
Qed.

(** [strptime] reads, under the ISO format, the text [YYYY-MM-DD] of a date. *)
Lemma strptime_iso_text (d : date) :
  valid_date d = true -> strptime (iso_text d) "%Y-%m-%d" = Some d.
Proof.
  intros Hv. destruct (valid_date_bounds d Hv) as (Hy & Hm & Hd).
  unfold strptime.
  change (parse_format "%Y-%m-%d")
    with (Some [Dir DirY; Lit "-"; Dir Dir_m; Lit "-"; Dir Dir_d]).
  cbv iota. unfold iso_text. rewrite match_year by lia.
  pose proof (match_month_day (month d) (day d) (set_year (year d) date0) Hm Hd) as H.
  destruct (match_tokens _ _ _) as [|[p' rest'] tl]; [discriminate|].
  injection H as -> ->.
  replace (set_day (day d) (set_month (month d) (set_year (year d) date0))) with d
    by (destruct d; reflexivity).
  rewrite Hv. reflexivity.
Qed.

Lemma digit_or_dash_not_space c : digit_or_dash c = true -> is_space c = false.
Proof. each_ascii c; vm_compute; congruence. Qed.

Lemma digit_or_dash_keep (a : ascii) (b : string) s :
  digit_or_dash a = false -> sforall digit_or_dash s = true -> replace_char a b s = s.
Proof.
  intros Ha. induction s as [|c r IH]; simpl; [reflexivity|].
  intros [Hc Hr]%andb_true_iff.
  destruct (Ascii.eqb c a) eqn:E.
  - apply Ascii.eqb_eq in E. subst c. congruence.
  - rewrite IH; auto.
Qed.

Lemma iso_text_chars (d : date) :
  valid_date d = true -> sforall digit_or_dash (iso_text d) = true.
Proof.
  intros Hv. destruct (valid_date_bounds d Hv) as (Hy & Hm & Hd).
  unfold iso_text, pad4, pad2.
  repeat (rewrite ?append_cons, ?append_nil). cbn [sforall].
  assert (Hdig : forall k, 0 <= k <= 9 -> digit_or_dash (digit_char k) = true).
  { intros k Hk. unfold digit_or_dash.
    destruct (digit_char_spec k Hk) as (-> & _). reflexivity. }
  rewrite !Hdig by apply mod10_range. reflexivity.
Qed.

Lemma digit_char_val c :
  is_digit c = true -> digit_char (digit_val c) = c /\ 0 <= digit_val c <= 9.
Proof.
  each_ascii c; intros H; vm_compute in H; try discriminate H;
    (split; [reflexivity|vm_compute; split; discriminate]).
Qed.

Lemma digits4 a b c d :
  0 <= a <= 9 -> 0 <= b <= 9 -> 0 <= c <= 9 -> 0 <= d <= 9 ->
  (1000 * a + 100 * b + 10 * c + d) / 1000 mod 10 = a
  /\ (1000 * a + 100 * b + 10 * c + d) / 100 mod 10 = b
  /\ (1000 * a + 100 * b + 10 * c + d) / 10 mod 10 = c
  /\ (1000 * a + 100 * b + 10 * c + d) mod 10 = d.
Proof. intros. Z.to_euclidean_division_equations. lia. Qed.

Lemma digits2 a b :
  0 <= a <= 9 -> 0 <= b <= 9 ->
  (10 * a + b) / 10 mod 10 = a /\ (10 * a + b) mod 10 = b.
Proof. intros. Z.to_euclidean_division_equations. lia. Qed.

(** A text of the form [YYYY-MM-DD] is the four-digit text of its date. *)
Lemma iso_date_text_spec (s : string) (d : date) :
  iso_date_text s = Some d -> valid_date d = true /\ iso_text d = s.
Proof.
  unfold iso_date_text.
  destruct s as [|y1 [|y2 [|y3 [|y4 [|s1 [|m1 [|m2 [|s2 [|d1 [|d2 [|]]]]]]]]]]];
    try discriminate.
  destruct (forallb is_digit _ && Ascii.eqb s1 "-" && Ascii.eqb s2 "-") eqn:E;
    [|discriminate].
  apply andb_true_iff in E as [[Hdig Hs1%Ascii.eqb_eq]%andb_true_iff Hs2%Ascii.eqb_eq].
  subst s1 s2. cbn [forallb] in Hdig.
  repeat (apply andb_true_iff in Hdig as [? Hdig]).
  destruct (valid_date _) eqn:Hv; [|discriminate].
  intros [= <-]. split; [exact Hv|].
  destruct (digit_char_val y1) as [E1 R1]; [assumption|].
  destruct (digit_char_val y2) as [E2 R2]; [assumption|].
  destruct (digit_char_val y3) as [E3 R3]; [assumption|].
  destruct (digit_char_val y4) as [E4 R4]; [assumption|].
  destruct (digit_char_val m1) as [E5 R5]; [assumption|].
  destruct (digit_char_val m2) as [E6 R6]; [assumption|].
  destruct (digit_char_val d1) as [E7 R7]; [assumption|].
  destruct (digit_char_val d2) as [E8 R8]; [assumption|].
  unfold iso_text, pad4, pad2. cbn [year month day].
  destruct (digits4 _ _ _ _ R1 R2 R3 R4) as (-> & -> & -> & ->).
  destruct (digits2 _ _ R5 R6) as (-> & ->).
  destruct (digits2 _ _ R7 R8) as (-> & ->).
  rewrite E1, E2, E3, E4, E5, E6, E7, E8. reflexivity.
Qed.

(** What [strftime] writes for the year: digits only; the four digits of
    a year from 1000 on, fewer than four for an earlier year. *)
Lemma year_text_all :
  forallb (fun n => let y := Z.of_nat n in
                    sforall is_digit (str_of_Z y)
                    && (if 1000 <=? y then String.eqb (str_of_Z y) (pad4 y)
                        else (String.length (str_of_Z y) <? 4)%nat))
          (seq 1 (Z.to_nat 9999)) = true.
Proof. vm_compute. reflexivity. Qed.

Lemma year_text_spec y :
  1 <= y <= 9999 ->
  sforall is_digit (str_of_Z y) = true
  /\ (1000 <= y -> str_of_Z y = pad4 y)
  /\ (y < 1000 -> (String.length (str_of_Z y) < 4)%nat).
Proof.
  intros Hy. pose proof year_text_all as H.
  rewrite forallb_forall in H. specialize (H (Z.to_nat y)).
  rewrite Z2Nat.id in H by lia. cbv zeta in H.
  destruct (andb_prop _ _ (H ltac:(apply in_seq; lia))) as [Hd Hc].
  split; [exact Hd|]. split.
  - intros Hlong. replace (1000 <=? y) with true in Hc by lia.
    apply String.eqb_eq. exact Hc.
  - intros Hshort. replace (1000 <=? y) with false in Hc by lia.
    apply Nat.ltb_lt. exact Hc.
Qed.

(** From the year 1000 on [strftime] writes the text [YYYY-MM-DD]. *)
Lemma strftime_iso_long (d : date) :
  valid_date d = true -> 1000 <= year d -> strftime_iso d = iso_text d.
Proof.
  intros Hv Hlong. destruct (valid_date_bounds d Hv) as (Hy & _).
  destruct (year_text_spec (year d) Hy) as (_ & Heq & _).
  unfold strftime_iso, iso_text. rewrite (Heq Hlong). reflexivity.
Qed.

Lemma length_append (a b : string) :
  String.length (a ++ b) = (String.length a + String.length b)%nat.
Proof. induction a as [|c a IH]; [reflexivity|]. rewrite append_cons. cbn. rewrite IH. reflexivity. Qed.

(** Before the year 1000 it writes fewer than ten characters. *)
Lemma strftime_iso_short (d : date) :
  valid_date d = true -> year d < 1000 -> (String.length (strftime_iso d) < 10)%nat.
Proof.
  intros Hv Hshort. destruct (valid_date_bounds d Hv) as (Hy & _).
  destruct (year_text_spec (year d) Hy) as (_ & _ & Hlen).
  unfold strftime_iso. rewrite !length_append. unfold pad2. cbn [String.length].
  specialize (Hlen Hshort). lia.
Qed.

Lemma iso_text_length (d : date) : String.length (iso_text d) = 10%nat.
Proof. reflexivity. Qed.

(** [strftime] writes digits and dashes. *)
Lemma strftime_iso_chars (d : date) :
  valid_date d = true -> sforall digit_or_dash (strftime_iso d) = true.
Proof.
  intros Hv. destruct (valid_date_bounds d Hv) as (Hy & Hm & Hd).
  destruct (year_text_spec (year d) Hy) as (Hdig & _).
  assert (Hweak : forall t, sforall is_digit t = true -> sforall digit_or_dash t = true).
  { induction t as [|c t IH]; [reflexivity|]. cbn [sforall].
    intros [Hc Ht]%andb_true_iff. unfold digit_or_dash at 1. rewrite Hc, (IH Ht). reflexivity. }
  assert (Happ : forall a b, sforall digit_or_dash a = true -> sforall digit_or_dash b = true ->
                             sforall digit_or_dash (a ++ b) = true).
  { induction a as [|c a IH]; intros b Ha Hb; [exact Hb|].
    rewrite append_cons. cbn [sforall] in *. apply andb_true_iff in Ha as [Hc Ha].
    rewrite Hc, (IH b Ha Hb). reflexivity. }
  assert (Hpad : forall n, sforall digit_or_dash (pad2 n) = true).
  { intros n. apply Hweak. unfold pad2. cbn [sforall].
    destruct (digit_char_spec (n / 10 mod 10) (mod10_range _)) as (-> & _).
    destruct (digit_char_spec (n mod 10) (mod10_range _)) as (-> & _). reflexivity. }
  unfold strftime_iso. repeat apply Happ; auto.
Qed.

(** How [clean_date] treats the text [YYYY-MM-DD] of a date: the first
    format reads it, and the flag tells whether [strftime] writes the same
    text back. *)
Lemma clean_date_iso_text (d : date) :
  valid_date d = true ->
  clean_date (PStr (iso_text d))
  = if String.eqb (strftime_iso d) (iso_text d)
    then (Some false, PStr (iso_text d))
    else (Some true, PStr (strftime_iso d)).
Proof.
  intros Hv. pose proof (iso_text_chars d Hv) as Hc.
  unfold clean_date.
  rewrite (strip_id digit_or_dash _ digit_or_dash_not_space Hc).
  replace (String.eqb (iso_text d) "") with false
    by (unfold iso_text, pad4; reflexivity).
  rewrite (digit_or_dash_keep "," "" _ eq_refl Hc).
  rewrite (digit_or_dash_keep "/" "-" _ eq_refl Hc).
  rewrite (digit_or_dash_keep " " "-" _ eq_refl Hc).
  cbn [formats try_formats].
  rewrite (strptime_iso_text d Hv).
  destruct (String.eqb (strftime_iso d) (iso_text d)); reflexivity.
Qed.

(** The date half of the idempotence: from the year 1000 on, the ISO text
    of a date is returned as it is, flagged as unchanged. *)
Lemma clean_date_iso (d : date) :
  valid_date d = true -> 1000 <= year d ->
  clean_date (PStr (iso_text d)) = (Some false, PStr (iso_text d)).
Proof.
  intros Hv Hlong. rewrite (clean_date_iso_text d Hv), (strftime_iso_long d Hv Hlong).
  rewrite String.eqb_refl. reflexivity.
Qed.

(* --------------------------------------------------------------------- *)
(** *** Idempotence on clean values, and unresolved outcomes *)

Section Outcomes.
Variable float_repr : float -> string.
Variable token_set_ratio : string -> string -> Z.

Local Abbreviation str := (py_str float_repr).

(** X19. From the year 1000 on, and for plain amounts, the date and
    amount normalizers leave clean values alone.  A text that is a valid
    ISO date [YYYY-MM-DD] of such a year comes back from [clean_date] as it
    is, flagged as unchanged, and so does whatever [strftime] writes for
    such a date.  An amount that is present and whose text is
    a plain decimal (digits, at most one point, at least one digit) comes
    back from [clean_invoice_amount] flagged as unchanged, its value the
    float that text denotes: for a float that reads back from its own text,
    the float itself. *)
Theorem normalizers_idempotent :
  (forall (s : string) (d : date),
      iso_date_text s = Some d -> 1000 <= year d ->
      clean_date (PStr s) = (Some false, PStr s))
  /\ (forall d : date,
         valid_date d = true -> 1000 <= year d ->
         clean_date (PStr (strftime_iso d)) = (Some false, PStr (strftime_iso d)))
  /\ (forall amount : pyval,
         isna amount = false ->
         plain_decimal (str amount) = true ->
         exists v, float_of_string (str amount) = Some v
                   /\ clean_invoice_amount float_repr amount = (Some false, PFloat v))
  /\ (forall x : float,
         is_nan x = false ->
         plain_decimal (float_repr x) = true ->
         float_of_string (float_repr x) = Some x ->
         clean_invoice_amount float_repr (PFloat x) = (Some false, PFloat x)).
Proof.
  split.
  { intros s d Hd Hlong.
    destruct (iso_date_text_spec s d Hd) as [Hv <-].
    exact (clean_date_iso d Hv Hlong). }
  split.
  { intros d Hv Hlong. rewrite (strftime_iso_long d Hv Hlong).
    exact (clean_date_iso d Hv Hlong). }
  split.
  - exact (clean_invoice_amount_plain float_repr).
  - intros x Hx Hp Hr.
    destruct (clean_invoice_amount_plain float_repr (PFloat x) Hx Hp) as (v & Hv & ->).
    cbn [py_str] in Hv. congruence.
Qed.

End Outcomes.

Lemma normalizers_idempotent_witness :
  clean_date (PStr "2025-01-01") = (Some false, PStr "2025-01-01")
  /\ clean_invoice_amount (const_repr "1234.5") (PStr "1234.5") = (Some false, PFloat f1234_5)
  /\ clean_invoice_amount (const_repr "1234.5") (PFloat f1234_5) = (Some false, PFloat f1234_5).
Proof.
  destruct (normalizers_idempotent (const_repr "1234.5")) as (Hs & _ & Ha & Hf).
  split; [|split].
  - apply (Hs "2025-01-01" {| year := 2025; month := 1; day := 1 |}); [reflexivity|].
    vm_compute. discriminate.
  - destruct (Ha (PStr "1234.5")) as (v & Hv & Hc); [reflexivity|reflexivity|].
    vm_compute in Hv. injection Hv as <-. exact Hc.
  - apply Hf; reflexivity.
Defined.

(** C5. Idempotence on ISO dates fails before the year 1000.  [strftime]
    writes such a year without its leading zeros, so a valid ISO text
    [0YYY-MM-DD] is not returned as it is: [clean_date] flags it as changed
    and returns a text that is no date of the form [YYYY-MM-DD] any more. *)
Theorem clean_date_short_year (s : string) (d : date) :
  iso_date_text s = Some d -> year d < 1000 ->
  clean_date (PStr s) = (Some true, PStr (strftime_iso d))
  /\ is_iso_date (strftime_iso d) = false.
Proof.
  intros Hd Hshort. destruct (iso_date_text_spec s d Hd) as [Hv <-].
  pose proof (strftime_iso_short d Hv Hshort) as Hlen.
  split.
  - rewrite (clean_date_iso_text d Hv).
    destruct (String.eqb (strftime_iso d) (iso_text d)) eqn:E; [|reflexivity].
    apply String.eqb_eq in E. rewrite E, iso_text_length in Hlen. lia.
  - unfold is_iso_date. destruct (iso_date_text (strftime_iso d)) as [d'|] eqn:E; [|reflexivity].
    destruct (iso_date_text_spec _ _ E) as [_ H].
    rewrite <- H, iso_text_length in Hlen. lia.
Qed.

Lemma clean_date_short_year_witness :
  clean_date (PStr "0999-01-01") = (Some true, PStr "999-01-01")
  /\ is_iso_date "999-01-01" = false.
Proof.
  apply (clean_date_short_year "0999-01-01" {| year := 999; month := 1; day := 1 |});
    reflexivity.
Defined.

Lemma plain_remainder s : digits_and_dots (strip (lower (strip s))) = digits_and_dots s.
Proof.
  unfold digits_and_dots. change (fun c => is_digit c || Ascii.eqb c ".") with digit_or_dot.
  assert (Hsp : forall c, is_space c = true -> digit_or_dot c = false).
  { intros c Hc. destruct (digit_or_dot c) eqn:Hd; [|reflexivity].
    rewrite (digit_or_dot_not_space c Hd) in Hc. discriminate. }
  rewrite sfilter_strip by exact Hsp.
  unfold lower. rewrite sfilter_smap.
  - apply sfilter_strip, Hsp.
  - exact digit_or_dot_lower.
  - exact digit_or_dot_lower_id.
Qed.

Lemma try_formats_unresolved (fmts : list string) (c o : string) :
  fst (try_formats fmts c o) = None -> try_formats fmts c o = (None, PStr o).
Proof.
  induction fmts as [|fmt rest IH]; cbn [try_formats]; [reflexivity|].
  destruct (strptime c fmt); [|exact IH].
  destruct (negb (String.eqb (strftime_iso d) o)); cbn [fst]; discriminate.
Qed.

Lemma try_formats_all_fail (fmts : list string) (c o : string) :
  (forall fmt, In fmt fmts -> strptime c fmt = None) ->
  try_formats fmts c o = (None, PStr o).
Proof.
  induction fmts as [|fmt rest IH]; cbn [try_formats]; [reflexivity|].
  intros H. rewrite (H fmt) by (left; reflexivity). apply IH.
  intros f Hf. apply H. right. exact Hf.
Qed.

Section Unresolved.
Variable float_repr : float -> string.
Variable token_set_ratio : string -> string -> Z.

Local Abbreviation str := (py_str float_repr).

Lemma clean_invoice_amount_unresolved : unresolved_law float_repr amount_absent
                                          (clean_invoice_amount float_repr).
Proof.
  intros x.
  assert (Habs : amount_absent x = true -> clean_invoice_amount float_repr x = (None, x)).
  { unfold amount_absent, clean_invoice_amount.
    change (match x with PNone => true | PFloat f => is_nan f | _ => false end) with (isna x).
    intros ->. reflexivity. }
  assert (Hval : fst (clean_invoice_amount float_repr x) = None ->
                 snd (clean_invoice_amount float_repr x)
                 = if amount_absent x then x else PStr (strip (str x))).
  { unfold amount_absent. destruct (isna x) eqn:Hna.
    - intros _. rewrite Habs by exact Hna. reflexivity.
    - unfold clean_invoice_amount.
      change (match x with PNone => true | PFloat f => is_nan f | _ => false end) with (isna x).
      rewrite Hna, str_of_text.
      destruct (contains_char _ _).
      + destruct (float_of_string _); simpl; [discriminate|reflexivity].
      + destruct (float_of_string _); simpl; [discriminate|reflexivity]. }
  split; [exact Habs|]. split; [exact Hval|].
  intros Hf Hn. rewrite (Hval Hf) in Hn. unfold amount_absent in Hn.
  destruct (isna x); [reflexivity|discriminate].
Qed.

Lemma clean_date_unresolved : unresolved_law float_repr date_absent clean_date.
Proof.
  intros x.
  assert (Habs : date_absent x = true -> clean_date x = (None, x)).
  { destruct x; try reflexivity. unfold date_absent, clean_date. intros ->. reflexivity. }
  assert (Hval : fst (clean_date x) = None ->
                 snd (clean_date x) = if date_absent x then x else PStr (strip (str x))).
  { destruct (date_absent x) eqn:Hd.
    - intros _. rewrite Habs by reflexivity. reflexivity.
    - destruct x as [| | | |s]; try discriminate. unfold date_absent in Hd.
      unfold clean_date. rewrite Hd. cbn [py_str].
      intros H. rewrite (try_formats_unresolved _ _ _ H). reflexivity. }
  split; [exact Habs|]. split; [exact Hval|].
  intros Hf Hn. rewrite (Hval Hf) in Hn.
  destruct (date_absent x); [exact Hn|discriminate].
Qed.

Lemma clean_provider_unresolved (correct_providers : list string) :
  unresolved_law float_repr provider_absent
    (fun x => clean_provider token_set_ratio x correct_providers).
Proof.
  intros x. cbv beta.
  assert (Habs : provider_absent x = true ->
                 clean_provider token_set_ratio x correct_providers = (None, x)).
  { unfold provider_absent, clean_provider, clean_provider_with. intros ->. reflexivity. }
  assert (Hval : fst (clean_provider token_set_ratio x correct_providers) = None ->
                 snd (clean_provider token_set_ratio x correct_providers)
                 = if provider_absent x then x else PStr (strip (str x))).
  { destruct (provider_absent x) eqn:Hp.
    - intros _. rewrite Habs by reflexivity. reflexivity.
    - unfold clean_provider, clean_provider_with.
      unfold provider_absent in Hp. rewrite Hp.
      destruct x as [| | | |s];
        try (cbn [is_str negb] in Hp; rewrite orb_true_r in Hp; discriminate Hp).
      cbn [py_str]. unfold strict_pass, lenient_pass.
      destruct (extractOne token_set_ratio (strip s) correct_providers) as [[m sc]|].
      + destruct (80 <=? sc).
        * destruct (negb (String.eqb m (strip s))); simpl; discriminate.
        * destruct (extractOne _ _ _) as [[m' sc']|]; [|reflexivity].
          destruct (60 <? sc'); [|reflexivity].
          destruct (negb (String.eqb m' (strip s))); simpl; discriminate.
      + destruct (extractOne _ _ _) as [[m' sc']|]; [|reflexivity].
        destruct (60 <? sc'); [|reflexivity].
        destruct (negb (String.eqb m' (strip s))); simpl; discriminate. }
  split; [exact Habs|]. split; [exact Hval|].
  intros Hf Hn. rewrite (Hval Hf) in Hn.
  destruct (provider_absent x); [exact Hn|discriminate].
Qed.

(** C9, as the code has it.  The three normalizers are total: the
    failures of [float] and [strptime] are caught.  Each passes an absent
    input through with the unresolved flag (for the amount, [None] and NaN;
    for the date, anything but a text that is not blank; for the provider,
    anything but a text that is not empty).  Whenever the flag is
    unresolved and the input is not absent, the cleaned value is the text
    of the input with the surrounding whitespace trimmed, not the input as
    given; it is null only if the input is.  An amount whose digits [float]
    cannot read, and a date no format parses, are unresolved. *)
Theorem normalizers_unresolved :
  unresolved_law float_repr amount_absent (clean_invoice_amount float_repr)
  /\ unresolved_law float_repr date_absent clean_date
  /\ (forall correct_providers,
         unresolved_law float_repr provider_absent
           (fun x => clean_provider token_set_ratio x correct_providers))
  /\ (forall amount,
         isna amount = false ->
         float_of_string (amount_digits (str amount)) = None ->
         clean_invoice_amount float_repr amount = (None, PStr (strip (str amount))))
  /\ (forall s,
         strip s <> "" ->
         (forall fmt, In fmt formats -> strptime (date_text s) fmt = None) ->
         clean_date (PStr s) = (None, PStr (strip s))).
Proof.
  split; [exact clean_invoice_amount_unresolved|].
  split; [exact clean_date_unresolved|].
  split; [exact clean_provider_unresolved|].
  split.
  - intros amount Hna Hf. unfold clean_invoice_amount.
    change (match amount with PNone => true | PFloat f => is_nan f | _ => false end)
      with (isna amount).
    rewrite Hna, str_of_text. unfold amount_digits in Hf.
    rewrite millions_marker, millions_remainder, plain_remainder.
    destruct (contains_char "m" (lower (str amount))); rewrite Hf; reflexivity.
  - intros s Hs Hfail. unfold clean_date.
    apply String.eqb_neq in Hs. rewrite Hs.
    apply try_formats_all_fail. exact Hfail.
Qed.

End Unresolved.

Lemma normalizers_unresolved_witness :
  clean_invoice_amount (const_repr "") (PStr "  n/a ") = (None, PStr "n/a")
  /\ clean_date (PStr " 31/02/2025 ") = (None, PStr "31/02/2025").
Proof.
  destruct (normalizers_unresolved (const_repr "") exact_ratio) as (_ & _ & _ & Ha & Hd).
  split.
  - apply (Ha (PStr "  n/a ")); reflexivity.
  - apply (Hd " 31/02/2025 ").
    + discriminate.
    + intros fmt Hin. simpl in Hin.
      repeat (destruct Hin as [<-|Hin]; [reflexivity|]). contradiction.
Defined.

(** The amount of three spaces is unresolved, and its cleaned value is the
    empty text, not the input; a date that no format parses comes back
    without the spaces around it. *)
Lemma blank_amount_is_trimmed :
  fst (clean_invoice_amount (const_repr "") (PStr "   ")) = None
  /\ snd (clean_invoice_amount (const_repr "") (PStr "   ")) = PStr ""
  /\ snd (clean_invoice_amount (const_repr "") (PStr "   ")) <> PStr "   "
  /\ clean_date (PStr " 31/02/2025 ") = (None, PStr "31/02/2025")
  /\ PStr "31/02/2025" <> PStr " 31/02/2025 ".
Proof. repeat split; discriminate. Qed.

(* --------------------------------------------------------------------- *)
(** *** The issue ledger *)

Lemma isna_not_true (c : cell) : cell_isna c = true -> cell_is_true c = false.
Proof.
  destruct c as [v|l]; [|reflexivity].
  destruct v as [| | |f|]; try discriminate; [reflexivity|].
  destruct f; try discriminate. reflexivity.
Qed.

Section Ledger.
Variables failed_col modified_col : string.
Hypothesis distinct : failed_col <> modified_col.

Lemma record_flag_rows (df : frame) (col : string) :
  columns (record_flag failed_col modified_col df col) = columns df
  /\ rows (record_flag failed_col modified_col df col)
     = map (fun r => flag_row failed_col modified_col r col) (rows df).
Proof.
  unfold record_flag, update_where. cbn [columns rows]. split; [reflexivity|].
  rewrite map_map. reflexivity.
Qed.

Lemma record_flags_rows (cols : list string) : forall df : frame,
  columns (fold_left (record_flag failed_col modified_col) cols df) = columns df
  /\ rows (fold_left (record_flag failed_col modified_col) cols df)
     = map (fun r => fold_left (flag_row failed_col modified_col) cols r) (rows df).
Proof.
  induction cols as [|c rest IH]; intros df; cbn [fold_left].
  - split; [reflexivity|]. symmetry. apply map_id.
  - destruct (IH (record_flag failed_col modified_col df c)) as [Hc Hr].
    destruct (record_flag_rows df c) as [Hc1 Hr1].
    rewrite Hc, Hr, Hc1, Hr1, map_map. auto.
Qed.

(** One pass appends the field to the ledger cells its flag selects, and
    touches no other cell. *)
Lemma flag_row_spec (r : row) (col : string) (lf lm : list string) :
  col <> failed_col -> col <> modified_col ->
  r !! failed_col = Some (CList lf) ->
  r !! modified_col = Some (CList lm) ->
  let r' := flag_row failed_col modified_col r col in
  r' !! failed_col
  = Some (CList (lf ++ if cell_isna (cell_at col r) then [field_name col] else []))
  /\ r' !! modified_col
     = Some (CList (lm ++ if cell_is_true (cell_at col r) then [field_name col] else []))
  /\ (forall c, c <> failed_col -> c <> modified_col -> r' !! c = r !! c).
Proof.
  intros Hcf Hcm Hf Hm. cbv zeta. unfold flag_row.
  assert (Hcf' : cell_at failed_col r = CList lf) by (unfold cell_at; rewrite Hf; reflexivity).
  assert (Hcm' : cell_at modified_col r = CList lm) by (unfold cell_at; rewrite Hm; reflexivity).
  destruct (cell_isna (cell_at col r)) eqn:Hna.
  - assert (Hsame : cell_at col (<[failed_col := append_name (field_name col)
                                      (cell_at failed_col r)]> r) = cell_at col r).
    { unfold cell_at. rewrite lookup_insert_ne by congruence. reflexivity. }
    rewrite Hsame, (isna_not_true _ Hna), Hcf'. cbn [append_name].
    rewrite app_nil_r. split; [apply lookup_insert_eq|]. split.
    + rewrite lookup_insert_ne by congruence. exact Hm.
    + intros c Hc1 Hc2. rewrite lookup_insert_ne by congruence. reflexivity.
  - rewrite app_nil_r.
    destruct (cell_is_true (cell_at col r)) eqn:Htrue.
    + rewrite Hcm'. cbn [append_name]. split.
      * rewrite lookup_insert_ne by congruence. exact Hf.
      * split; [apply lookup_insert_eq|].
        intros c Hc1 Hc2. rewrite lookup_insert_ne by congruence. reflexivity.
    + rewrite app_nil_r. auto.
Qed.

Lemma flagged_ext (mask : cell -> bool) (cols : list string) (r r' : row) :
  (forall c, In c cols -> r' !! c = r !! c) ->
  flagged mask cols r' = flagged mask cols r.
Proof.
  intros H. unfold flagged. f_equal. apply filter_ext_in.
  intros c Hc. unfold cell_at. rewrite (H c Hc). reflexivity.
Qed.

(** The whole loop appends, in column order, the fields whose flag is
    missing to the first ledger cell and those whose flag is true to the
    second. *)
Lemma flag_rows_spec (cols : list string) : forall (r : row) (lf lm : list string),
  (forall c, In c cols -> c <> failed_col /\ c <> modified_col) ->
  r !! failed_col = Some (CList lf) ->
  r !! modified_col = Some (CList lm) ->
  let r' := fold_left (flag_row failed_col modified_col) cols r in
  r' !! failed_col = Some (CList (lf ++ flagged cell_isna cols r))
  /\ r' !! modified_col = Some (CList (lm ++ flagged cell_is_true cols r))
  /\ (forall c, c <> failed_col -> c <> modified_col -> r' !! c = r !! c).
Proof.
  induction cols as [|col rest IH]; intros r lf lm Hcols Hf Hm; cbv zeta; cbn [fold_left].
  - unfold flagged. cbn [List.filter map]. rewrite !app_nil_r. auto.
  - destruct (Hcols col (or_introl eq_refl)) as [Hcf Hcm].
    destruct (flag_row_spec r col lf lm Hcf Hcm Hf Hm) as (Hf1 & Hm1 & Hother).
    destruct (IH _ _ _ (fun c Hc => Hcols c (or_intror Hc)) Hf1 Hm1) as (Hf2 & Hm2 & Hother2).
    assert (Hext : forall mask, flagged mask rest (flag_row failed_col modified_col r col)
                                = flagged mask rest r).
    { intros mask. apply flagged_ext. intros c Hc.
      destruct (Hcols c (or_intror Hc)). apply Hother; assumption. }
    rewrite Hf2, Hm2, !Hext. unfold flagged. cbn [List.filter].
    repeat split.
    + destruct (cell_isna (cell_at col r)); cbn [map]; rewrite <- app_assoc; reflexivity.
    + destruct (cell_is_true (cell_at col r)); cbn [map]; rewrite <- app_assoc; reflexivity.
    + intros c Hc1 Hc2. rewrite Hother2, Hother by assumption. reflexivity.
Qed.

End Ledger.

Lemma init_list_col_spec (col : string) (df : frame) :
  rows (init_list_col col df)
  = map (fun r => <[col := CList (ledger_on_entry df col r)]> r) (rows df)
  /\ (forall c, c <> col -> (c ∈ columns (init_list_col col df) <-> c ∈ columns df))
  /\ List.filter (ends_with "_Flag") (columns (init_list_col col df))
     = List.filter (ends_with "_Flag") (columns df ++ if ends_with "_Flag" col
                                                       && negb (bool_decide (col ∈ columns df))
                                                    then [col] else []).
Proof.
  unfold init_list_col, ledger_on_entry.
  destruct (bool_decide (col ∈ columns df)) eqn:Hin; cbn [rows columns].
  - split; [|split].
    + apply map_ext. intros r. destruct (cell_at col r); reflexivity.
    + tauto.
    + rewrite andb_false_r, app_nil_r. reflexivity.
  - split; [reflexivity|split].
    + intros c Hc. rewrite elem_of_app, list_elem_of_singleton. tauto.
    + rewrite andb_true_r.
      destruct (ends_with "_Flag" col) eqn:E; [reflexivity|].
      rewrite !List.filter_app. cbn [List.filter]. rewrite E. reflexivity.
Qed.

Section LedgerColumns.
Variables failed_col modified_col : string.
Hypothesis distinct : failed_col <> modified_col.
Hypothesis failed_no_flag : ends_with "_Flag" failed_col = false.
Hypothesis modified_no_flag : ends_with "_Flag" modified_col = false.

(** What [record_issue] leaves in a row: the ledger cells hold what they
    held on entry, then the fields of the flag columns that are missing
    (first cell) or true (second cell), in column order. *)
Lemma record_issue_with_row (df : frame) (i : nat) (r : row) :
  nth_error (rows df) i = Some r ->
  exists r',
    nth_error (rows (record_issue_with df failed_col modified_col)) i = Some r'
    /\ r' !! failed_col
       = Some (CList (ledger_on_entry df failed_col r
                      ++ flagged cell_isna (flag_columns df) r))
    /\ r' !! modified_col
       = Some (CList (ledger_on_entry df modified_col r
                      ++ flagged cell_is_true (flag_columns df) r)).
Proof.
  intros Hr. unfold record_issue_with.
  destruct (init_list_col_spec failed_col df) as (Hrows1 & Hcols1 & Hflags1).
  destruct (init_list_col_spec modified_col (init_list_col failed_col df))
    as (Hrows2 & _ & Hflags2).
  rewrite failed_no_flag in Hflags1. rewrite modified_no_flag in Hflags2.
  cbn [andb] in Hflags1, Hflags2. rewrite app_nil_r in Hflags1, Hflags2.
  rewrite Hflags2, Hflags1. fold (flag_columns df).
  destruct (record_flags_rows failed_col modified_col (flag_columns df)
              (init_list_col modified_col (init_list_col failed_col df))) as [_ ->].
  rewrite Hrows2, Hrows1, !map_map.
  rewrite nth_error_map, Hr. cbn [option_map].
  eexists. split; [reflexivity|].
  set (r1 := <[failed_col := CList (ledger_on_entry df failed_col r)]> r).
  assert (Hentry : ledger_on_entry (init_list_col failed_col df) modified_col r1
                   = ledger_on_entry df modified_col r).
  { unfold ledger_on_entry.
    rewrite (bool_decide_ext _ _ (Hcols1 modified_col (not_eq_sym distinct))).
    unfold cell_at, r1. rewrite lookup_insert_ne by exact distinct. reflexivity. }
  rewrite Hentry.
  set (r2 := <[modified_col := CList (ledger_on_entry df modified_col r)]> r1).
  assert (Hflagcols : forall c, In c (flag_columns df) -> c <> failed_col /\ c <> modified_col).
  { intros c [_ Hc]%filter_In. split; congruence. }
  destruct (flag_rows_spec failed_col modified_col distinct (flag_columns df) r2
              (ledger_on_entry df failed_col r) (ledger_on_entry df modified_col r) Hflagcols)
    as (Hf & Hm & _).
  { unfold r2, r1. rewrite lookup_insert_ne by (apply not_eq_sym, distinct).
    apply lookup_insert_eq. }
  { unfold r2. apply lookup_insert_eq. }
  assert (Hext : forall mask, flagged mask (flag_columns df) r2 = flagged mask (flag_columns df) r).
  { intros mask. apply flagged_ext. intros c Hc. destruct (Hflagcols c Hc).
    unfold r2, r1. rewrite !lookup_insert_ne by congruence. reflexivity. }
  rewrite !Hext in *. split; assumption.
Qed.

End LedgerColumns.

Lemma in_flagged (mask : cell -> bool) (cols : list string) (r : row) (f : string) :
  In f (flagged mask cols r) <->
  exists col, In col cols /\ mask (cell_at col r) = true /\ field_name col = f.
Proof.
  unfold flagged. rewrite in_map_iff. split.
  - intros (col & Hf & [Hc Hm]%filter_In). eauto.
  - intros (col & Hc & Hm & Hf). exists col. split; [exact Hf|].
    apply filter_In. auto.
Qed.

(** C3, as the code has it.  For a record that enters [record_issue] with
    no names in its ledger cells (the ledger columns are absent, or hold no
    list, or an empty one), in a frame whose flag columns stand for
    different fields: the ledger cells of the record afterwards are lists;
    the field of a flag column is in [FailedFields] exactly if its flag is
    missing (None or NaN) and in [ModifiedFields] exactly if its flag
    equals True; every name in the ledger is the field of such a column;
    and no name is in both lists. *)
Theorem record_issue_ledger (df : frame) (i : nat) (r : row) :
  nth_error (rows df) i = Some r ->
  ledger_on_entry df "FailedFields" r = [] ->
  ledger_on_entry df "ModifiedFields" r = [] ->
  (forall c1 c2, In c1 (flag_columns df) -> In c2 (flag_columns df) ->
                 field_name c1 = field_name c2 -> c1 = c2) ->
  exists (r' : row) (failed modified : list string),
    nth_error (rows (record_issue df)) i = Some r'
    /\ r' !! "FailedFields" = Some (CList failed)
    /\ r' !! "ModifiedFields" = Some (CList modified)
    /\ failed = flagged cell_isna (flag_columns df) r
    /\ modified = flagged cell_is_true (flag_columns df) r
    /\ (forall col, In col (flag_columns df) ->
          (In (field_name col) failed <-> cell_isna (cell_at col r) = true)
          /\ (In (field_name col) modified <-> cell_is_true (cell_at col r) = true))
    /\ (forall f, In f failed -> In f modified -> False).
Proof.
  intros Hr Hf0 Hm0 Hinj.
  destruct (record_issue_with_row "FailedFields" "ModifiedFields"
              ltac:(discriminate) eq_refl eq_refl df i r Hr) as (r' & Hr' & Hf & Hm).
  rewrite Hf0 in Hf. rewrite Hm0 in Hm. cbn [app] in Hf, Hm.
  exists r', (flagged cell_isna (flag_columns df) r),
    (flagged cell_is_true (flag_columns df) r).
  repeat (split; [assumption || reflexivity|]).
  split.
  - intros col Hcol. rewrite !in_flagged. split; split.
    + intros (c & Hc & Hmask & Hname). rewrite <- (Hinj c col Hc Hcol Hname). exact Hmask.
    + intros Hmask. eauto.
    + intros (c & Hc & Hmask & Hname). rewrite <- (Hinj c col Hc Hcol Hname). exact Hmask.
    + intros Hmask. eauto.
  - intros f (c1 & Hc1 & Hna & Hn1)%in_flagged (c2 & Hc2 & Htrue & Hn2)%in_flagged.
    assert (c1 = c2) by (apply Hinj; congruence). subst c2.
    rewrite (isna_not_true _ Hna) in Htrue. discriminate.
Qed.

Lemma record_issue_ledger_witness :
  exists (r' : row) (failed modified : list string),
    nth_error (rows (record_issue flagged_batch)) 0 = Some r'
    /\ r' !! "FailedFields" = Some (CList failed)
    /\ r' !! "ModifiedFields" = Some (CList modified)
    /\ failed = ["Provider"]
    /\ modified = ["InvoiceDate"]
    /\ (forall f, In f failed -> In f modified -> False).
Proof.
  destruct (record_issue_ledger flagged_batch 0
              (<["InvoiceID" := CVal (PStr "INV10001")]>
                 (<["Provider_Flag" := CVal PNone]>
                    (<["Provider_Clean" := CVal (PStr "Acme")]>
                       (<["InvoiceDate_Flag" := CVal (PBool true)]> ∅)))))
    as (r' & failed & modified & H1 & H2 & H3 & H4 & H5 & _ & H7).
  - reflexivity.
  - reflexivity.
  - reflexivity.
  - intros c1 c2 [<-|[<-|[]]] [<-|[<-|[]]]; vm_compute; congruence.
  - exists r', failed, modified. repeat (split; [assumption|]). exact H7.
Defined.

(** On a frame that carries a ledger, [record_issue] keeps the names
    already there: the provider, unresolved before and flagged as changed
    now, ends in both lists. *)
Lemma carried_ledger_overlap :
  exists r' : row,
    nth_error (rows (record_issue carried_ledger)) 0 = Some r'
    /\ r' !! "FailedFields" = Some (CList ["Provider"])
    /\ r' !! "ModifiedFields" = Some (CList ["Provider"])
    /\ cell_isna (cell_at "Provider_Flag" r') = false
    /\ cell_is_true (cell_at "Provider_Flag" r') = true.
Proof.
  eexists. split; [reflexivity|].
  split; [reflexivity|]. split; [reflexivity|]. split; reflexivity.
Qed.

(* ===================================================================== *)
(** ** Further properties *)
(* ===================================================================== *)

(* --------------------------------------------------------------------- *)
(** *** The risk model: weights, bounds and the contract map *)

Lemma lower_char_not_upper c : is_upper (lower_char c) = false.
Proof. each_ascii c; reflexivity. Qed.

Lemma lower_no_upper s : sexists is_upper (lower s) = false.
Proof.
  induction s as [|c r IH]; [reflexivity|].
  cbn [lower smap sexists]. rewrite lower_char_not_upper. exact IH.
Qed.

(** After its first character, what [capitalize] returns has no capital. *)
Lemma capitalize_tail s c r : capitalize s = String c r -> sexists is_upper r = false.
Proof.
  destruct s as [|c0 r0]; [discriminate|].
  cbn [capitalize]. intros [= _ <-]. apply lower_no_upper.
Qed.

Lemma base_name_weights (b : string) :
  b <> "InvoiceAmount" -> b <> "InvoiceDate" ->
  default 5 (FAILED_WEIGHTS !! b) = 5 /\ default 2 (MODIFIED_WEIGHTS !! b) = 2.
Proof.
  intros H1 H2. unfold FAILED_WEIGHTS, MODIFIED_WEIGHTS.
  rewrite !lookup_insert, !lookup_empty.
  repeat case_decide; try congruence; split; reflexivity.
Qed.

Lemma weights_flat (field : string) : failed_weight field = 5 /\ modified_weight field = 2.
Proof.
  unfold failed_weight, modified_weight, base_name.
  set (t := remove_all "_Flag" (remove_all "_Clean" field)).
  apply base_name_weights.
  - intros H. apply capitalize_tail in H. discriminate H.
  - intros H. apply capitalize_tail in H. discriminate H.
Qed.

(** X1. The weight tables never tell two fields apart: since the looked-up
    name has no capital after its first letter, the keys [InvoiceAmount]
    and [InvoiceDate] are never found, and the other keys carry the
    defaults; every unresolved field weighs 5 and every changed field 2. *)
Theorem field_weights_are_flat (field : string) :
  failed_weight field = 5 /\ modified_weight field = 2.
Proof. exact (weights_flat field). Qed.

Lemma fold_failed (fields : list string) : forall acc,
  fold_left (fun a f => a + failed_weight f) fields acc
  = acc + 5 * Z.of_nat (List.length fields).
Proof.
  induction fields as [|f rest IH]; intros acc; cbn [fold_left List.length].
  - lia.
  - rewrite IH. destruct (weights_flat f) as [-> _]. lia.
Qed.

Lemma fold_modified (fields : list string) : forall acc,
  fold_left (fun a f => a + modified_weight f) fields acc
  = acc + 2 * Z.of_nat (List.length fields).
Proof.
  induction fields as [|f rest IH]; intros acc; cbn [fold_left List.length].
  - lia.
  - rewrite IH. destruct (weights_flat f) as [_ ->]. lia.
Qed.

Lemma chars_length s : List.length (chars s) = String.length s.
Proof. induction s as [|c r IH]; [reflexivity|]. cbn [chars List.length String.length]. lia. Qed.

Section RiskBounds.
Variable to_datetime : cell -> exc (option Z).

(** What a returned score is made of. *)
Lemma compute_risk_score_parts (r : row) (cm : list (key * contract_dict)) (s : scores) :
  compute_risk_score to_datetime r cm = inr s ->
  exists failed modified,
    fields_of r "FailedFields" = inr failed
    /\ fields_of r "ModifiedFields" = inr modified
    /\ DataQualityRisk s = 5 * Z.of_nat (List.length failed)
                           + 2 * Z.of_nat (List.length modified)
    /\ (ContractRisk s = 0 \/ ContractRisk s = 5 \/ ContractRisk s = 10 \/ ContractRisk s = 15)
    /\ (FinancialRisk s = 0 \/ FinancialRisk s = 7 \/ FinancialRisk s = 10)
    /\ RiskScore s = DataQualityRisk s + ContractRisk s + FinancialRisk s.
Proof.
  unfold compute_risk_score.
  destruct (fields_of r "FailedFields") as [e|failed]; [discriminate|].
  destruct (fields_of r "ModifiedFields") as [e|modified]; [discriminate|].
  cbn [bind].
  destruct (safe_float _) as [e|amount]; [discriminate|]. cbn [bind].
  destruct (key_of _ _ _) as [e|k]; [discriminate|]. cbn [bind ret].
  intros [= <-]. exists failed, modified. cbn [DataQualityRisk ContractRisk FinancialRisk RiskScore].
  split; [reflexivity|]. split; [reflexivity|]. split.
  { rewrite fold_modified, fold_failed. lia. }
  split.
  { destruct (map_get cm k) as [c|]; [|auto].
    destruct (bool_decide (c = ∅)); [auto|].
    destruct (safe_date to_datetime _) as [ex|]; [|auto].
    destruct (safe_date to_datetime _) as [inv|]; [|auto].
    destruct (ex <? inv); [auto|].
    destruct (_ && _); auto. }
  split; [|reflexivity].
  destruct (negb (is_nan amount)); [|auto].
  destruct (flt _ amount); [auto|].
  destruct (flt amount _); auto.
Qed.

(** X2. Whenever [compute_risk_score] returns, the data-quality score is
    five per name iterated in [FailedFields] plus two per name iterated in
    [ModifiedFields]; the contract score is 0, 5, 10 or 15; the financial
    score is 0, 7 or 10; and the total is their sum, so at most 25 above
    the data-quality score. *)
Theorem risk_score_decomposition (r : row) (cm : list (key * contract_dict)) (s : scores) :
  compute_risk_score to_datetime r cm = inr s ->
  exists failed modified,
    fields_of r "FailedFields" = inr failed
    /\ fields_of r "ModifiedFields" = inr modified
    /\ DataQualityRisk s = 5 * Z.of_nat (List.length failed)
                           + 2 * Z.of_nat (List.length modified)
    /\ (ContractRisk s = 0 \/ ContractRisk s = 5 \/ ContractRisk s = 10 \/ ContractRisk s = 15)
    /\ (FinancialRisk s = 0 \/ FinancialRisk s = 7 \/ FinancialRisk s = 10)
    /\ RiskScore s = DataQualityRisk s + ContractRisk s + FinancialRisk s
    /\ DataQualityRisk s <= RiskScore s <= DataQualityRisk s + 25.
Proof.
  intros H. destruct (compute_risk_score_parts r cm s H)
    as (failed & modified & Hf & Hm & Hdq & Hc & Hfin & Hsum).
  exists failed, modified. repeat (split; [assumption|]). lia.
Qed.

(** X3. When the ledger cells of a record hold text -- as they do once
    the cleaned file is read back from CSV, where a list is written as
    ['Provider'] or [] -- the loops run over the characters of the text:
    the data-quality score is five times the length of the first text plus
    twice the length of the second, 14 for a record with nothing to
    report. *)
Theorem risk_of_text_ledger (r : row) (cm : list (key * contract_dict)) (s : scores)
    (failed_text modified_text : string) :
  r !! "FailedFields" = Some (CVal (PStr failed_text)) ->
  r !! "ModifiedFields" = Some (CVal (PStr modified_text)) ->
  compute_risk_score to_datetime r cm = inr s ->
  DataQualityRisk s = 5 * Z.of_nat (String.length failed_text)
                      + 2 * Z.of_nat (String.length modified_text).
Proof.
  intros Hf Hm H. destruct (compute_risk_score_parts r cm s H)
    as (failed & modified & Hf' & Hm' & Hdq & _).
  unfold fields_of in Hf', Hm'. rewrite Hf in Hf'. rewrite Hm in Hm'.
  injection Hf' as <-. injection Hm' as <-.
  rewrite !chars_length in Hdq. exact Hdq.
Qed.

End RiskBounds.

Lemma risk_score_decomposition_witness :
  exists failed modified,
    fields_of amount_only_row "FailedFields" = inr failed
    /\ fields_of amount_only_row "ModifiedFields" = inr modified
    /\ 5 = 5 * Z.of_nat (List.length failed) + 2 * Z.of_nat (List.length modified).
Proof.
  destruct (risk_score_decomposition (fun _ => inr None) amount_only_row []
              {| RiskScore := 25; DataQualityRisk := 5; ContractRisk := 10; FinancialRisk := 10 |}
              eq_refl) as (failed & modified & Hf & Hm & Hdq & _).
  exists failed, modified. auto.
Defined.

Lemma risk_of_text_ledger_witness :
  exists s, compute_risk_score two_dates works_invoice [] = inr s /\ DataQualityRisk s = 14.
Proof.
  eexists. split; [reflexivity|].
  apply (risk_of_text_ledger two_dates works_invoice [] _ "[]" "[]"); reflexivity.
Defined.

Lemma no_name_not_equal (k p : pyval) :
  no_name p = true -> truthy k = true -> py_eqb k p = false.
Proof.
  unfold no_name. intros Hp Hk.
  destruct p as [| | |f|s]; try discriminate Hp.
  - destruct k; try reflexivity. discriminate Hk.
  - destruct f; try discriminate Hp.
    destruct k as [|b|z|g|t]; try reflexivity. destruct g; reflexivity.
  - cbn [isna orb py_eqb] in Hp. apply String.eqb_eq in Hp. subst s.
    destruct k as [|b|z|g|t]; try reflexivity.
    cbn [truthy] in Hk. cbn [py_eqb]. destruct (String.eqb t ""); [discriminate Hk|reflexivity].
Qed.

Lemma map_get_none (m : list (key * contract_dict)) (q : key) :
  Forall (fun e => key_eqb (fst e) q = false) m -> map_get m q = None.
Proof.
  induction 1 as [|[k v] rest Hk _ IH]; [reflexivity|].
  cbn [map_get]. cbn [fst] in Hk. rewrite Hk. exact IH.
Qed.

Lemma dict_set_forall (P : key * contract_dict -> Prop) (m : list (key * contract_dict))
    (k : key) (v : contract_dict) :
  Forall P m -> P (k, v) -> (forall k' v', P (k', v') -> key_eqb k' k = true -> P (k', v)) ->
  Forall P (dict_set m k v).
Proof.
  intros Hm Hnew Hrep. induction Hm as [|[k' v'] rest He Hrest IH]; cbn [dict_set].
  - constructor; [exact Hnew|constructor].
  - destruct (key_eqb k' k) eqn:E.
    + constructor; [exact (Hrep k' v' He E)|exact Hrest].
    + constructor; assumption.
Qed.

(** Every key of the contract map has a provider and a title that are
    truthy. *)
Lemma contract_map_named (contracts : list contract_dict) :
  Forall (fun e => truthy (fst (fst (fst e))) = true /\ truthy (snd (fst (fst e))) = true)
         (contract_map contracts).
Proof.
  unfold contract_map.
  assert (H : forall m,
             Forall (fun e : key * contract_dict =>
                       truthy (fst (fst (fst e))) = true /\ truthy (snd (fst (fst e))) = true) m ->
             Forall (fun e : key * contract_dict =>
                       truthy (fst (fst (fst e))) = true /\ truthy (snd (fst (fst e))) = true)
                    (fold_left (fun m c => if named c then dict_set m (contract_key c) c else m)
                               contracts m)).
  { induction contracts as [|c rest IH]; intros m Hm; cbn [fold_left]; [exact Hm|].
    apply IH. destruct (named c) eqn:Hc; [|exact Hm].
    apply dict_set_forall; [exact Hm| |].
    - unfold named in Hc. apply andb_true_iff in Hc. exact Hc.
    - intros k' v' Hk' _. exact Hk'. }
  apply H. constructor.
Qed.

Lemma map_get_dict_set (m : list (key * contract_dict)) (k : key) (v : contract_dict) :
  key_eqb k k = true -> map_get (dict_set m k v) k = Some v.
Proof.
  intros Hk. induction m as [|[k' v'] rest IH]; cbn [dict_set map_get].
  - rewrite Hk. reflexivity.
  - destruct (key_eqb k' k) eqn:E; cbn [map_get]; rewrite E; [reflexivity|exact IH].
Qed.

Lemma fold_contract_map_app (cs : list contract_dict) (c : contract_dict) :
  contract_map (cs ++ [c])
  = if named c then dict_set (contract_map cs) (contract_key c) c else contract_map cs.
Proof. unfold contract_map. rewrite fold_left_app. reflexivity. Qed.

(** X5. In the contract map, a later contract replaces an earlier one of
    an equal key: the last contract of the registry, if it has a provider
    and a title and its key equals itself (no NaN in it), is what its key
    looks up, whatever comes before it. *)
Theorem contract_map_last_wins (cs : list contract_dict) (c : contract_dict) :
  named c = true ->
  key_eqb (contract_key c) (contract_key c) = true ->
  map_get (contract_map (cs ++ [c])) (contract_key c) = Some c.
Proof.
  intros Hn Hk. rewrite fold_contract_map_app, Hn. apply map_get_dict_set, Hk.
Qed.

Lemma contract_map_last_wins_witness :
  map_get (contract_map ([<["expiry_date" := PStr "2020-01-01"]> works_contract]
                         ++ [works_contract]))
          (PStr "Citywide", PStr "Civil works", PInt 3665) = Some works_contract.
Proof.
  apply (contract_map_last_wins [<["expiry_date" := PStr "2020-01-01"]> works_contract]
           works_contract);
    reflexivity.
Defined.

Section MatchedContract.
Variable c : contract_dict.
Variable cs : list contract_dict.
Hypothesis self_equal : key_eqb (contract_key c) (contract_key c) = true.
Hypothesis unique :
  forall c', In c' cs -> named c' = true ->
             key_eqb (contract_key c') (contract_key c) = true
             \/ key_eqb (contract_key c) (contract_key c') = true ->
             c' = c.

Local Abbreviation good := (holds_contract c).

Lemma dict_set_good (m : list (key * contract_dict)) (c' : contract_dict) :
  In c' cs -> named c' = true -> Forall good m ->
  Forall good (dict_set m (contract_key c') c').
Proof.
  intros Hin Hn Hm. apply dict_set_forall; [exact Hm| |].
  - intros E. cbn [fst] in E. rewrite (unique c' Hin Hn (or_introl E)). reflexivity.
  - intros k' v' Hg E E'. cbn [fst] in E'.
    specialize (Hg E'). injection Hg as -> ->.
    rewrite (unique c' Hin Hn (or_intror E)). reflexivity.
Qed.

Lemma dict_set_keeps (m : list (key * contract_dict)) (c' : contract_dict) :
  In c' cs -> named c' = true ->
  In (contract_key c, c) m -> In (contract_key c, c) (dict_set m (contract_key c') c').
Proof.
  intros Hin Hn. induction m as [|[k v] rest IH]; [contradiction|].
  cbn [dict_set]. intros [He|Hrest].
  - injection He as -> ->.
    destruct (key_eqb (contract_key c) (contract_key c')) eqn:E.
    + rewrite (unique c' Hin Hn (or_intror E)). left. reflexivity.
    + left. reflexivity.
  - destruct (key_eqb k (contract_key c')); right; auto.
Qed.

Lemma dict_set_adds (m : list (key * contract_dict)) :
  Forall good m -> In (contract_key c, c) (dict_set m (contract_key c) c).
Proof.
  induction 1 as [|[k v] rest Hg _ IH]; cbn [dict_set]; [left; reflexivity|].
  destruct (key_eqb k (contract_key c)) eqn:E.
  - specialize (Hg E). injection Hg as -> ->. left. reflexivity.
  - right. exact IH.
Qed.

Lemma map_get_good (m : list (key * contract_dict)) :
  Forall good m -> In (contract_key c, c) m -> map_get m (contract_key c) = Some c.
Proof.
  induction 1 as [|[k v] rest Hg _ IH]; [contradiction|].
  cbn [map_get]. destruct (key_eqb k (contract_key c)) eqn:E.
  - intros _. specialize (Hg E). injection Hg as -> ->. reflexivity.
  - intros [He|Hrest]; [|auto].
    injection He as -> ->. rewrite self_equal in E. discriminate.
Qed.

Lemma fold_good (rest : list contract_dict) : forall m,
  (forall c', In c' rest -> In c' cs) ->
  Forall good m ->
  In (contract_key c, c) m \/ (In c rest /\ named c = true) ->
  let m' := fold_left (fun m c => if named c then dict_set m (contract_key c) c else m) rest m in
  Forall good m' /\ In (contract_key c, c) m'.
Proof.
  induction rest as [|c' rest IH]; intros m Hsub Hm Hfound; cbv zeta; cbn [fold_left].
  - destruct Hfound as [H|[[] _]]. auto.
  - assert (Hc' : In c' cs) by (apply Hsub; left; reflexivity).
    apply IH; [intros x Hx; apply Hsub; right; exact Hx| |].
    + destruct (named c') eqn:Hn; [|exact Hm]. apply dict_set_good; assumption.
    + destruct Hfound as [H|[[->|H] Hn]].
      * left. destruct (named c') eqn:Hn; [|exact H]. apply dict_set_keeps; assumption.
      * left. rewrite Hn. apply dict_set_adds, Hm.
      * right. auto.
Qed.

(** A contract whose key no other contract of the registry shares is what
    its key looks up. *)
Lemma contract_map_lookup :
  In c cs -> named c = true -> map_get (contract_map cs) (contract_key c) = Some c.
Proof.
  intros Hin Hn.
  destruct (fold_good cs [] (fun _ H => H) (List.Forall_nil _) (or_intror (conj Hin Hn)))
    as [Hg Hf].
  apply map_get_good; assumption.
Qed.

End MatchedContract.

Lemma days_between_91 (e t : Z) :
  t <= e ->
  (0 <=? days_between e t) && (days_between e t <=? 90) = (e - t <? ns_91_days).
Proof.
  intros Hle. unfold days_between, ns_91_days.
  assert (H0 : 0 <= (e - t) / (86400 * 1000000000)) by (apply Z.div_pos; lia).
  destruct (Z.ltb_spec (e - t) (91 * 86400 * 1000000000)) as [Hlt|Hge].
  - assert ((e - t) / (86400 * 1000000000) < 91) by (apply Z.div_lt_upper_bound; lia).
    apply andb_true_iff. split; [apply Z.leb_le; lia|apply Z.leb_le; lia].
  - assert (91 <= (e - t) / (86400 * 1000000000)) by (apply Z.div_le_lower_bound; lia).
    apply andb_false_iff. right. apply Z.leb_gt. lia.
Qed.

Section ContractRisk.
Variable to_datetime : cell -> exc (option Z).

(** X4. A record whose cleaned provider or cleaned title is missing
    ([None], NaN or the empty text) matches no entry of the contract map
    built by [add_risk_scores], whatever the registry holds: the map only
    takes contracts with a provider and a title, so the record always
    carries the contract-mismatch penalty of 10. *)
Theorem unnamed_record_is_mismatch
    (r : row) (contracts : list contract_dict) (provider title number : pyval) (s : scores) :
  row_get r "Provider_Clean" = CVal provider ->
  row_get r "ContractTitle_Clean" = CVal title ->
  row_get r "ContractNumber_Clean" = CVal number ->
  no_name provider = true \/ no_name title = true ->
  compute_risk_score to_datetime r (contract_map contracts) = inr s ->
  map_get (contract_map contracts) (provider, title, number) = None
  /\ ContractRisk s = 10.
Proof.
  intros Hp Ht Hn Hmissing Hs.
  assert (Hnone : map_get (contract_map contracts) (provider, title, number) = None).
  { apply map_get_none. eapply List.Forall_impl; [|apply contract_map_named].
    intros [[[k1 k2] k3] v] [H1 H2]. cbn [fst snd] in *. cbn [key_eqb].
    destruct Hmissing as [H|H].
    - rewrite (no_name_not_equal k1 provider H H1). reflexivity.
    - rewrite (no_name_not_equal k2 title H H2), andb_false_r. reflexivity. }
  split; [exact Hnone|].
  unfold compute_risk_score in Hs.
  destruct (fields_of r "FailedFields") as [e|failed]; [discriminate|].
  destruct (fields_of r "ModifiedFields") as [e|modified]; [discriminate|].
  cbn [bind] in Hs.
  destruct (safe_float _) as [e|amount]; [discriminate|]. cbn [bind] in Hs.
  rewrite Hp, Ht, Hn in Hs. cbn [key_of bind ret] in Hs. rewrite Hnone in Hs.
  injection Hs as <-. reflexivity.
Qed.

(** X6. A record whose provider, title and number are the key of a
    contract that has a provider and a title and shares its key with no
    other contract of the registry, when both the contract's expiry and
    the invoice date are read as times: the contract score is 15 if the
    invoice is dated after the expiry, 5 if it is dated at most 90 whole
    days before it (the expiry day itself included), and 0 if earlier. *)
Theorem matched_record_contract_risk
    (r : row) (contracts : list contract_dict) (c : contract_dict)
    (expiry invoice : Z) (s : scores) :
  In c contracts ->
  named c = true ->
  key_eqb (contract_key c) (contract_key c) = true ->
  (forall c', In c' contracts -> named c' = true ->
              key_eqb (contract_key c') (contract_key c) = true
              \/ key_eqb (contract_key c) (contract_key c') = true ->
              c' = c) ->
  row_get r "Provider_Clean" = CVal (get c "service_provider") ->
  row_get r "ContractTitle_Clean" = CVal (get c "contract_title") ->
  row_get r "ContractNumber_Clean" = CVal (get c "contract_number") ->
  to_datetime (CVal (get c "expiry_date")) = inr (Some expiry) ->
  to_datetime (row_get r "InvoiceDate_Clean") = inr (Some invoice) ->
  compute_risk_score to_datetime r (contract_map contracts) = inr s ->
  ContractRisk s
  = if expiry <? invoice then 15 else if expiry - invoice <? ns_91_days then 5 else 0.
Proof.
  intros Hin Hnamed Hself Huniq Hp Ht Hn Hexp Hinv Hs.
  pose proof (contract_map_lookup c contracts Hself Huniq Hin Hnamed) as Hget.
  assert (Hne : bool_decide (c = ∅) = false).
  { apply bool_decide_eq_false. intros ->. discriminate Hnamed. }
  unfold compute_risk_score in Hs.
  destruct (fields_of r "FailedFields") as [e|failed]; [discriminate|].
  destruct (fields_of r "ModifiedFields") as [e|modified]; [discriminate|].
  cbn [bind] in Hs.
  destruct (safe_float _) as [e|amount]; [discriminate|]. cbn [bind] in Hs.
  rewrite Hp, Ht, Hn in Hs. cbn [key_of bind ret] in Hs.
  fold (contract_key c) in Hs. rewrite Hget, Hne in Hs.
  unfold safe_date in Hs. fold (get c "expiry_date") in Hs. rewrite Hexp, Hinv in Hs.
  injection Hs as <-. cbn [ContractRisk].
  destruct (Z.ltb_spec expiry invoice) as [Hlt|Hge]; [reflexivity|].
  rewrite (days_between_91 expiry invoice Hge).
  destruct (expiry - invoice <? ns_91_days); reflexivity.
Qed.

End ContractRisk.

Lemma unnamed_record_is_mismatch_witness :
  map_get (contract_map [works_contract]) (PNone, PNone, PNone) = None
  /\ ContractRisk {| RiskScore := 25; DataQualityRisk := 5; ContractRisk := 10;
                     FinancialRisk := 10 |} = 10.
Proof.
  apply (unnamed_record_is_mismatch (fun _ => inr None) amount_only_row [works_contract]
           PNone PNone PNone); try reflexivity.
  left. reflexivity.
Defined.

Lemma matched_record_contract_risk_witness :
  exists s, compute_risk_score two_dates works_invoice (contract_map [works_contract]) = inr s
            /\ ContractRisk s = 5.
Proof.
  eexists. split; [reflexivity|].
  apply (matched_record_contract_risk two_dates works_invoice [works_contract] works_contract
           (20634 * 86400 * 1000000000) (20605 * 86400 * 1000000000));
    try reflexivity.
  - left. reflexivity.
  - intros c' [<-|[]] _ _. reflexivity.
Defined.

(* --------------------------------------------------------------------- *)
(** *** The provider normalizer and the title resolver *)

Section ProviderRegistry.
Variable token_set_ratio : string -> string -> Z.

(** X7. A provider that [clean_provider] resolves is a name of the
    registry: with either flag the cleaned value is one of the known
    providers, and the flag is [False] exactly when that name is the
    trimmed input.  With an empty registry nothing is resolved. *)
Theorem clean_provider_in_registry
    (provider : pyval) (correct_providers : list string) (b : bool) (v : pyval) :
  clean_provider token_set_ratio provider correct_providers = (Some b, v) ->
  exists p m,
    provider = PStr p /\ v = PStr m /\ In m correct_providers
    /\ (b = false <-> m = strip p)
    /\ correct_providers <> [].
Proof.
  unfold clean_provider, clean_provider_with.
  destruct (negb (truthy provider) || negb (is_str provider)); [discriminate|].
  destruct provider as [| | | |p]; try discriminate.
  unfold strict_pass, lenient_pass.
  assert (Hne : forall q m sc, extractOne token_set_ratio q correct_providers = Some (m, sc) ->
                               In m correct_providers /\ correct_providers <> []).
  { intros q m sc H. destruct (extractOne_sound _ _ _ _ _ H) as (Hin & _).
    split; [exact Hin|]. intros ->. contradiction. }
  assert (Hcase : forall m,
             In m correct_providers /\ correct_providers <> [] ->
             (if negb (String.eqb m (strip p)) then (Some true, PStr m)
              else (Some false, PStr (strip p))) = (Some b, v) ->
             exists p0 m0, PStr p = PStr p0 /\ v = PStr m0 /\ In m0 correct_providers
                           /\ (b = false <-> m0 = strip p0) /\ correct_providers <> []).
  { intros m [Hin Hreg]. destruct (String.eqb m (strip p)) eqn:E; cbn [negb]; intros [= <- <-].
    - apply String.eqb_eq in E. exists p, m. subst m. repeat split; auto.
    - apply String.eqb_neq in E. exists p, m. repeat split; auto; try discriminate.
      intros H. contradiction. }
  destruct (extractOne token_set_ratio (strip p) correct_providers) as [[m sc]|] eqn:E1.
  - destruct (80 <=? sc).
    + destruct (negb (String.eqb m (strip p))) eqn:E; intros H;
        apply (Hcase m (Hne _ _ _ E1)); rewrite E; exact H.
    + destruct (extractOne _ (normalize_provider _) _) as [[m' sc']|] eqn:E2; [|discriminate].
      destruct (60 <? sc'); [|discriminate].
      apply (Hcase m' (Hne _ _ _ E2)).
  - destruct (extractOne _ (normalize_provider _) _) as [[m' sc']|] eqn:E2; [|discriminate].
    destruct (60 <? sc'); [|discriminate].
    apply (Hcase m' (Hne _ _ _ E2)).
Qed.

End ProviderRegistry.

Lemma clean_provider_in_registry_witness :
  exists p m,
    PStr " Citywide " = PStr p /\ PStr "Citywide" = PStr m
    /\ In m ["Citywide"; "Victorian YMCA"]
    /\ (false = false <-> m = strip p)
    /\ ["Citywide"; "Victorian YMCA"] <> [].
Proof.
  apply (clean_provider_in_registry exact_ratio (PStr " Citywide ")
           ["Citywide"; "Victorian YMCA"] false (PStr "Citywide")).
  reflexivity.
Defined.

Section TitleProvenance.
Variable float_repr : float -> string.

Lemma title_by_number_resolved (contracts : list contract) (contract_num raw : pyval)
    (b : bool) (v : pyval) :
  title_by_number float_repr contracts contract_num raw = inr (Some b, v) ->
  b = true /\ exists c n, In c contracts /\ v = contract_title c
                          /\ contract_num = PStr n
                          /\ py_str float_repr (contract_number c) = strip n.
Proof.
  induction contracts as [|c rest IH]; cbn [title_by_number]; [discriminate|].
  destruct contract_num as [| | | |n]; try discriminate. cbn [py_strip bind ret].
  destruct (String.eqb _ (strip n)) eqn:E.
  - intros [= <- <-]. split; [reflexivity|]. exists c, n.
    apply String.eqb_eq in E. repeat split; auto. left. reflexivity.
  - intros H. destruct (IH H) as (Hb & c' & n' & Hin & Hv & Hn & Hs).
    split; [exact Hb|]. exists c', n'. repeat split; auto. right. exact Hin.
Qed.

(** X8. A title that [clean_title] resolves comes from the provider's own
    entry of the index: the cleaned provider is a text with an entry; with
    flag [False] the value is the raw title, which is one of the provider's
    titles; with flag [True] the raw title is none of them and the value is
    the title of one of the provider's contracts -- the only one, or one
    whose number, as text, is the trimmed text of the raw number. *)
Theorem clean_title_from_index
    (provider_clean raw contract_num : pyval) (d : gmap string (list contract))
    (b : bool) (v : pyval) :
  clean_title float_repr provider_clean raw contract_num d = inr (Some b, v) ->
  exists p contracts,
    provider_clean = PStr p /\ d !! p = Some contracts
    /\ if b
       then py_in raw (map contract_title contracts) = false
            /\ exists c, In c contracts /\ v = contract_title c
                         /\ (contracts = [c]
                             \/ exists n, contract_num = PStr n
                                          /\ py_str float_repr (contract_number c) = strip n)
       else v = raw /\ py_in raw (map contract_title contracts) = true.
Proof.
  unfold clean_title.
  destruct (blank float_repr raw && negb (dict_has d provider_clean)); [discriminate|].
  destruct provider_clean as [| | | |p]; cbn [dict_get]; try discriminate.
  destruct (d !! p) as [contracts|] eqn:Hd; [|discriminate].
  destruct contracts as [|c0 rest]; [discriminate|].
  destruct (py_in raw (map contract_title (c0 :: rest))) eqn:Hin; cbn [negb].
  - intros [= <- <-]. exists p, (c0 :: rest). auto.
  - destruct (blank float_repr contract_num); [discriminate|].
    destruct rest as [|c1 rest].
    + intros [= <- <-]. exists p, [c0]. repeat split; auto.
      exists c0. repeat split; auto. left. reflexivity.
    + intros H. destruct (title_by_number_resolved _ _ _ _ _ H)
        as (-> & c & n & Hc & Hv & Hn & Hs).
      exists p, (c0 :: c1 :: rest). repeat split; auto.
      exists c. repeat split; auto. right. exists n. auto.
Qed.

(** X9. With two or more contracts for the provider, a raw title that is
    none of theirs and a raw contract number that is present but is not a
    text (a column of whole numbers is read from CSV as integers),
    [clean_title] raises [AttributeError]: the scan calls [strip] on the
    number. *)
Theorem clean_title_number_not_text
    (p : string) (raw contract_num : pyval) (d : gmap string (list contract))
    (c1 c2 : contract) (rest : list contract) :
  d !! p = Some (c1 :: c2 :: rest) ->
  py_in raw (map contract_title (c1 :: c2 :: rest)) = false ->
  blank float_repr contract_num = false ->
  is_str contract_num = false ->
  clean_title float_repr (PStr p) raw contract_num d = inl AttributeError.
Proof.
  intros Hd Hin Hblank Hstr. unfold clean_title.
  assert (Hhas : dict_has d (PStr p) = true).
  { unfold dict_has. apply bool_decide_eq_true. rewrite Hd. eauto. }
  rewrite Hhas, andb_false_r. cbn [dict_get]. rewrite Hd, Hin, Hblank.
  cbn [negb title_by_number].
  destruct contract_num; try discriminate Hstr; reflexivity.
Qed.

End TitleProvenance.

Lemma clean_title_from_index_witness :
  exists p contracts,
    PStr "Citywide" = PStr p /\ two_contract_index !! p = Some contracts
    /\ py_in (PStr "Tree care") (map contract_title contracts) = false
    /\ exists c, In c contracts /\ PStr "Open spaces" = contract_title c
                 /\ (contracts = [c]
                     \/ exists n, PStr " 3676 " = PStr n
                                  /\ py_str (const_repr "") (contract_number c) = strip n).
Proof.
  apply (clean_title_from_index (const_repr "") (PStr "Citywide") (PStr "Tree care")
           (PStr " 3676 ") two_contract_index true (PStr "Open spaces")).
  reflexivity.
Defined.

Lemma clean_title_number_not_text_witness :
  clean_title (const_repr "3676.0") (PStr "Citywide") (PStr "Tree care") (PInt 3676)
    two_contract_index = inl AttributeError.
Proof.
  apply (clean_title_number_not_text (const_repr "3676.0") "Citywide" (PStr "Tree care")
           (PInt 3676) two_contract_index
           {| contract_title := PStr "Civil works"; contract_number := PInt 3665 |}
           {| contract_title := PStr "Open spaces"; contract_number := PInt 3676 |} []);
    reflexivity.
Defined.

(* --------------------------------------------------------------------- *)
(** *** The amount normalizer: extra decimal points *)

Lemma sforall_app (p : ascii -> bool) (a b : string) :
  sforall p (a ++ b) = sforall p a && sforall p b.
Proof.
  induction a as [|c r IH]; [reflexivity|].
  rewrite append_cons. cbn [sforall]. rewrite IH, andb_assoc. reflexivity.
Qed.

Lemma sexists_app (p : ascii -> bool) (a b : string) :
  sexists p (a ++ b) = sexists p a || sexists p b.
Proof.
  induction a as [|c r IH]; [reflexivity|].
  rewrite append_cons. cbn [sexists]. rewrite IH, orb_assoc. reflexivity.
Qed.

Lemma scount_app (p : ascii -> bool) (a b : string) :
  scount p (a ++ b) = (scount p a + scount p b)%nat.
Proof.
  induction a as [|c r IH]; [reflexivity|].
  rewrite append_cons. cbn [scount]. rewrite IH. lia.
Qed.

Lemma sforall_sfilter_same (p : ascii -> bool) s : sforall p (sfilter p s) = true.
Proof.
  induction s as [|c r IH]; [reflexivity|].
  cbn [sfilter]. destruct (p c) eqn:E; [cbn [sforall]; rewrite E|]; exact IH.
Qed.

Lemma sforall_sfilter (p q : ascii -> bool) s :
  sforall p s = true -> sforall p (sfilter q s) = true.
Proof.
  induction s as [|c r IH]; [reflexivity|].
  cbn [sforall sfilter]. intros [Hc Hr]%andb_true_iff.
  destruct (q c); [cbn [sforall]; rewrite Hc|]; auto.
Qed.

Lemma sexists_sfilter (p q : ascii -> bool) s :
  (forall c, p c = true -> q c = true) -> sexists p (sfilter q s) = sexists p s.
Proof.
  intros Hpq. induction s as [|c r IH]; [reflexivity|].
  cbn [sfilter sexists]. destruct (q c) eqn:E.
  - cbn [sexists]. rewrite IH. reflexivity.
  - destruct (p c) eqn:Ep; [rewrite (Hpq c Ep) in E; discriminate|]. exact IH.
Qed.

Lemma scount_sfilter (p q : ascii -> bool) s :
  (forall c, p c = true -> q c = true) -> scount p (sfilter q s) = scount p s.
Proof.
  intros Hpq. induction s as [|c r IH]; [reflexivity|].
  cbn [sfilter scount]. destruct (q c) eqn:E.
  - cbn [scount]. rewrite IH. reflexivity.
  - destruct (p c) eqn:Ep; [rewrite (Hpq c Ep) in E; discriminate|]. exact IH.
Qed.

Lemma scount_none (p q : ascii -> bool) s :
  (forall c, q c = true -> p c = false) -> sforall q s = true -> scount p s = 0%nat.
Proof.
  intros Hqp. induction s as [|c r IH]; [reflexivity|].
  cbn [sforall scount]. intros [Hc Hr]%andb_true_iff.
  rewrite (Hqp c Hc), IH; auto.
Qed.

Lemma not_dot_no_dot c : not_dot c = true -> Ascii.eqb "." c = false.
Proof. unfold not_dot. rewrite Ascii.eqb_sym. destruct (Ascii.eqb "." c); [discriminate|reflexivity]. Qed.

(** The pieces [collapse_dots] glues: all but the last part of the split,
    joined, and the last part; together they are the text without its
    points, and neither holds a point. *)
Lemma split_dot_parts s :
  let parts := split_char "." s in
  join (removelast parts) ++ List.last parts EmptyString = sfilter not_dot s
  /\ sforall not_dot (join (removelast parts)) = true
  /\ sforall not_dot (List.last parts EmptyString) = true.
Proof.
  cbv zeta. induction s as [|c r IH]; [repeat split; reflexivity|].
  cbn [split_char sfilter]. unfold not_dot at 1. 
  destruct IH as (Hcat & Ha & Hb).
  destruct (Ascii.eqb c ".") eqn:E; cbn [negb].
  - destruct (split_char "." r) as [|h t] eqn:Hs.
    + cbn [removelast List.last join fold_right] in *. auto.
    + replace (removelast (EmptyString :: h :: t)) with (EmptyString :: removelast (h :: t))
        by reflexivity.
      replace (List.last (EmptyString :: h :: t) EmptyString) with (List.last (h :: t) EmptyString)
        by reflexivity.
      unfold join in *. cbn [fold_right]. rewrite append_nil. auto.
  - assert (Hc : not_dot c = true) by (unfold not_dot; rewrite E; reflexivity).
    destruct (split_char "." r) as [|h t] eqn:Hs.
    + cbn [removelast List.last join fold_right] in *. rewrite append_nil in *.
      cbn [sforall]. rewrite Hc. cbn in Hcat. rewrite <- Hcat. auto.
    + destruct t as [|h' t'].
      * cbn [removelast List.last join fold_right] in *. rewrite append_nil in *.
        cbn [sforall]. rewrite Hc, Hb, <- Hcat. auto.
      * replace (removelast (String c h :: h' :: t'))
          with (String c h :: removelast (h' :: t')) by reflexivity.
        replace (removelast (h :: h' :: t')) with (h :: removelast (h' :: t')) in *
          by reflexivity.
        replace (List.last (String c h :: h' :: t') EmptyString)
          with (List.last (h :: h' :: t') EmptyString) by reflexivity.
        unfold join in *. cbn [fold_right] in *.
        rewrite !append_cons. cbn [sforall]. rewrite Hc, <- Hcat. auto.
Qed.

(** Whatever the number of points, [collapse_dots] on digits and points
    leaves a plain decimal if there is a digit at all. *)
Lemma collapse_dots_plain s :
  sforall digit_or_dot s = true -> sexists is_digit s = true ->
  plain_decimal (collapse_dots s) = true.
Proof.
  intros Hall Hdig. unfold collapse_dots. cbv zeta.
  destruct (split_dot_parts s) as (Hcat & Ha & Hb).
  set (a := join (removelast (split_char "." s))) in *.
  set (b := List.last (split_char "." s) EmptyString) in *.
  assert (Hab : sforall digit_or_dot (a ++ b) = true).
  { rewrite Hcat. apply sforall_sfilter. exact Hall. }
  rewrite sforall_app in Hab. apply andb_true_iff in Hab as [Hda Hdb].
  assert (Hdigab : sexists is_digit (a ++ b) = true).
  { rewrite Hcat, sexists_sfilter; [exact Hdig|].
    intros c Hc. unfold not_dot. rewrite Ascii.eqb_sym, (is_digit_not_dot c Hc). reflexivity. }
  rewrite sexists_app in Hdigab.
  unfold plain_decimal.
  rewrite !sforall_app, !scount_app, !sexists_app. cbn [sforall scount sexists].
  rewrite Hda, Hdb.
  rewrite (scount_none (Ascii.eqb ".") not_dot a not_dot_no_dot Ha).
  rewrite (scount_none (Ascii.eqb ".") not_dot b not_dot_no_dot Hb).
  cbn. rewrite orb_false_l. exact Hdigab.
Qed.

Lemma amount_digits_plain s :
  contains_char "m" (lower s) = false -> sexists is_digit s = true ->
  plain_decimal (amount_digits s) = true.
Proof.
  intros Hm Hdig. unfold amount_digits. cbv zeta. rewrite Hm.
  assert (Hall : sforall digit_or_dot (digits_and_dots s) = true)
    by apply sforall_sfilter_same.
  assert (Hd : sexists is_digit (digits_and_dots s) = true).
  { unfold digits_and_dots. rewrite sexists_sfilter; [exact Hdig|].
    intros c Hc. rewrite Hc. reflexivity. }
  destruct (1 <? scount (Ascii.eqb ".") (digits_and_dots s))%nat eqn:E.
  - apply collapse_dots_plain; assumption.
  - unfold plain_decimal. fold digit_or_dot. rewrite Hall, Hd.
    apply Nat.ltb_ge in E. apply Nat.leb_le in E. rewrite E. reflexivity.
Qed.

Section AmountDots.
Variable float_repr : float -> string.

(** X10. An amount that is present, has no letter [m] and has at least
    one digit is always resolved: its digits and points, with every point
    but the last dropped when there are several, are a plain decimal that
    [float] reads; the flag is [False] exactly when that text is the
    trimmed text of the amount. *)
Theorem clean_invoice_amount_resolves (amount : pyval) :
  isna amount = false ->
  contains_char "m" (lower (py_str float_repr amount)) = false ->
  sexists is_digit (py_str float_repr amount) = true ->
  plain_decimal (amount_digits (py_str float_repr amount)) = true
  /\ exists v,
       float_of_string (amount_digits (py_str float_repr amount)) = Some v
       /\ clean_invoice_amount float_repr amount
          = (Some (negb (String.eqb (amount_digits (py_str float_repr amount))
                                    (strip (py_str float_repr amount)))),
             PFloat v).
Proof.
  intros Hna Hm Hdig.
  pose proof (amount_digits_plain _ Hm Hdig) as Hplain.
  split; [exact Hplain|].
  destruct (float_of_string_plain _ Hplain) as [v Hv]. exists v. split; [exact Hv|].
  unfold clean_invoice_amount.
  change (match amount with PNone => true | PFloat f => is_nan f | _ => false end)
    with (isna amount).
  rewrite Hna, str_of_text, millions_marker, Hm, plain_remainder.
  unfold amount_digits in Hv. cbv zeta in Hv. rewrite Hm in Hv.
  unfold amount_digits. cbv zeta. rewrite Hm.
  destruct (1 <? scount (Ascii.eqb ".") (digits_and_dots (py_str float_repr amount)))%nat;
    rewrite Hv; reflexivity.
Qed.

End AmountDots.

Lemma clean_invoice_amount_resolves_witness :
  plain_decimal (amount_digits "$1.234.567,50 AUD") = true
  /\ exists v,
       float_of_string (amount_digits "$1.234.567,50 AUD") = Some v
       /\ clean_invoice_amount (const_repr "") (PStr "$1.234.567,50 AUD")
          = (Some (negb (String.eqb (amount_digits "$1.234.567,50 AUD")
                                    (strip "$1.234.567,50 AUD"))),
             PFloat v).
Proof.
  apply (clean_invoice_amount_resolves (const_repr "") (PStr "$1.234.567,50 AUD"));
    reflexivity.
Defined.

Lemma dot_rest (rest : string) :
  (rest = EmptyString \/ exists r, rest = String "." r) ->
  (1 <= scount (Ascii.eqb ".") rest)%nat -> exists r, rest = String "." r.
Proof. intros [->|H]; [cbn; lia|auto]. Qed.

(** [float] reads no text of digits and points that has two points. *)
Lemma float_of_string_two_dots s :
  sforall digit_or_dot s = true -> (2 <= scount (Ascii.eqb ".") s)%nat ->
  float_of_string s = None.
Proof.
  intros Hall Hdots. unfold float_of_string.
  rewrite (float_strip_id s Hall).
  destruct s as [|c r]; [cbn in Hdots; lia|].
  pose proof Hall as Hall'. cbn [sforall] in Hall'.
  apply andb_true_iff in Hall' as [Hc Hr].
  destruct (plain_head c r Hc) as (-> & -> & -> & ->). cbn [orb].
  assert (Hnum : match parse_number (String c r) with
                 | Some (_, _, rest) => exists r', rest = String "." r'
                 | None => True
                 end).
  { unfold parse_number. destruct (digit_or_dot_cases c Hc) as [->|Hd].
    - cbn [digitpart]. change (is_digit ".") with false. cbv iota.
      cbn [scount] in Hdots. change (Ascii.eqb "." ".") with true in Hdots.
      destruct r as [|c2 r2]; [cbn in Hdots; lia|].
      cbn [sforall] in Hr. apply andb_true_iff in Hr as [Hc2 Hr2].
      cbn [digitpart]. destruct (is_digit c2) eqn:Hd2; [|exact I].
      destruct (digits_more_plain r2 (0 * 10 + digit_val c2) 1 Hr2)
        as (acc & n & rest & -> & Hshape & _ & Hcount).
      cbn [scount] in Hdots. rewrite (is_digit_not_dot c2 Hd2) in Hdots.
      apply (dot_rest rest Hshape). lia.
    - cbn [digitpart]. rewrite Hd.
      destruct (digits_more_plain r (0 * 10 + digit_val c) 1 Hr)
        as (acc & n & rest & -> & Hshape & Hrest & Hcount).
      cbn [scount] in Hdots. rewrite (is_digit_not_dot c Hd) in Hdots.
      destruct (dot_rest rest Hshape ltac:(lia)) as [r' ->].
      cbn [scount] in Hcount. change (Ascii.eqb "." ".") with true in Hcount.
      cbn [sforall] in Hrest. apply andb_true_iff in Hrest as [_ Hr'].
      destruct r' as [|c2 r2]; [cbn in Hcount; lia|].
      cbn [sforall] in Hr'. apply andb_true_iff in Hr' as [Hc2 Hr2].
      cbn [digitpart]. destruct (is_digit c2) eqn:Hd2.
      + destruct (digits_more_plain r2 (acc * 10 + digit_val c2) 1 Hr2)
          as (acc2 & n2 & rest2 & -> & Hshape2 & _ & Hcount2).
        cbn [scount] in Hcount. rewrite (is_digit_not_dot c2 Hd2) in Hcount.
        apply (dot_rest rest2 Hshape2). cbn in Hcount. lia.
      + destruct (digit_or_dot_cases c2 Hc2) as [->|Hd2']; [|congruence].
        eauto. }
  destruct (parse_number (String c r)) as [[[m k] rest]|]; [|reflexivity].
  destruct Hnum as [r' ->]. reflexivity.
Qed.

Section MillionsDots.
Variable float_repr : float -> string.

(** X11. On the millions branch extra points are not dropped: an amount
    that holds the letter [m] and two or more points is unresolved, its
    value the trimmed text -- where the same text without the [m], if it
    holds a digit, would be resolved. *)
Theorem clean_invoice_amount_millions_two_dots (amount : pyval) :
  isna amount = false ->
  contains_char "m" (lower (py_str float_repr amount)) = true ->
  (2 <= scount (Ascii.eqb ".") (py_str float_repr amount))%nat ->
  clean_invoice_amount float_repr amount = (None, PStr (strip (py_str float_repr amount))).
Proof.
  intros Hna Hm Hdots. unfold clean_invoice_amount.
  change (match amount with PNone => true | PFloat f => is_nan f | _ => false end)
    with (isna amount).
  rewrite Hna, str_of_text, millions_marker, Hm, millions_remainder.
  rewrite float_of_string_two_dots; [reflexivity| |].
  - apply sforall_sfilter_same.
  - unfold digits_and_dots. rewrite scount_sfilter; [exact Hdots|].
    intros c Hc. rewrite Ascii.eqb_sym in Hc. rewrite Hc. apply orb_true_r.
Qed.

End MillionsDots.

Lemma clean_invoice_amount_millions_two_dots_witness :
  clean_invoice_amount (const_repr "") (PStr "1.234.5m") = (None, PStr "1.234.5m").
Proof.
  apply (clean_invoice_amount_millions_two_dots (const_repr "") (PStr "1.234.5m"));
    (reflexivity || (vm_compute; lia)).
Defined.

(* --------------------------------------------------------------------- *)
(** *** The date normalizer: what it returns *)

Lemma digit_val_char k : 0 <= k <= 9 -> digit_val (digit_char k) = k.
Proof. intros H. apply (digit_char_spec k H). Qed.

(** The text [YYYY-MM-DD] of a valid date is read as that date. *)
Lemma iso_date_text_of_iso_text (d : date) :
  valid_date d = true -> iso_date_text (iso_text d) = Some d.
Proof.
  intros Hv. destruct (valid_date_bounds d Hv) as (Hy & Hm & Hd).
  unfold iso_text, pad4, pad2.
  repeat (rewrite ?append_cons, ?append_nil).
  unfold iso_date_text. cbn [forallb].
  repeat match goal with
         | |- context [is_digit (digit_char ?k)] =>
             rewrite (proj1 (digit_char_spec k (mod10_range _)))
         end.
  cbn [andb]. change (Ascii.eqb "-" "-") with true. cbv iota.
  rewrite !digit_val_char by apply mod10_range.
  replace (1000 * (year d / 1000 mod 10) + 100 * (year d / 100 mod 10)
           + 10 * (year d / 10 mod 10) + year d mod 10) with (year d)
    by (Z.to_euclidean_division_equations; lia).
  replace (10 * (month d / 10 mod 10) + month d mod 10) with (month d)
    by (Z.to_euclidean_division_equations; lia).
  replace (10 * (day d / 10 mod 10) + day d mod 10) with (day d)
    by (Z.to_euclidean_division_equations; lia).
  replace {| year := year d; month := month d; day := day d |} with d by (destruct d; reflexivity).
  rewrite Hv. reflexivity.
Qed.

Lemma strptime_valid (data fmt : string) (d : date) :
  strptime data fmt = Some d -> valid_date d = true.
Proof.
  unfold strptime. destruct (parse_format fmt); [|discriminate].
  destruct (match_tokens _ _ _) as [|[p rest] tl]; [discriminate|].
  destruct (String.eqb rest ""); [|discriminate].
  destruct (valid_date p) eqn:E; [|discriminate]. intros [= <-]. exact E.
Qed.

Lemma try_formats_resolved (fmts : list string) (c o : string) (b : bool) (v : pyval) :
  try_formats fmts c o = (Some b, v) ->
  exists d, valid_date d = true /\ v = PStr (strftime_iso d)
            /\ (b = false <-> strftime_iso d = o).
Proof.
  induction fmts as [|fmt rest IH]; cbn [try_formats]; [discriminate|].
  destruct (strptime c fmt) as [d|] eqn:E; [|exact IH].
  pose proof (strptime_valid _ _ _ E) as Hv.
  destruct (String.eqb (strftime_iso d) o) eqn:Eo; cbn [negb]; intros [= <- <-].
  - apply String.eqb_eq in Eo. exists d. rewrite Eo. repeat split; auto.
  - apply String.eqb_neq in Eo. exists d. repeat split; auto; try discriminate.
    intros H. contradiction.
Qed.

(** X12. Whatever [clean_date] resolves is what [strftime] writes for a
    valid date, and the flag is [False] exactly when that text is the
    trimmed input.  For a date from the year 1000 on the cleaned value is
    a valid ISO text [YYYY-MM-DD], and cleaning it again returns it flagged
    as unchanged.  For an earlier year it is shorter and no ISO text. *)
Theorem clean_date_returns_strftime (date_str : pyval) (b : bool) (v : pyval) :
  clean_date date_str = (Some b, v) ->
  exists s d,
    date_str = PStr s /\ valid_date d = true /\ v = PStr (strftime_iso d)
    /\ (b = false <-> strftime_iso d = strip s)
    /\ (1000 <= year d ->
        is_iso_date (strftime_iso d) = true /\ clean_date v = (Some false, v))
    /\ (year d < 1000 -> is_iso_date (strftime_iso d) = false).
Proof.
  unfold clean_date at 1.
  destruct date_str as [| | | |s]; try discriminate.
  destruct (String.eqb (strip s) ""); [discriminate|].
  intros H. destruct (try_formats_resolved _ _ _ _ _ H) as (d & Hv & -> & Hb).
  exists s, d. split; [reflexivity|]. split; [exact Hv|]. split; [reflexivity|].
  split; [exact Hb|]. split.
  - intros Hlong. rewrite (strftime_iso_long d Hv Hlong). split.
    + unfold is_iso_date. rewrite (iso_date_text_of_iso_text d Hv). reflexivity.
    + exact (clean_date_iso d Hv Hlong).
  - intros Hshort. pose proof (strftime_iso_short d Hv Hshort) as Hlen.
    unfold is_iso_date. destruct (iso_date_text (strftime_iso d)) as [d'|] eqn:E; [|reflexivity].
    destruct (iso_date_text_spec _ _ E) as [_ Heq].
    rewrite <- Heq, iso_text_length in Hlen. lia.
Qed.

Lemma clean_date_returns_strftime_witness :
  exists s d,
    PStr " 1 March 2025 " = PStr s /\ valid_date d = true
    /\ PStr "2025-03-01" = PStr (strftime_iso d)
    /\ (true = false <-> strftime_iso d = strip s)
    /\ (1000 <= year d ->
        is_iso_date (strftime_iso d) = true
        /\ clean_date (PStr "2025-03-01") = (Some false, PStr "2025-03-01"))
    /\ (year d < 1000 -> is_iso_date (strftime_iso d) = false).
Proof.
  apply (clean_date_returns_strftime (PStr " 1 March 2025 ") true (PStr "2025-03-01")).
  reflexivity.
Defined.

(* --------------------------------------------------------------------- *)
(** *** The date normalizer: the order of the formats *)

Lemma flat_map_flat_map {A B C} (f : A -> list B) (g : B -> list C) (l : list A) :
  flat_map g (flat_map f l) = flat_map (fun x => flat_map g (f x)) l.
Proof.
  induction l as [|x l IH]; [reflexivity|].
  cbn [flat_map]. rewrite List.flat_map_app, IH. reflexivity.
Qed.

Lemma match_tokens_app (ts1 ts2 : list token) : forall (s : string) (p : date),
  match_tokens (ts1 ++ ts2) s p
  = flat_map (fun '(p', s') => match_tokens ts2 s' p') (match_tokens ts1 s p).
Proof.
  induction ts1 as [|t ts1 IH]; intros s p; cbn [app match_tokens].
  - cbn [flat_map]. rewrite app_nil_r. reflexivity.
  - rewrite flat_map_flat_map. apply flat_map_ext. intros [p' s']. apply IH.
Qed.

Lemma month_cases m :
  1 <= m <= 12 ->
  m = 1 \/ m = 2 \/ m = 3 \/ m = 4 \/ m = 5 \/ m = 6 \/ m = 7 \/ m = 8 \/ m = 9
  \/ m = 10 \/ m = 11 \/ m = 12.
Proof. lia. Qed.

Lemma low_day_cases d :
  1 <= d <= 12 ->
  d = 1 \/ d = 2 \/ d = 3 \/ d = 4 \/ d = 5 \/ d = 6 \/ d = 7 \/ d = 8 \/ d = 9
  \/ d = 10 \/ d = 11 \/ d = 12.
Proof. lia. Qed.

Lemma high_day_cases d :
  13 <= d <= 31 ->
  d = 13 \/ d = 14 \/ d = 15 \/ d = 16 \/ d = 17 \/ d = 18 \/ d = 19 \/ d = 20
  \/ d = 21 \/ d = 22 \/ d = 23 \/ d = 24 \/ d = 25 \/ d = 26 \/ d = 27 \/ d = 28
  \/ d = 29 \/ d = 30 \/ d = 31.
Proof. lia. Qed.

Ltac each_case H := repeat (destruct H as [->|H]); try subst.

(** Day, dash, month, dash: on the digits [strftime] writes, the only
    match. *)
Lemma match_day_month (d m : Z) (rest : string) (p : date) :
  1 <= d <= 31 -> 1 <= m <= 12 ->
  match_tokens [Dir Dir_d; Lit "-"; Dir Dir_m; Lit "-"] (pad2 d ++ "-" ++ pad2 m ++ "-" ++ rest) p
  = [(set_month m (set_day d p), rest)].
Proof.
  intros Hd Hm. pose proof (month_cases m Hm) as Em.
  destruct (Z.le_gt_cases d 12) as [Hlo|Hhi].
  - pose proof (low_day_cases d ltac:(lia)) as Ed. clear Hd Hm Hlo.
    each_case Em; each_case Ed; reflexivity.
  - pose proof (high_day_cases d ltac:(lia)) as Ed. clear Hd Hm Hhi.
    each_case Em; each_case Ed; reflexivity.
Qed.

(** Month, dash, day, dash: likewise. *)
Lemma match_month_then_day (m d : Z) (rest : string) (p : date) :
  1 <= m <= 12 -> 1 <= d <= 31 ->
  match_tokens [Dir Dir_m; Lit "-"; Dir Dir_d; Lit "-"] (pad2 m ++ "-" ++ pad2 d ++ "-" ++ rest) p
  = [(set_day d (set_month m p), rest)].
Proof.
  intros Hm Hd. pose proof (month_cases m Hm) as Em.
  destruct (Z.le_gt_cases d 12) as [Hlo|Hhi].
  - pose proof (low_day_cases d ltac:(lia)) as Ed. clear Hd Hm Hlo.
    each_case Em; each_case Ed; reflexivity.
  - pose proof (high_day_cases d ltac:(lia)) as Ed. clear Hd Hm Hhi.
    each_case Em; each_case Ed; reflexivity.
Qed.

(** A day above 12 is no month: the day-first pattern does not match a
    month-first text of such a day. *)
Lemma no_match_high_day (m d : Z) (rest : string) (p : date) :
  1 <= m <= 12 -> 13 <= d <= 31 ->
  match_tokens [Dir Dir_d; Lit "-"; Dir Dir_m; Lit "-"] (pad2 m ++ "-" ++ pad2 d ++ "-" ++ rest) p
  = [].
Proof.
  intros Hm Hd. pose proof (month_cases m Hm) as Em.
  pose proof (high_day_cases d Hd) as Ed. clear Hd Hm.
  each_case Em; each_case Ed; reflexivity.
Qed.

Lemma append_nil_r (s : string) : s ++ "" = s.
Proof. induction s as [|c r IH]; [reflexivity|]. rewrite append_cons, IH. reflexivity. Qed.

Lemma append_assoc (a b c : string) : (a ++ b) ++ c = a ++ (b ++ c).
Proof. induction a as [|x r IH]; [reflexivity|]. rewrite !append_cons, IH. reflexivity. Qed.

(** The ISO pattern does not match a text that starts with two digits and
    a dash. *)
Lemma iso_no_match (n : Z) (rest : string) (ts : list token) (p : date) :
  match_tokens (Dir DirY :: ts) (pad2 n ++ "-" ++ rest) p = [].
Proof.
  unfold pad2. rewrite !append_cons, append_nil.
  cbn [match_tokens match_token re_Y match_alts match_branch].
  destruct (digit_char_spec (n / 10 mod 10) (mod10_range _)) as (-> & _).
  destruct (digit_char_spec (n mod 10) (mod10_range _)) as (-> & _).
  reflexivity.
Qed.

Lemma strptime_day_first (d : date) :
  valid_date d = true ->
  strptime (pad2 (day d) ++ "-" ++ pad2 (month d) ++ "-" ++ pad4 (year d)) "%Y-%m-%d" = None
  /\ strptime (pad2 (day d) ++ "-" ++ pad2 (month d) ++ "-" ++ pad4 (year d)) "%d-%m-%Y"
     = Some d.
Proof.
  intros Hv. destruct (valid_date_bounds d Hv) as (Hy & Hm & Hd).
  unfold strptime. split.
  - change (parse_format "%Y-%m-%d")
      with (Some [Dir DirY; Lit "-"; Dir Dir_m; Lit "-"; Dir Dir_d]).
    cbv iota. rewrite iso_no_match. reflexivity.
  - change (parse_format "%d-%m-%Y")
      with (Some ([Dir Dir_d; Lit "-"; Dir Dir_m; Lit "-"] ++ [Dir DirY])%list).
    cbv iota. rewrite match_tokens_app, match_day_month by assumption.
    cbn [flat_map]. rewrite app_nil_r.
    rewrite <- (append_nil_r (pad4 (year d))), match_year by lia.
    cbn [match_tokens]. cbn [String.eqb].
    replace (set_year (year d) (set_month (month d) (set_day (day d) date0))) with d
      by (destruct d; reflexivity).
    rewrite Hv. reflexivity.
Qed.

Lemma strptime_month_first (d : date) :
  valid_date d = true -> 13 <= day d ->
  strptime (pad2 (month d) ++ "-" ++ pad2 (day d) ++ "-" ++ pad4 (year d)) "%Y-%m-%d" = None
  /\ strptime (pad2 (month d) ++ "-" ++ pad2 (day d) ++ "-" ++ pad4 (year d)) "%d-%m-%Y" = None
  /\ strptime (pad2 (month d) ++ "-" ++ pad2 (day d) ++ "-" ++ pad4 (year d)) "%m-%d-%Y"
     = Some d.
Proof.
  intros Hv Hhigh. destruct (valid_date_bounds d Hv) as (Hy & Hm & Hd).
  unfold strptime. split; [|split].
  - change (parse_format "%Y-%m-%d")
      with (Some [Dir DirY; Lit "-"; Dir Dir_m; Lit "-"; Dir Dir_d]).
    cbv iota. rewrite iso_no_match. reflexivity.
  - change (parse_format "%d-%m-%Y")
      with (Some ([Dir Dir_d; Lit "-"; Dir Dir_m; Lit "-"] ++ [Dir DirY])%list).
    cbv iota. rewrite match_tokens_app, no_match_high_day by lia. reflexivity.
  - change (parse_format "%m-%d-%Y")
      with (Some ([Dir Dir_m; Lit "-"; Dir Dir_d; Lit "-"] ++ [Dir DirY])%list).
    cbv iota. rewrite match_tokens_app, match_month_then_day by assumption.
    cbn [flat_map]. rewrite app_nil_r.
    rewrite <- (append_nil_r (pad4 (year d))), match_year by lia.
    cbn [match_tokens]. cbn [String.eqb].
    replace (set_year (year d) (set_day (day d) (set_month (month d) date0))) with d
      by (destruct d; reflexivity).
    rewrite Hv. reflexivity.
Qed.

Lemma replace_char_app (a : ascii) (b s t : string) :
  replace_char a b (s ++ t) = replace_char a b s ++ replace_char a b t.
Proof.
  induction s as [|c r IH]; [reflexivity|].
  rewrite append_cons. cbn [replace_char]. rewrite IH.
  destruct (Ascii.eqb c a); [rewrite append_assoc|rewrite append_cons]; reflexivity.
Qed.

Lemma replace_char_keep (p : ascii -> bool) (a : ascii) (b s : string) :
  p a = false -> sforall p s = true -> replace_char a b s = s.
Proof.
  intros Ha. induction s as [|c r IH]; [reflexivity|].
  cbn [sforall replace_char]. intros [Hc Hr]%andb_true_iff.
  destruct (Ascii.eqb c a) eqn:E.
  - apply Ascii.eqb_eq in E. subst c. congruence.
  - rewrite IH; auto.
Qed.

Lemma digit_or_slash_not_space c : digit_or_slash c = true -> is_space c = false.
Proof. each_ascii c; vm_compute; congruence. Qed.

Lemma pad2_digits n : sforall is_digit (pad2 n) = true.
Proof.
  unfold pad2. cbn [sforall].
  destruct (digit_char_spec (n / 10 mod 10) (mod10_range _)) as (-> & _).
  destruct (digit_char_spec (n mod 10) (mod10_range _)) as (-> & _). reflexivity.
Qed.

Lemma pad4_digits n : sforall is_digit (pad4 n) = true.
Proof.
  unfold pad4. cbn [sforall]. rewrite pad2_digits.
  destruct (digit_char_spec (n / 1000 mod 10) (mod10_range _)) as (-> & _).
  destruct (digit_char_spec (n / 100 mod 10) (mod10_range _)) as (-> & _). reflexivity.
Qed.

Lemma sforall_weaken (p q : ascii -> bool) s :
  (forall c, p c = true -> q c = true) -> sforall p s = true -> sforall q s = true.
Proof.
  intros Hpq. induction s as [|c r IH]; [reflexivity|].
  cbn [sforall]. intros [Hc Hr]%andb_true_iff. rewrite (Hpq c Hc), IH; auto.
Qed.

(** What [clean_date] hands to [strptime] for digits around two slashes:
    the same with dashes. *)
Lemma date_text_slashes (a b c : string) :
  sforall is_digit a = true -> sforall is_digit b = true -> sforall is_digit c = true ->
  strip (a ++ "/" ++ b ++ "/" ++ c) = a ++ "/" ++ b ++ "/" ++ c
  /\ date_text (a ++ "/" ++ b ++ "/" ++ c) = a ++ "-" ++ b ++ "-" ++ c.
Proof.
  intros Ha Hb Hc.
  assert (Hds : forall s, sforall is_digit s = true -> sforall digit_or_slash s = true).
  { intros s. apply sforall_weaken. intros x Hx. unfold digit_or_slash. rewrite Hx. reflexivity. }
  assert (Hall : sforall digit_or_slash (a ++ "/" ++ b ++ "/" ++ c) = true).
  { rewrite !sforall_app. cbn [sforall]. rewrite !Hds by assumption. reflexivity. }
  assert (Hstrip : strip (a ++ "/" ++ b ++ "/" ++ c) = a ++ "/" ++ b ++ "/" ++ c)
    by (apply (strip_id digit_or_slash); [exact digit_or_slash_not_space|exact Hall]).
  split; [exact Hstrip|].
  unfold date_text. rewrite Hstrip.
  rewrite (replace_char_keep digit_or_slash "," "" _ eq_refl Hall).
  rewrite !replace_char_app.
  rewrite (replace_char_keep is_digit "/" "-" a eq_refl Ha).
  rewrite (replace_char_keep is_digit "/" "-" b eq_refl Hb).
  rewrite (replace_char_keep is_digit "/" "-" c eq_refl Hc).
  change (replace_char "/" "-" "/") with "-".
  rewrite (replace_char_keep is_digit " " "-" a eq_refl Ha).
  rewrite (replace_char_keep is_digit " " "-" b eq_refl Hb).
  rewrite (replace_char_keep is_digit " " "-" c eq_refl Hc).
  reflexivity.
Qed.

Lemma iso_not_slashed (d : date) (n : Z) (rest : string) :
  valid_date d = true -> String.eqb (strftime_iso d) (pad2 n ++ "/" ++ rest) = false.
Proof.
  intros Hv. apply String.eqb_neq. intros H.
  pose proof (strftime_iso_chars d Hv) as Hc. rewrite H in Hc.
  unfold pad2 in Hc. rewrite !append_cons, !append_nil in Hc. cbn [sforall] in Hc.
  change (digit_or_dash "/") with false in Hc.
  rewrite andb_false_l, !andb_false_r in Hc. discriminate Hc.
Qed.

Lemma swap_valid (d : date) :
  valid_date d = true -> day d <= 12 -> valid_date (swap_day_month d) = true.
Proof.
  intros Hv Hlow. destruct (valid_date_bounds d Hv) as (Hy & Hm & Hd).
  unfold valid_date, swap_day_month. cbn [year month day].
  assert (28 <= days_in_month (year d) (day d)).
  { unfold days_in_month. destruct (day d =? 2); [destruct (is_leap (year d)); lia|].
    destruct ((day d =? 4) || (day d =? 6) || (day d =? 9) || (day d =? 11)); lia. }
  repeat (apply andb_true_iff; split); apply Z.leb_le; lia.
Qed.

Lemma clean_date_day_first (d : date) :
  valid_date d = true ->
  clean_date (PStr (day_first_text d)) = (Some true, PStr (strftime_iso d)).
Proof.
  intros Hv. unfold clean_date, day_first_text.
  destruct (date_text_slashes (pad2 (day d)) (pad2 (month d)) (pad4 (year d))
              (pad2_digits _) (pad2_digits _) (pad4_digits _)) as [Hstrip Htext].
  unfold date_text in Htext. rewrite Hstrip in Htext. rewrite Hstrip, Htext.
  replace (String.eqb (pad2 (day d) ++ "/" ++ pad2 (month d) ++ "/" ++ pad4 (year d)) "")
    with false by (unfold pad2; reflexivity).
  destruct (strptime_day_first d Hv) as [H1 H2].
  cbn [formats try_formats]. rewrite H1, H2, (iso_not_slashed d _ _ Hv). reflexivity.
Qed.

(** X13. The formats are tried in a fixed order, day-first before
    month-first.  The text [DD/MM/YYYY] of any valid date is cleaned to
    that date.  The text [MM/DD/YYYY] is cleaned to its date only when the
    day is above 12; when the day is 12 or less it is read day-first, and
    the cleaned date has day and month exchanged. *)
Theorem clean_date_day_before_month (d : date) :
  valid_date d = true ->
  clean_date (PStr (day_first_text d)) = (Some true, PStr (strftime_iso d))
  /\ (13 <= day d ->
      clean_date (PStr (month_first_text d)) = (Some true, PStr (strftime_iso d)))
  /\ (day d <= 12 ->
      clean_date (PStr (month_first_text d))
      = (Some true, PStr (strftime_iso (swap_day_month d)))).
Proof.
  intros Hv. split; [exact (clean_date_day_first d Hv)|]. split.
  - intros Hhigh. unfold clean_date, month_first_text.
    destruct (date_text_slashes (pad2 (month d)) (pad2 (day d)) (pad4 (year d))
                (pad2_digits _) (pad2_digits _) (pad4_digits _)) as [Hstrip Htext].
    unfold date_text in Htext. rewrite Hstrip in Htext. rewrite Hstrip, Htext.
    replace (String.eqb (pad2 (month d) ++ "/" ++ pad2 (day d) ++ "/" ++ pad4 (year d)) "")
      with false by (unfold pad2; reflexivity).
    destruct (strptime_month_first d Hv Hhigh) as (H1 & H2 & H3).
    cbn [formats try_formats]. rewrite H1, H2, H3, (iso_not_slashed d _ _ Hv). reflexivity.
  - intros Hlow.
    change (month_first_text d) with (day_first_text (swap_day_month d)).
    apply clean_date_day_first, swap_valid; assumption.
Qed.

Lemma clean_date_day_before_month_witness :
  clean_date (PStr "04/03/2025") = (Some true, PStr "2025-03-04")
  /\ clean_date (PStr "03/25/2025") = (Some true, PStr "2025-03-25")
  /\ clean_date (PStr "03/04/2025") = (Some true, PStr "2025-04-03").
Proof.
  split; [|split].
  - apply (clean_date_day_before_month {| year := 2025; month := 3; day := 4 |}). reflexivity.
  - apply (clean_date_day_before_month {| year := 2025; month := 3; day := 25 |});
      [reflexivity|vm_compute; discriminate].
  - apply (clean_date_day_before_month {| year := 2025; month := 3; day := 4 |});
      [reflexivity|vm_compute; discriminate].
Defined.


(* --------------------------------------------------------------------- *)
(** *** The issue ledger, in general *)

Lemma init_list_col_columns (col : string) (df : frame) (c : string) :
  c ∈ columns (init_list_col col df) <-> c ∈ columns df \/ c = col.
Proof.
  unfold init_list_col. destruct (bool_decide (col ∈ columns df)) eqn:Hin; cbn [columns].
  - apply bool_decide_eq_true in Hin. split; [tauto|]. intros [H| ->]; assumption.
  - rewrite elem_of_app, list_elem_of_singleton. tauto.
Qed.

Section LedgerFrame.
Variables failed_col modified_col : string.
Hypothesis distinct : failed_col <> modified_col.
Hypothesis failed_no_flag : ends_with "_Flag" failed_col = false.
Hypothesis modified_no_flag : ends_with "_Flag" modified_col = false.

Local Abbreviation out df := (record_issue_with df failed_col modified_col).

Lemma record_issue_with_columns (df : frame) :
  (forall c, c ∈ columns (out df) <-> c ∈ columns df \/ c = failed_col \/ c = modified_col)
  /\ flag_columns (out df) = flag_columns df.
Proof.
  unfold record_issue_with.
  destruct (init_list_col_spec failed_col df) as (_ & _ & Hflags1).
  destruct (init_list_col_spec modified_col (init_list_col failed_col df)) as (_ & _ & Hflags2).
  rewrite failed_no_flag in Hflags1. rewrite modified_no_flag in Hflags2.
  cbn [andb] in Hflags1, Hflags2. rewrite app_nil_r in Hflags1, Hflags2.
  destruct (record_flags_rows failed_col modified_col
              (List.filter (ends_with "_Flag")
                 (columns (init_list_col modified_col (init_list_col failed_col df))))
              (init_list_col modified_col (init_list_col failed_col df))) as [Hcols _].
  split.
  - intros c. rewrite Hcols, !init_list_col_columns. tauto.
  - unfold flag_columns. rewrite Hcols, Hflags2, Hflags1. reflexivity.
Qed.

Lemma record_issue_with_rows (df : frame) :
  List.length (rows (out df)) = List.length (rows df)
  /\ forall (i : nat) (r : row), nth_error (rows df) i = Some r ->
       exists r',
         nth_error (rows (out df)) i = Some r'
         /\ r' !! failed_col
            = Some (CList (ledger_on_entry df failed_col r
                           ++ flagged cell_isna (flag_columns df) r))
         /\ r' !! modified_col
            = Some (CList (ledger_on_entry df modified_col r
                           ++ flagged cell_is_true (flag_columns df) r))
         /\ (forall c, c <> failed_col -> c <> modified_col -> r' !! c = r !! c).
Proof.
  unfold record_issue_with.
  destruct (init_list_col_spec failed_col df) as (Hrows1 & Hcols1 & Hflags1).
  destruct (init_list_col_spec modified_col (init_list_col failed_col df))
    as (Hrows2 & _ & Hflags2).
  rewrite failed_no_flag in Hflags1. rewrite modified_no_flag in Hflags2.
  cbn [andb] in Hflags1, Hflags2. rewrite app_nil_r in Hflags1, Hflags2.
  rewrite Hflags2, Hflags1. fold (flag_columns df).
  destruct (record_flags_rows failed_col modified_col (flag_columns df)
              (init_list_col modified_col (init_list_col failed_col df))) as [_ ->].
  rewrite Hrows2, Hrows1, !map_map. split; [apply length_map|].
  intros i r Hr. rewrite nth_error_map, Hr. cbn [option_map].
  eexists. split; [reflexivity|].
  set (r1 := <[failed_col := CList (ledger_on_entry df failed_col r)]> r).
  assert (Hentry : ledger_on_entry (init_list_col failed_col df) modified_col r1
                   = ledger_on_entry df modified_col r).
  { unfold ledger_on_entry.
    rewrite (bool_decide_ext _ _ (Hcols1 modified_col (not_eq_sym distinct))).
    unfold cell_at, r1. rewrite lookup_insert_ne by exact distinct. reflexivity. }
  rewrite Hentry.
  set (r2 := <[modified_col := CList (ledger_on_entry df modified_col r)]> r1).
  assert (Hflagcols : forall c, In c (flag_columns df) -> c <> failed_col /\ c <> modified_col).
  { intros c [_ Hc]%filter_In. split; congruence. }
  destruct (flag_rows_spec failed_col modified_col distinct (flag_columns df) r2
              (ledger_on_entry df failed_col r) (ledger_on_entry df modified_col r) Hflagcols)
    as (Hf & Hm & Hother).
  { unfold r2, r1. rewrite lookup_insert_ne by (apply not_eq_sym, distinct).
    apply lookup_insert_eq. }
  { unfold r2. apply lookup_insert_eq. }
  assert (Hext : forall mask, flagged mask (flag_columns df) r2 = flagged mask (flag_columns df) r).
  { intros mask. apply flagged_ext. intros c Hc. destruct (Hflagcols c Hc).
    unfold r2, r1. rewrite !lookup_insert_ne by congruence. reflexivity. }
  rewrite !Hext in *. split; [assumption|]. split; [assumption|].
  intros c Hc1 Hc2. rewrite Hother by assumption.
  unfold r2, r1. rewrite !lookup_insert_ne by congruence. reflexivity.
Qed.

End LedgerFrame.

(** X14. [record_issue], for any two different ledger column names that
    do not end in [_Flag]: the frame keeps its records and their order,
    its columns are the old ones and the two ledger columns, and its flag
    columns are the old ones; in every record the ledger cells hold what
    they held as lists on entry followed by the fields whose flag is
    missing (first cell) or true (second cell), in column order, and every
    other cell is untouched. *)
Theorem record_issue_appends (df : frame) (failed_col modified_col : string) :
  failed_col <> modified_col ->
  ends_with "_Flag" failed_col = false ->
  ends_with "_Flag" modified_col = false ->
  List.length (rows (record_issue_with df failed_col modified_col)) = List.length (rows df)
  /\ (forall c, c ∈ columns (record_issue_with df failed_col modified_col)
                <-> c ∈ columns df \/ c = failed_col \/ c = modified_col)
  /\ flag_columns (record_issue_with df failed_col modified_col) = flag_columns df
  /\ forall (i : nat) (r : row), nth_error (rows df) i = Some r ->
       exists r',
         nth_error (rows (record_issue_with df failed_col modified_col)) i = Some r'
         /\ r' !! failed_col
            = Some (CList (ledger_on_entry df failed_col r
                           ++ flagged cell_isna (flag_columns df) r))
         /\ r' !! modified_col
            = Some (CList (ledger_on_entry df modified_col r
                           ++ flagged cell_is_true (flag_columns df) r))
         /\ (forall c, c <> failed_col -> c <> modified_col -> r' !! c = r !! c).
Proof.
  intros Hd Hf Hm.
  destruct (record_issue_with_columns failed_col modified_col Hf Hm df) as [Hcols Hflags].
  destruct (record_issue_with_rows failed_col modified_col Hd Hf Hm df) as [Hlen Hrows].
  auto.
Qed.

Lemma record_issue_appends_witness :
  List.length (rows (record_issue_with carried_ledger "Failed" "Fixed")) = 1%nat
  /\ flag_columns (record_issue_with carried_ledger "Failed" "Fixed") = ["Provider_Flag"]
  /\ exists r',
       nth_error (rows (record_issue_with carried_ledger "Failed" "Fixed")) 0 = Some r'
       /\ r' !! "Failed" = Some (CList [])
       /\ r' !! "Fixed" = Some (CList ["Provider"])
       /\ r' !! "FailedFields" = Some (CList ["Provider"]).
Proof.
  destruct (record_issue_appends carried_ledger "Failed" "Fixed")
    as (Hlen & _ & Hflags & Hrows); [discriminate|reflexivity|reflexivity|].
  split; [exact Hlen|]. split; [exact Hflags|].
  destruct (Hrows 0%nat _ eq_refl) as (r' & Hr' & Hf & Hm & Hother).
  exists r'. split; [exact Hr'|]. split; [exact Hf|]. split; [exact Hm|].
  rewrite Hother by discriminate. reflexivity.
Defined.

(** X15. [record_issue] is not idempotent.  Run a second time on its own
    result, it finds the lists of the first run in the ledger columns and
    appends the same names again: every field whose flag is missing or
    true is then listed twice. *)
Theorem record_issue_twice (df : frame) (i : nat) (r : row) :
  nth_error (rows df) i = Some r ->
  exists r'',
    nth_error (rows (record_issue (record_issue df))) i = Some r''
    /\ r'' !! "FailedFields"
       = Some (CList (ledger_on_entry df "FailedFields" r
                      ++ flagged cell_isna (flag_columns df) r
                      ++ flagged cell_isna (flag_columns df) r))
    /\ r'' !! "ModifiedFields"
       = Some (CList (ledger_on_entry df "ModifiedFields" r
                      ++ flagged cell_is_true (flag_columns df) r
                      ++ flagged cell_is_true (flag_columns df) r)).
Proof.
  intros Hr. unfold record_issue.
  assert (Hd : "FailedFields" <> "ModifiedFields") by discriminate.
  destruct (record_issue_with_columns "FailedFields" "ModifiedFields" eq_refl eq_refl df)
    as [Hcols Hflags].
  destruct (record_issue_with_rows "FailedFields" "ModifiedFields" Hd eq_refl eq_refl df)
    as [_ Hrows].
  destruct (Hrows i r Hr) as (r' & Hr' & Hf & Hm & Hother).
  destruct (record_issue_with_rows "FailedFields" "ModifiedFields" Hd eq_refl eq_refl
              (record_issue_with df "FailedFields" "ModifiedFields")) as [_ Hrows2].
  destruct (Hrows2 i r' Hr') as (r'' & Hr'' & Hf2 & Hm2 & _).
  exists r''. split; [exact Hr''|].
  assert (Hext : forall mask, flagged mask (flag_columns df) r' = flagged mask (flag_columns df) r).
  { intros mask. apply flagged_ext. intros c [_ Hc]%filter_In.
    apply Hother; intros ->; discriminate Hc. }
  assert (Hentry : forall col l, (col = "FailedFields" \/ col = "ModifiedFields") ->
            r' !! col = Some (CList l) ->
            ledger_on_entry (record_issue_with df "FailedFields" "ModifiedFields") col r' = l).
  { intros col l Hcol Hl. unfold ledger_on_entry.
    rewrite bool_decide_eq_true_2 by (apply Hcols; tauto).
    unfold cell_at. rewrite Hl. reflexivity. }
  rewrite Hflags, !Hext in Hf2, Hm2.
  rewrite (Hentry _ _ (or_introl eq_refl) Hf) in Hf2.
  rewrite (Hentry _ _ (or_intror eq_refl) Hm) in Hm2.
  rewrite <- !app_assoc in Hf2, Hm2. split; assumption.
Qed.

Lemma record_issue_twice_witness :
  exists r'',
    nth_error (rows (record_issue (record_issue flagged_batch))) 0 = Some r''
    /\ r'' !! "FailedFields" = Some (CList ["Provider"; "Provider"])
    /\ r'' !! "ModifiedFields" = Some (CList ["InvoiceDate"; "InvoiceDate"]).
Proof.
  exact (record_issue_twice flagged_batch 0 _ eq_refl).
Defined.


(* --------------------------------------------------------------------- *)
(** *** The cleaners in sequence *)

Section CoreColumns.
Variable float_repr : float -> string.
Variable token_set_ratio : string -> string -> Z.
Variable provider_to_contracts_dict : gmap string (list contract).
Variable providers : list string.

(** The registry handed to [clean_provider] lists the keys of the index. *)
Hypothesis providers_are_keys :
  forall k, In k providers <-> is_Some (provider_to_contracts_dict !! k).

(** A provider name scores at least the strict threshold against itself. *)
Hypothesis self_score : forall k, In k providers -> 80 <= token_set_ratio k k.

(** No contract is filed under the empty name. *)
Hypothesis no_empty_name : provider_to_contracts_dict !! "" = None.

(** An unresolved provider is no key of the index. *)
Lemma unresolved_provider_not_indexed (provider v : pyval) :
  clean_provider token_set_ratio provider providers = (None, v) ->
  dict_has provider_to_contracts_dict v = false
  /\ dict_get provider_to_contracts_dict v = None.
Proof.
  assert (Hboth : forall p, provider_to_contracts_dict !! p = None ->
            dict_has provider_to_contracts_dict (PStr p) = false
            /\ dict_get provider_to_contracts_dict (PStr p) = None).
  { intros p Hp. cbn [dict_has dict_get]. rewrite Hp. split; [|reflexivity].
    apply bool_decide_eq_false. intros [x Hx]. discriminate Hx. }
  unfold clean_provider, clean_provider_with.
  destruct (negb (truthy provider) || negb (is_str provider)) eqn:Habs.
  - intros [= <-]. destruct provider as [| | | |p]; try (split; reflexivity).
    destruct p as [|c p]; [apply Hboth, no_empty_name|discriminate Habs].
  - destruct provider as [| | | |p]; cbn [is_str negb] in Habs;
      rewrite ?orb_true_r in Habs; try discriminate Habs.
    unfold strict_pass, lenient_pass.
    destruct (extractOne token_set_ratio (strip p) providers) as [[m sc]|] eqn:E1.
    + destruct (80 <=? sc) eqn:Hsc.
      * destruct (negb (String.eqb m (strip p))); discriminate.
      * intros Hlen.
        assert (Hv : v = PStr (strip p)).
        { destruct (extractOne token_set_ratio (normalize_provider (strip p)) providers)
            as [[m' sc']|]; [|congruence].
          destruct (60 <? sc'); [|congruence].
          destruct (negb (String.eqb m' (strip p))); discriminate Hlen. }
        subst v. apply Hboth.
        destruct (provider_to_contracts_dict !! strip p) as [cs|] eqn:Hk; [|reflexivity].
        assert (Hin : In (strip p) providers) by (apply providers_are_keys; eauto).
        pose proof (self_score _ Hin) as Hself.
        destruct (extractOne_best token_set_ratio (strip p) providers (strip p) Hin)
          as (m0 & sc0 & E & Hle); [lia|].
        rewrite E1 in E. injection E as <- <-. apply Z.leb_gt in Hsc. lia.
    + intros Hlen.
      assert (Hv : v = PStr (strip p)).
      { destruct (extractOne token_set_ratio (normalize_provider (strip p)) providers)
          as [[m' sc']|]; [|congruence].
        destruct (60 <? sc'); [|congruence].
        destruct (negb (String.eqb m' (strip p))); discriminate Hlen. }
      subst v. apply Hboth.
      destruct (provider_to_contracts_dict !! strip p) as [cs|] eqn:Hk; [|reflexivity].
      assert (Hin : In (strip p) providers) by (apply providers_are_keys; eauto).
      pose proof (self_score _ Hin) as Hself.
      destruct (extractOne_best token_set_ratio (strip p) providers (strip p) Hin)
        as (m0 & sc0 & E & Hle); [lia|].
      rewrite E1 in E. discriminate E.
Qed.

(** X16. The title and number resolvers are called with the provider
    [clean_provider] returned, as the data frame hands it on: the same text
    if it is a text, and else some value that is no text.  When the index
    has no empty provider name and every provider name scores at least 80
    against itself, a provider left unresolved blocks both resolvers:
    [clean_title] returns without raising, both return the unresolved flag
    and the title and number they were given, whatever these hold. *)
Theorem unresolved_provider_blocks_contract
    (provider provider_clean handed_on title number title_clean : pyval) :
  clean_provider token_set_ratio provider providers = (None, provider_clean) ->
  handed_on = provider_clean \/ is_str handed_on = false ->
  clean_title float_repr handed_on title number provider_to_contracts_dict
  = inr (None, title)
  /\ clean_number float_repr handed_on number title_clean provider_to_contracts_dict
     = (None, number).
Proof.
  intros Hp Hhanded.
  assert (Hout : dict_has provider_to_contracts_dict handed_on = false
                 /\ dict_get provider_to_contracts_dict handed_on = None).
  { destruct Hhanded as [->|Hnotext].
    - exact (unresolved_provider_not_indexed _ _ Hp).
    - destruct handed_on; try discriminate Hnotext; split; reflexivity. }
  destruct Hout as [Hhas Hget]. split.
  - unfold clean_title. rewrite Hhas, Hget.
    destruct (blank float_repr title && negb false); reflexivity.
  - unfold clean_number. cbn [dict_get]. rewrite no_empty_name.
    destruct (blank float_repr number && negb _); reflexivity.
Qed.

End CoreColumns.

Lemma unresolved_provider_blocks_contract_witness :
  clean_title (const_repr "") (PStr "Acme") (PStr "Civil work") (PStr "3665") two_contract_index
  = inr (None, PStr "Civil work")
  /\ clean_number (const_repr "") (PStr "Acme") (PStr "3665") (PStr "Civil work")
       two_contract_index
     = (None, PStr "3665").
Proof.
  apply (unresolved_provider_blocks_contract (const_repr "") exact_ratio two_contract_index
           ["Citywide"])
    with (provider := PStr " Acme ") (provider_clean := PStr "Acme").
  - intros k. split.
    + intros [<-|[]]. eexists. reflexivity.
    + intros [x Hx]. destruct (decide (k = "Citywide")) as [->|Hne]; [left; reflexivity|].
      unfold two_contract_index in Hx.
      rewrite lookup_insert_ne in Hx by congruence. discriminate Hx.
  - intros k _. rewrite exact_ratio_self. lia.
  - reflexivity.
  - reflexivity.
  - left. reflexivity.
Defined.

(* --------------------------------------------------------------------- *)
(** *** Records that cannot be scored *)

Lemma fields_of_iterable (r : row) (col : string) :
  match fields_of r col with
  | inr _ => iterable (r !! col) = true
  | inl e => iterable (r !! col) = false /\ e = TypeError
  end.
Proof.
  unfold fields_of, iterable. destruct (r !! col) as [[v|l]|]; try reflexivity.
  destruct v as [|b|z|f|s]; try reflexivity.
  - destruct (truthy (PBool b)); cbn; auto.
  - destruct (truthy (PInt z)); cbn; auto.
  - destruct (truthy (PFloat f)); cbn; auto.
Qed.

Lemma safe_float_fits (c : cell) :
  match safe_float c with
  | inr _ => float_fits c = true
  | inl e => float_fits c = false /\ e = OverflowError
  end.
Proof.
  destruct c as [v|l]; [|reflexivity].
  destruct v as [|b|z|f|s]; cbn [safe_float py_float float_fits raise ret]; try reflexivity.
  - destruct (is_inf (float_of_Z z)); cbn; auto.
  - destruct (float_of_string s); reflexivity.
Qed.

Lemma key_of_hashable (p t n : cell) :
  match key_of p t n with
  | inr _ => hashable p && hashable t && hashable n = true
  | inl e => hashable p && hashable t && hashable n = false /\ e = TypeError
  end.
Proof. destruct p, t, n; cbn; auto. Qed.

(** X17. [compute_risk_score] raises on a record it cannot read.  A
    ledger cell that cannot be iterated (a scalar that counts as true and
    is no text, such as a number or NaN) raises [TypeError]; with both
    ledger cells iterable, a cleaned amount that is an integer beyond the
    floats raises [OverflowError]; and else a list as cleaned provider,
    title or number raises [TypeError], as it cannot be part of the key. *)
Theorem compute_risk_score_raises
    (to_datetime : cell -> exc (option Z)) (r : row) (cm : list (key * contract_dict)) :
  readable_record r = false ->
  compute_risk_score to_datetime r cm
  = inl (if iterable (r !! "FailedFields") && iterable (r !! "ModifiedFields")
            && negb (float_fits (row_get r "InvoiceAmount_Clean"))
         then OverflowError else TypeError).
Proof.
  unfold compute_risk_score, readable_record.
  pose proof (fields_of_iterable r "FailedFields") as H1.
  pose proof (fields_of_iterable r "ModifiedFields") as H2.
  pose proof (safe_float_fits (row_get r "InvoiceAmount_Clean")) as H3.
  pose proof (key_of_hashable (row_get r "Provider_Clean") (row_get r "ContractTitle_Clean")
                (row_get r "ContractNumber_Clean")) as H4.
  destruct (fields_of r "FailedFields") as [e|failed]; cbn [bind].
  { destruct H1 as [-> ->]. reflexivity. }
  rewrite H1.
  destruct (fields_of r "ModifiedFields") as [e|modified]; cbn [bind].
  { destruct H2 as [-> ->]. reflexivity. }
  rewrite H2.
  destruct (safe_float (row_get r "InvoiceAmount_Clean")) as [e|amount]; cbn [bind].
  { destruct H3 as [-> ->]. reflexivity. }
  rewrite H3. cbn [andb negb].
  destruct (key_of _ _ _) as [e|k]; cbn [bind ret].
  { destruct H4 as [_ ->]. reflexivity. }
  intros Hbad. rewrite <- !andb_assoc in Hbad. rewrite andb_assoc in Hbad.
  rewrite H4 in Hbad. discriminate Hbad.
Qed.

Lemma compute_risk_score_raises_witness :
  compute_risk_score (fun _ => inr None) broken_ledger_row [] = inl TypeError.
Proof.
  apply (compute_risk_score_raises (fun _ => inr None) broken_ledger_row []). reflexivity.
Defined.

(* --------------------------------------------------------------------- *)
(** *** The sign of an amount *)

Lemma signed_char_not_space c :
  digit_or_dot c || Ascii.eqb c "-" = true -> is_space c = false.
Proof. each_ascii c; vm_compute; congruence. Qed.

Section AmountSign.
Variable float_repr : float -> string.

(** X18. A minus sign is not a digit or a point, so it is dropped with
    the other characters: the text of a negative plain decimal is cleaned
    to the same, positive float as the text without the sign, flagged as
    changed. *)
Theorem clean_invoice_amount_drops_sign (t : string) :
  plain_decimal t = true ->
  exists v,
    float_of_string t = Some v
    /\ clean_invoice_amount float_repr (PStr t) = (Some false, PFloat v)
    /\ clean_invoice_amount float_repr (PStr ("-" ++ t)) = (Some true, PFloat v).
Proof.
  intros Hs. destruct (float_of_string_plain _ Hs) as [v Hv].
  exists v. split; [exact Hv|].
  pose proof Hs as Hparts. unfold plain_decimal in Hparts.
  apply andb_true_iff in Hparts as [[Hall Hdots]%andb_true_iff Hdig].
  assert (Hlow : lower t = t)
    by (apply (smap_id digit_or_dot); [exact digit_or_dot_lower_id|exact Hall]).
  assert (Hfew : (1 <? scount (Ascii.eqb ".") t)%nat = false)
    by (apply Nat.ltb_ge, Nat.leb_le; exact Hdots).
  assert (Hkeep : digits_and_dots t = t).
  { unfold digits_and_dots. change (fun c => is_digit c || Ascii.eqb c ".") with digit_or_dot.
    apply sfilter_id. exact Hall. }
  assert (Hnom : contains_char "m" t = false)
    by (apply (sexists_none digit_or_dot); [exact digit_or_dot_not_m|exact Hall]).
  split.
  - unfold clean_invoice_amount. cbn [is_str py_str].
    rewrite millions_marker, Hlow, Hnom, plain_remainder, Hkeep, Hfew, Hv.
    rewrite (strip_id digit_or_dot t digit_or_dot_not_space Hall), String.eqb_refl.
    reflexivity.
  - rewrite append_cons, append_nil.
    unfold clean_invoice_amount. cbn [is_str py_str].
    rewrite millions_marker, plain_remainder.
    assert (Hm : contains_char "m" (lower (String "-" t)) = false).
    { unfold lower. cbn [smap]. fold (lower t). rewrite Hlow. exact Hnom. }
    rewrite Hm.
    assert (Hd : digits_and_dots (String "-" t) = t).
    { unfold digits_and_dots. cbn [sfilter]. exact Hkeep. }
    rewrite Hd, Hfew, Hv.
    assert (Hstrip : strip (String "-" t) = String "-" t).
    { apply (strip_id (fun c => digit_or_dot c || Ascii.eqb c "-"));
        [exact signed_char_not_space|].
      cbn [sforall]. apply (sforall_weaken digit_or_dot); [|exact Hall].
      intros c Hc. rewrite Hc. reflexivity. }
    rewrite Hstrip.
    replace (String.eqb t (String "-" t)) with false; [reflexivity|].
    symmetry. apply String.eqb_neq. intros H.
    apply (f_equal String.length) in H. cbn [String.length] in H. lia.
Qed.

End AmountSign.

Lemma clean_invoice_amount_drops_sign_witness :
  exists v,
    float_of_string "250.75" = Some v
    /\ clean_invoice_amount (const_repr "") (PStr "250.75") = (Some false, PFloat v)
    /\ clean_invoice_amount (const_repr "") (PStr "-250.75") = (Some true, PFloat v).
Proof.
  apply (clean_invoice_amount_drops_sign (const_repr "") "250.75"). reflexivity.
Defined.
